(** * geist-pdu-exporter: the fetch / parse / publish cycle of [src/main.py]

    A shallow embedding of the [Exporter] class.  The exporter object
    (its three groups of Prometheus instruments and the output of its
    logger) is the state; every method is a computation in a state and
    exception monad, because a Python exception leaves the mutations made
    before it in place.

    What the code takes from outside the repository is a parameter of
    the development: the builtin [float], the value [0.0] a fresh gauge
    child starts from, and [ET.fromstring].  What [requests.get] does in a
    cycle is an input of that cycle. *)

From Stdlib Require Import Ascii ZArith.
From Stdlib Require Floats Uint63.
From stdpp Require Import gmap strings list fin_maps.

Open Scope string_scope.
Open Scope list_scope.

(** ** XML elements ([xml.etree.ElementTree.Element]) *)

#[warnings="-register-all"]
Inductive Element : Type :=
  Elem (tag : string) (attrib : gmap string string) (children : list Element).

Definition tag (e : Element) : string := let 'Elem t _ _ := e in t.
Definition attrib (e : Element) : gmap string string := let 'Elem _ a _ := e in a.
Definition children (e : Element) : list Element := let 'Elem _ _ c := e in c.

(** [e.find(t)] with a plain tag: the first direct child with that tag. *)
Definition find (e : Element) (t : string) : option Element :=
  list_find (λ c, tag c = t) (children e) ≫= λ p, Some p.2.

(** Truth value of the result of [find]: [None] is false, and an element
    is false exactly when it has no children ([Element.__bool__] is
    [len(self) != 0]). *)
Definition truthy (o : option Element) : bool :=
  match o with
  | None => false
  | Some e => bool_decide (children e ≠ [])
  end.

(** ** Exceptions and the exporter monad *)

Inductive ValueErrorCause : Type :=
  | CouldNotConvertToFloat (s : string)   (* float(s) *)
  | NoLabelNames                          (* labels() on a metric without labels *)
  | IncorrectLabelCount                   (* labels() without keyword arguments *)
  | IncorrectLabelNames                   (* labels with keyword arguments, wrong keys *)
  | NotInList (s : string).               (* list.index(s) *)

Inductive exn : Type :=
  | KeyError (key : string)
  | ValueError (cause : ValueErrorCause)
  | TypeError_NoneType_not_iterable
  | UnboundLocalError (name : string)
  | ParseError
  | RequestException (description : string).

Inductive Result (A : Type) : Type :=
  | Ok (a : A)
  | Raise (e : exn).
Arguments Ok {A} a.
Arguments Raise {A} e.

Inductive LogLevel : Type := INFO | WARNING.
#[global] Instance LogLevel_eq_dec : EqDecision LogLevel.
Proof. solve_decision. Defined.
Definition LogRecord : Type := LogLevel * string.

Definition M (S A : Type) : Type := S → S * Result A.

Definition ret {S A} (a : A) : M S A := λ s, (s, Ok a).
Definition raise {S A} (e : exn) : M S A := λ s, (s, Raise e).
Definition bind {S A B} (m : M S A) (k : A → M S B) : M S B :=
  λ s, match m s with
       | (s', Ok a) => k a s'
       | (s', Raise e) => (s', Raise e)
       end.

Notation "'let*' x ':=' m 'in' k" := (bind m (λ x, k))
  (at level 10, x name, m at level 100, k at level 200, only parsing).
Notation "m ;; k" := (bind m (λ _, k))
  (at level 100, right associativity, only parsing).

(** [for x in l: body(x)] *)
Fixpoint for_each {S A} (body : A → M S unit) (l : list A) : M S unit :=
  match l with
  | [] => ret tt
  | x :: l' => body x ;; for_each body l'
  end.

(** [d[k]] on a dict of strings *)
Definition getitem {S} (d : gmap string string) (k : string) : M S string :=
  match d !! k with
  | Some v => ret v
  | None => raise (KeyError k)
  end.

(** [{label: d[label] for label in names}] *)
Fixpoint dict_of_labels {S} (d : gmap string string) (names : list string)
    : M S (gmap string string) :=
  match names with
  | [] => ret ∅
  | label :: rest =>
      let* v := getitem d label in
      let* m := dict_of_labels d rest in
      ret (<[label := v]> m)
  end.

Definition gets {S A} (f : S → A) : M S A := λ s, (s, Ok (f s)).

(** ** The Prometheus client: [Gauge] and [Enum] with labels

    A metric with label names keeps one child per tuple of label values
    (its [_metrics] dict).  [labels] looks the child up and creates it
    when it is missing; a gauge child starts at [0.0], an enum child in
    its first state. *)

(** The tuple [tuple(str(kw[l]) for l in labelnames)]. *)
Fixpoint values_of {S} (kw : gmap string string) (labelnames : list string)
    : M S (list string) :=
  match labelnames with
  | [] => ret []
  | l :: rest =>
      let* v := getitem kw l in
      let* vs := values_of kw rest in
      ret (v :: vs)
  end.

(** The checks of [labels] called with keyword arguments only.  The keys
    of [kw] are distinct, so [sorted(kw) != sorted(labelnames)] fails
    exactly when [labelnames] has no duplicate and the same elements. *)
Definition labelvalues {S} (labelnames : list string) (kw : gmap string string)
    : M S (list string) :=
  if bool_decide (labelnames = []) then raise (ValueError NoLabelNames)
  else if bool_decide (kw = ∅) then raise (ValueError IncorrectLabelCount)
  else if bool_decide (NoDup labelnames ∧ dom kw = list_to_set labelnames)
  then values_of kw labelnames
  else raise (ValueError IncorrectLabelNames).

Section Exporter.

(** Python floats, the value [0.0], the builtin [float] ([None] stands
    for [ValueError]) and [ET.fromstring] ([None] stands for
    [ParseError]). *)
Context {F : Type}.
Variable fzero : F.
Variable float : string → option F.
Variable fromstring : string → option Element.

Record Gauge : Type := mkGauge {
  gauge_name : string;
  gauge_documentation : string;
  gauge_labelnames : list string;
  gauge_metrics : gmap (list string) F;
}.

Record Enum : Type := mkEnum {
  enum_name : string;
  enum_documentation : string;
  enum_labelnames : list string;
  enum_states : list string;
  enum_metrics : gmap (list string) nat;   (* index into [enum_states] *)
}.

Definition set_gauge_metrics (f : gmap (list string) F → gmap (list string) F)
    (g : Gauge) : Gauge :=
  mkGauge (gauge_name g) (gauge_documentation g) (gauge_labelnames g)
          (f (gauge_metrics g)).

Definition set_enum_metrics (f : gmap (list string) nat → gmap (list string) nat)
    (m : Enum) : Enum :=
  mkEnum (enum_name m) (enum_documentation m) (enum_labelnames m)
         (enum_states m) (f (enum_metrics m)).

(** The child is created when [labelvalues not in self._metrics]. *)
Definition ensure {V} (d : V) (k : list string) (m : gmap (list string) V)
    : gmap (list string) V :=
  match m !! k with
  | Some _ => m
  | None => <[k := d]> m
  end.

(** [metric.labels( **kw)]: the key of the child. *)
Definition Gauge_labels (kw : gmap string string) : M Gauge (list string) :=
  let* labelnames := gets gauge_labelnames in
  let* k := labelvalues labelnames kw in
  λ g, (set_gauge_metrics (ensure fzero k) g, Ok k).

(** [child.set(v)] *)
Definition Gauge_set (k : list string) (v : F) : M Gauge unit :=
  λ g, (set_gauge_metrics <[k := v]> g, Ok tt).

Definition Enum_labels (kw : gmap string string) : M Enum (list string) :=
  let* labelnames := gets enum_labelnames in
  let* k := labelvalues labelnames kw in
  λ m, (set_enum_metrics (ensure 0 k) m, Ok k).

(** [child.state(s)]: [self._value = self._states.index(s)] *)
Definition Enum_state (k : list string) (s : string) : M Enum unit :=
  let* states := gets enum_states in
  match list_find (λ x, x = s) states with
  | Some (i, _) => λ m, (set_enum_metrics <[k := i]> m, Ok tt)
  | None => raise (ValueError (NotInList s))
  end.

(** [float(s)] *)
Definition to_float {S} (s : string) : M S F :=
  match float s with
  | Some v => ret v
  | None => raise (ValueError (CouldNotConvertToFloat s))
  end.

(** [metric.labels( **kw).set(float(d[key]))]: the child is looked up
    (and created) before the argument is evaluated. *)
Definition labels_set_float (kw d : gmap string string) (key : string)
    : M Gauge unit :=
  let* k := Gauge_labels kw in
  let* s := getitem d key in
  let* v := to_float s in
  Gauge_set k v.

(** ** The exporter object *)

Record Exporter : Type := mkExporter {
  device_labels : list string;
  outlet_labels : list string;
  device_metrics : gmap string Gauge;          (* field key -> gauge *)
  outlet_metrics : list (string * Gauge);      (* a dict, in insertion order *)
  outlet_status : Enum;
  logger : list LogRecord;                     (* records emitted, oldest first *)
}.

(** [Exporter.__init__] *)
Definition init : Exporter :=
  let device_labels := ["id"; "type"] in
  let outlet_labels := ["name"; "num"; "url"] in
  let gauge name doc labels := mkGauge name doc labels ∅ in
  {| device_labels := device_labels;
     outlet_labels := outlet_labels;
     device_metrics := list_to_map [
       ("KWatt-hrs-Total", gauge "pdu_kwh_total" "Total device KWh" device_labels);
       ("KWatt-hrs-A", gauge "pdu_kwh" "Device KWh" device_labels);
       ("RealPower-Total", gauge "pdu_realpower_total" "Device RealPower" device_labels);
       ("RealPower-A", gauge "pdu_realpower" "Device realpower" device_labels);
       ("Volts-A", gauge "pdu_volts" "Device voltage" device_labels);
       ("Volt-Pk-A", gauge "pdu_volts_peak" "Device peak voltage" device_labels);
       ("Amps-A", gauge "pdu_amps" "Device amperage" device_labels);
       ("Amps-Pk-A", gauge "pdu_amps_peak" "Device peak amperage" device_labels);
       ("ApPower-A", gauge "pdu_apparent_power" "Device apparent power" device_labels);
       ("Pwr-Factor%-A",
          gauge "pdu_power_factor_percent" "Power Factor Percentage" device_labels)
     ];
     outlet_metrics := [
       ("amps", gauge "pdu_outlet_amps" "Outlet Amperage" (outlet_labels ++ device_labels));
       ("kwatthrs",
          gauge "pdu_outlet_kwh_total" "Outlet Total KWh" (outlet_labels ++ device_labels));
       ("watts", gauge "pdu_outlet_watts" "Outlet Watts" (outlet_labels ++ device_labels))
     ];
     outlet_status :=
       mkEnum "pdu_outlet_status" "Outlet status" (outlet_labels ++ device_labels)
              ["On"; "Off"] ∅;
     logger := [] |}.

Definition log (level : LogLevel) (msg : string) : M Exporter unit :=
  λ self, (mkExporter (device_labels self) (outlet_labels self) (device_metrics self)
                      (outlet_metrics self) (outlet_status self)
                      (logger self ++ [(level, msg)]), Ok tt).

(** [metric = self.device_metrics.get(key); if metric: body(metric)].
    A gauge object is always true. *)
Definition with_device_metric (key : string) (body : M Gauge unit) : M Exporter unit :=
  λ self,
    match device_metrics self !! key with
    | None => (self, Ok tt)
    | Some metric =>
        let '(metric', r) := body metric in
        (mkExporter (device_labels self) (outlet_labels self)
                    (<[key := metric']> (device_metrics self))
                    (outlet_metrics self) (outlet_status self) (logger self), r)
    end.

(** [for attr, metric in items: body(attr, metric)], where the body only
    changes [metric]. *)
Fixpoint for_items (body : string → M Gauge unit) : M (list (string * Gauge)) unit :=
  λ items,
    match items with
    | [] => ([], Ok tt)
    | (attr, metric) :: rest =>
        match body attr metric with
        | (metric', Ok _) =>
            let '(rest', r) := for_items body rest in ((attr, metric') :: rest', r)
        | (metric', Raise e) => ((attr, metric') :: rest, Raise e)
        end
    end.

Definition with_outlet_metrics (m : M (list (string * Gauge)) unit) : M Exporter unit :=
  λ self,
    let '(items, r) := m (outlet_metrics self) in
    (mkExporter (device_labels self) (outlet_labels self) (device_metrics self)
                items (outlet_status self) (logger self), r).

Definition with_outlet_status (m : M Enum unit) : M Exporter unit :=
  λ self,
    let '(status, r) := m (outlet_status self) in
    (mkExporter (device_labels self) (outlet_labels self) (device_metrics self)
                (outlet_metrics self) status (logger self), r).

(** [Exporter.process_outlet].  In [{ **outlet_labels, **device_labels}]
    the entries of [device_labels] come last and win: the union of
    finite maps keeps the left operand's value. *)
Definition process_outlet (outlet : Element) (device_labels : gmap string string)
    : M Exporter unit :=
  let* num := getitem (attrib outlet) "num" in
  log INFO ("Processsing outlet " +:+ num) ;;
  let* names := gets outlet_labels in
  let* outlet_labels := dict_of_labels (attrib outlet) names in
  let outlet_labels := device_labels ∪ outlet_labels in
  with_outlet_metrics
    (for_items (λ attr, labels_set_float outlet_labels (attrib outlet) attr)) ;;
  with_outlet_status
    (let* k := Enum_labels outlet_labels in
     let* status := getitem (attrib outlet) "status" in
     Enum_state k status).

(** The body of the loop over the children of a device. *)
Definition process_child (child : Element) (device_labels : gmap string string)
    : M Exporter unit :=
  if bool_decide (tag child = "field") then
    let* key := getitem (attrib child) "key" in
    with_device_metric key (labels_set_float device_labels (attrib child) "value")
  else ret tt.

(** [Exporter.process_device] *)
Definition process_device (device : Element) : M Exporter unit :=
  let* type := getitem (attrib device) "type" in
  log INFO ("Processsing device " +:+ type) ;;
  let outlets := find device "outlets" in
  if negb (truthy outlets) then ret tt
  else
    let* names := gets device_labels in
    let* device_labels := dict_of_labels (attrib device) names in
    for_each (λ child, process_child child device_labels) (children device) ;;
    for_each (λ outlet, process_outlet outlet device_labels)
             (from_option children [] outlets).

(** ** Fetching *)

(** What [requests.get] does in one cycle. *)
Inductive GetOutcome : Type :=
  | Response (text : string)
  | ConnectionError (strerror : string)
      (* requests.ConnectionError: refused, name resolution, connect timeout *)
  | OtherRequestException (description : string).
      (* any other exception of requests, such as ReadTimeout *)

(** [Exporter.fetch].  The local variable [resp] is bound only when the
    request returned. *)
Definition fetch (outcome : GetOutcome) : M Exporter Element :=
  let* resp :=
    match outcome with
    | Response text => ret (Some text)
    | ConnectionError strerror =>
        log WARNING ("Exception while connecting to device: " +:+ strerror) ;;
        ret None
    | OtherRequestException d => raise (RequestException d)
    end in
  let* text :=
    match resp with
    | Some text => ret text
    | None => raise (UnboundLocalError "resp")
    end in
  match fromstring text with
  | Some root => ret root
  | None => raise ParseError
  end.

(** [Exporter.process] *)
Definition process (outcome : GetOutcome) : M Exporter unit :=
  log INFO "Starting process.." ;;
  let* root := fetch outcome in
  match find root "devices" with
  | Some devices => for_each process_device (children devices)
  | None => raise TypeError_NoneType_not_iterable
  end.

(** [Exporter.start_export_loop], run over the cycles the environment
    provides: what the request does and the formatted duration. *)
Record Cycle : Type := mkCycle { outcome : GetOutcome; elapsed : string }.

Fixpoint start_export_loop (cycles : list Cycle) : M Exporter unit :=
  match cycles with
  | [] => ret tt
  | c :: rest =>
      process (outcome c) ;;
      log INFO ("Process completed in " +:+ elapsed c +:+ "s") ;;
      start_export_loop rest
  end.

End Exporter.

(** A child of a device that the loop over the children passes without
    an exception: anything that is not a [field], and a [field] with a
    [key] that is either not a key of [device_metrics] or comes with a
    [value] that [float] accepts. *)
Definition well_formed_child {F} (float : string → option F) (child : Element) : Prop :=
  tag child = "field" →
  ∃ key, attrib child !! "key" = Some key
         ∧ (is_Some (device_metrics (init (F:=F)) !! key) →
            ∃ s, attrib child !! "value" = Some s ∧ is_Some (float s)).

(** An outlet that [process_outlet] passes without an exception: it has
    the three label attributes (of which [num] is also logged), the three
    measurements with values that [float] accepts, and a [status] that is
    one of the states of the enum. *)
Definition well_formed_outlet {F} (float : string → option F) (outlet : Element) : Prop :=
  (∀ a, a ∈ ["name"; "num"; "url"] → is_Some (attrib outlet !! a))
  ∧ (∀ a, a ∈ ["amps"; "kwatthrs"; "watts"] →
       ∃ s, attrib outlet !! a = Some s ∧ is_Some (float s))
  ∧ (∃ s, attrib outlet !! "status" = Some s ∧ s ∈ ["On"; "Off"]).

(** A device that [process_device] passes without an exception: it has a
    [type]; and when its first [outlets] container has children, it has
    an [id], its children are well formed and so are those outlets. *)
Definition well_formed_device {F} (float : string → option F) (device : Element) : Prop :=
  is_Some (attrib device !! "type")
  ∧ (truthy (find device "outlets") = true →
     is_Some (attrib device !! "id")
     ∧ Forall (well_formed_child float) (children device)
     ∧ Forall (well_formed_outlet float)
              (from_option children [] (find device "outlets"))).

(** A document that [process] passes without an exception. *)
Definition well_formed_document {F} (float : string → option F) (root : Element) : Prop :=
  ∃ devices, find root "devices" = Some devices
             ∧ Forall (well_formed_device float) (children devices).

(** The last [field] with the given key among the children of a device. *)
Definition last_field (key : string) (children : list Element) : option Element :=
  last (filter (λ c, tag c = "field" ∧ attrib c !! "key" = Some key) children).

(** An outlet in which nothing fails before [process_outlet] reads the
    measurement [a]: the three labels are there, and the measurements
    that are read before [a] are there with values that [float]
    accepts. *)
Definition reaches_measurement {F} (float : string → option F) (outlet : Element)
    (a : string) : Prop :=
  (∀ l, l ∈ ["name"; "num"; "url"] → is_Some (attrib outlet !! l))
  ∧ ∃ earlier later,
      ["amps"; "kwatthrs"; "watts"] = earlier ++ a :: later
      ∧ Forall (λ b, ∃ s, attrib outlet !! b = Some s ∧ is_Some (float s)) earlier.

(** An outlet in which nothing fails before [process_outlet] reads the
    [status]: the labels and the three measurements are as they should
    be. *)
Definition reaches_status {F} (float : string → option F) (outlet : Element) : Prop :=
  (∀ l, l ∈ ["name"; "num"; "url"] → is_Some (attrib outlet !! l))
  ∧ (∀ a, a ∈ ["amps"; "kwatthrs"; "watts"] →
       ∃ s, attrib outlet !! a = Some s ∧ is_Some (float s)).

(** A document in which nothing fails before an outlet is processed:
    the devices before its device are well formed, the device has its
    [type] and [id] and well-formed children, and the outlets before it
    in the container [outlets] of the device are well formed. *)
Definition reaches_outlet {F} (float : string → option F)
    (devices device outlets outlet : Element) : Prop :=
  ∃ devices_before devices_after outlets_before outlets_after,
    children devices = devices_before ++ device :: devices_after
    ∧ Forall (well_formed_device float) devices_before
    ∧ is_Some (attrib device !! "type")
    ∧ is_Some (attrib device !! "id")
    ∧ Forall (well_formed_child float) (children device)
    ∧ children outlets = outlets_before ++ outlet :: outlets_after
    ∧ Forall (well_formed_outlet float) outlets_before.

(** A device that cannot set the gauge of the field [key] for the label
    values [k]: it has another [id] or [type], or it is skipped for its
    missing or empty [outlets], or none of its children is a [field]
    with that key. *)
Definition leaves_field (key : string) (k : list string) (device : Element) : Prop :=
  (∀ i t, attrib device !! "id" = Some i → attrib device !! "type" = Some t → [i; t] ≠ k)
  ∨ truthy (find device "outlets") = false
  ∨ Forall (λ c, tag c = "field" → attrib c !! "key" ≠ Some key) (children device).


(** ** What a cycle can and cannot change *)

(** The result of a computation that does not use the state. *)
Definition eval {A} (m : M unit A) : Result A := (m tt).2.

Section Observations.

Context {F : Type}.

(** Everything [__init__] fixes about the instruments: names, help
    texts, label names, the states of the enum, and which dict entry
    holds which instrument. *)
Definition gauge_decl (g : Gauge (F:=F)) : string * string * list string :=
  (gauge_name g, gauge_documentation g, gauge_labelnames g).

Definition enum_decl (m : Enum) : string * string * list string * list string :=
  (enum_name m, enum_documentation m, enum_labelnames m, enum_states m).

Definition items_decl (items : list (string * Gauge (F:=F)))
    : list (string * (string * string * list string)) :=
  prod_map id gauge_decl <$> items.

Record Declaration : Type := mkDeclaration {
  decl_device_labels : list string;
  decl_outlet_labels : list string;
  decl_device_metrics : gmap string (string * string * list string);
  decl_outlet_metrics : list (string * (string * string * list string));
  decl_outlet_status : string * string * list string * list string;
}.

Definition declaration (self : Exporter (F:=F)) : Declaration :=
  {| decl_device_labels := device_labels self;
     decl_outlet_labels := outlet_labels self;
     decl_device_metrics := gauge_decl <$> device_metrics self;
     decl_outlet_metrics := items_decl (outlet_metrics self);
     decl_outlet_status := enum_decl (outlet_status self) |}.

(** The instruments with all their children. *)
Definition instruments (self : Exporter (F:=F))
    : gmap string Gauge * list (string * Gauge) * Enum :=
  (device_metrics self, outlet_metrics self, outlet_status self).

(** The exporter after the logger has emitted some more records. *)
Definition logged (records : list LogRecord) (self : Exporter (F:=F)) : Exporter :=
  mkExporter (device_labels self) (outlet_labels self) (device_metrics self)
             (outlet_metrics self) (outlet_status self) (logger self ++ records).

(** The names of the instruments a scrape would show. *)
Definition instrument_names (self : Exporter (F:=F)) : gset string :=
  list_to_set ((gauge_name ∘ snd <$> map_to_list (device_metrics self))
               ++ (gauge_name ∘ snd <$> outlet_metrics self)
               ++ [enum_name (outlet_status self)]).

(** The warnings among the log records. *)
Definition warnings (self : Exporter (F:=F)) : list string :=
  snd <$> filter (λ r, r.1 = WARNING) (logger self).

(** One time series: an instrument and a tuple of label values. *)
Inductive Series : Type :=
  | DeviceMetric (key : string) (labelvalues : list string)
  | OutletMetric (position : nat) (labelvalues : list string)
  | OutletStatus (labelvalues : list string).

(** The current sample of a time series: a float for a gauge, the index
    of the state for the enum; [None] when the child does not exist. *)
Definition sample (self : Exporter (F:=F)) (l : Series) : option (F + nat) :=
  match l with
  | DeviceMetric key k =>
      device_metrics self !! key ≫= λ g, inl <$> gauge_metrics g !! k
  | OutletMetric i k =>
      outlet_metrics self !! i ≫= λ p, inl <$> gauge_metrics p.2 !! k
  | OutletStatus k => inr <$> enum_metrics (outlet_status self) !! k
  end.

Definition initial (fzero : F) (l : Series) : F + nat :=
  match l with
  | OutletStatus _ => inr 0
  | _ => inl fzero
  end.

End Observations.

(** The label values of the device in the label values of a time
    series: all of them for a device gauge, those after [name], [num] and
    [url] for an outlet instrument. *)
Definition series_device (l : Series) : list string :=
  match l with
  | DeviceMetric _ k => k
  | OutletMetric _ k | OutletStatus k => drop 3 k
  end.

(** The effect of a run on one time series: nothing, the creation of the
    child when it is missing, or a write. *)
Inductive Effect (V : Type) : Type :=
  | Keep
  | Create
  | Write (v : V).
Arguments Keep {V}.
Arguments Create {V}.
Arguments Write {V} v.

Definition apply_effect {V} (d : V) (e : Effect V) (o : option V) : option V :=
  match e with
  | Keep => o
  | Create => Some (default d o)
  | Write v => Some v
  end.

Definition then_effect {V} (e1 e2 : Effect V) : Effect V :=
  match e2 with
  | Keep => e1
  | Create => match e1 with Keep => Create | _ => e1 end
  | Write v => Write v
  end.

Definition effect_map {V W} (f : V → W) (e : Effect V) : Effect W :=
  match e with
  | Keep => Keep
  | Create => Create
  | Write v => Write (f v)
  end.

(** A computation is uniform when its result and its effect on every time
    series are the same from every state with the given shape, and it
    keeps the shape. *)
Definition Uniform {S Sh L V A} (shape : S → Sh) (view : S → L → option V)
    (dflt : L → V) (sh : Sh) (m : M S A) : Prop :=
  ∃ (E : L → Effect V) (r : Result A), ∀ s, shape s = sh →
    shape (m s).1 = sh ∧ (m s).2 = r ∧
    ∀ l, view (m s).1 l = apply_effect (dflt l) (E l) (view s l).

(** ** Sample instances of the library parameters

    Small stand-ins for [float] and [ET.fromstring], used to run the
    exporter on concrete documents.  Both accept a subset of what the
    Python functions accept and agree with them on it. *)

Module Sample.

Definition is_digit (c : ascii) : bool :=
  let n := Ascii.nat_of_ascii c in (48 <=? n)%nat && (n <=? 57)%nat.

Definition is_space (c : ascii) : bool :=
  bool_decide (c ∈ [" "%char; "010"%char; "013"%char; "009"%char]).

Definition digit_value (c : ascii) : Z := Z.of_nat (Ascii.nat_of_ascii c) - 48.

Definition digits_value (ds : list ascii) : Z :=
  foldl (λ acc c, 10 * acc + digit_value c)%Z 0%Z ds.

(** The longest prefix whose characters satisfy [p], and the rest. *)
Fixpoint span (p : ascii → bool) (s : list ascii) : list ascii * list ascii :=
  match s with
  | c :: s' => if p c then let '(a, b) := span p s' in (c :: a, b) else ([], s)
  | [] => ([], [])
  end.

Definition float_of_Z (z : Z) : PrimFloat.float :=
  PrimFloat.of_uint63 (Uint63.of_Z z).

(** Numerals [-]ddd[.ddd] whose digits read as a number below 2^53, with
    at most 18 digits after the point: the mantissa and the power of ten
    are exact floats (and fit a 63-bit integer), so one correctly rounded
    division gives the nearest float, as [float] does. *)
Definition float (s : string) : option PrimFloat.float :=
  let cs := String.list_ascii_of_string s in
  let '(negative, cs) :=
    match cs with
    | "-"%char :: cs' => (true, cs')
    | _ => (false, cs)
    end in
  let '(int_part, rest) := span is_digit cs in
  let '(frac_part, rest) :=
    match rest with
    | "."%char :: rest' => span is_digit rest'
    | _ => ([], rest)
    end in
  let mantissa := digits_value (int_part ++ frac_part) in
  if bool_decide (rest = [] ∧ int_part ++ frac_part ≠ []
                  ∧ (mantissa < 2 ^ 53)%Z ∧ (List.length frac_part ≤ 18)%nat)
  then
    let q := PrimFloat.div (float_of_Z mantissa)
                           (float_of_Z (10 ^ Z.of_nat (List.length frac_part))) in
    Some (if negative then PrimFloat.opp q else q)
  else None.

Definition fzero : PrimFloat.float := PrimFloat.zero.


Definition is_letter (c : ascii) : bool :=
  let n := Ascii.nat_of_ascii c in
  ((65 <=? n)%nat && (n <=? 90)%nat) || ((97 <=? n)%nat && (n <=? 122)%nat).

Definition is_name_char (c : ascii) : bool :=
  is_letter c || is_digit c || bool_decide (c ∈ ["_"%char; "-"%char; "."%char]).

(** Names start with a letter or an underscore; the names that begin
    with [xml] have a meaning of their own and are left out. *)
Definition valid_name (name : list ascii) : bool :=
  match name with
  | c :: _ =>
      (is_letter c || bool_decide (c = "_"%char))
      && negb (bool_decide
                 (String.string_of_list_ascii (take 3 name)
                  ∈ ["xml"; "xmL"; "xMl"; "xML"; "Xml"; "XmL"; "XMl"; "XML"]))
  | [] => false
  end.

(** The characters of an attribute value: printable, and none of the
    closing quote, [<] and [&]. *)
Definition is_value_char (q c : ascii) : bool :=
  let n := Ascii.nat_of_ascii c in
  (32 <=? n)%nat && (n <=? 126)%nat
  && negb (bool_decide (c ∈ [q; "<"%char; "&"%char])).

Definition is_quote (c : ascii) : bool :=
  bool_decide (c ∈ ["'"%char; "034"%char]).

Definition skip_space (s : list ascii) : list ascii := (span is_space s).2.

(** Attributes: [ name='value'], each after white space, no name twice,
    no markup or entity in a value. *)
Fixpoint parse_attributes (fuel : nat) (s : list ascii)
    : option (gmap string string * list ascii) :=
  match fuel with
  | 0 => None
  | S fuel =>
      match s with
      | c :: _ =>
          if is_space c then
            match skip_space s with
            | (c' :: _) as s1 =>
                if is_name_char c' then
                  let '(name, s2) := span is_name_char s1 in
                  match skip_space s2 with
                  | "="%char :: s3 =>
                      match skip_space s3 with
                      | q :: s4 =>
                          if is_quote q then
                            let '(value, s5) := span (is_value_char q) s4 in
                            match s5 with
                            | q' :: s6 =>
                                if bool_decide (q' = q) && valid_name name then
                                  '(attrs, s7) ← parse_attributes fuel s6;
                                  let key := String.string_of_list_ascii name in
                                  match attrs !! key with
                                  | Some _ => None
                                  | None =>
                                      Some (<[key := String.string_of_list_ascii value]> attrs,
                                            s7)
                                  end
                                else None
                            | [] => None
                            end
                          else None
                      | [] => None
                      end
                  | _ => None
                  end
                else Some (∅, s1)
            | [] => Some (∅, [])
            end
          else Some (∅, s)
      | [] => Some (∅, [])
      end
  end.

(** Elements: [<name attributes/>] or [<name attributes>content</name>],
    where the content is elements and white space. *)
Fixpoint parse_element (fuel : nat) (s : list ascii) : option (Element * list ascii) :=
  match fuel with
  | 0 => None
  | S fuel =>
      match s with
      | "<"%char :: s1 =>
          let '(name, s2) := span is_name_char s1 in
          if negb (valid_name name) then None
          else
            '(attrs, s3) ← parse_attributes (S (List.length s2)) s2;
            match skip_space s3 with
            | "/"%char :: ">"%char :: s4 =>
                Some (Elem (String.string_of_list_ascii name) attrs [], s4)
            | ">"%char :: s4 =>
                '(content, s5) ← parse_content fuel s4;
                match s5 with
                | "<"%char :: "/"%char :: s6 =>
                    let '(name', s7) := span is_name_char s6 in
                    match skip_space s7 with
                    | ">"%char :: s8 =>
                        if bool_decide (name' = name)
                        then Some (Elem (String.string_of_list_ascii name) attrs content, s8)
                        else None
                    | _ => None
                    end
                | _ => None
                end
            | _ => None
            end
      | _ => None
      end
  end
with parse_content (fuel : nat) (s : list ascii) : option (list Element * list ascii) :=
  match fuel with
  | 0 => None
  | S fuel =>
      match skip_space s with
      | ("<"%char :: "/"%char :: _) as s1 => Some ([], s1)
      | ("<"%char :: _) as s1 =>
          '(e, s2) ← parse_element fuel s1;
          '(es, s3) ← parse_content fuel s2;
          Some (e :: es, s3)
      | _ => None
      end
  end.

Definition fromstring (text : string) : option Element :=
  let s := String.list_ascii_of_string text in
  '(root, rest) ← parse_element (S (List.length s)) (skip_space s);
  if bool_decide (skip_space rest = []) then Some root else None.

End Sample.

(** ** Example documents *)

Module Examples.

(** One cycle and a run of the loop with the sample readers, from the
    freshly constructed exporter. *)
Definition cycle (outcome : GetOutcome) : Exporter * Result unit :=
  process Sample.fzero Sample.float Sample.fromstring outcome init.

Definition loop (cycles : list Cycle) : Exporter * Result unit :=
  start_export_loop Sample.fzero Sample.float Sample.fromstring cycles init.

Definition run_outlet (outlet : Element) (device_labels : gmap string string)
    : Exporter * Result unit :=
  process_outlet Sample.fzero Sample.float outlet device_labels init.

Definition element (name : string) (attributes : list (string * string))
    (content : list Element) : Element :=
  Elem name (list_to_map attributes) content.

(** A body that stops in the middle. *)
Definition truncated : string := "<root><devices>".

(** Devices without an [outlets] container, or with an empty one. *)
Definition volts_without_outlets : string :=
  "<root><devices>
     <device id='7' type='pdu'><field key='Volts-A' value='230'/></device>
   </devices></root>".

Definition realpower_without_outlets : string :=
  "<root><devices>
     <device id='1' type='pdu'><field key='RealPower-A' value='123.4'/></device>
   </devices></root>".

Definition amps_field : Element :=
  element "field" [("key", "Amps-A"); ("value", "1.5")] [].

Definition device_with_empty_outlets : Element :=
  element "device" [("id", "1"); ("type", "pdu")] [amps_field; element "outlets" [] []].

Definition device_without_outlets : Element :=
  element "device" [("id", "1"); ("type", "pdu")] [amps_field].

Definition unknown_field : Element :=
  element "field" [("key", "Foo-Bar"); ("value", "1")] [].

(** A complete outlet, one without [watts], one with an unknown status. *)
Definition outlet_b : Element :=
  element "outlet"
    [("name", "b"); ("num", "2"); ("url", "u2");
     ("amps", "0.5"); ("kwatthrs", "7"); ("watts", "60"); ("status", "Off")] [].

Definition outlet_without_watts : Element :=
  element "outlet"
    [("name", "a"); ("num", "1"); ("url", "u1");
     ("amps", "1.5"); ("kwatthrs", "2"); ("status", "On")] [].

Definition outlet_on_standby : Element :=
  element "outlet"
    [("name", "a"); ("num", "1"); ("url", "u1");
     ("amps", "1.5"); ("kwatthrs", "2"); ("watts", "3"); ("status", "Standby")] [].

Definition document (device : Element) : Element :=
  element "root" [] [element "devices" [] [device]].

Definition device_of (content : list Element) : Element :=
  element "device" [("id", "1"); ("type", "pdu")] content.

Definition missing_watts : string :=
  "<root><devices><device id='1' type='pdu'><outlets>
     <outlet name='a' num='1' url='u1' amps='1.5' kwatthrs='2' status='On'/>
     <outlet name='b' num='2' url='u2' amps='0.5' kwatthrs='7' watts='60' status='Off'/>
   </outlets></device></devices></root>".

Definition missing_watts_device : Element :=
  device_of [element "outlets" [] [outlet_without_watts; outlet_b]].

Definition standby : string :=
  "<root><devices><device id='1' type='pdu'><outlets>
     <outlet name='a' num='1' url='u1' amps='1.5' kwatthrs='2' watts='3' status='Standby'/>
     <outlet name='b' num='2' url='u2' amps='0.5' kwatthrs='7' watts='60' status='Off'/>
   </outlets></device></devices></root>".

Definition standby_device : Element :=
  device_of [element "outlets" [] [outlet_on_standby; outlet_b]].

(** The device of the round trip, with its outlets. *)
Definition realpower : string :=
  "<root><devices><device id='1' type='pdu'>
     <field key='Volts-A' value='230.1'/>
     <field key='Foo-Bar'/>
     <field key='RealPower-A' value='123.4'/>
     <field key='Amps-A' value='0.5'/>
     <outlets>
       <outlet name='b' num='2' url='u2' amps='0.5' kwatthrs='7' watts='60' status='Off'/>
     </outlets>
   </device></devices></root>".

Definition volts_field : Element :=
  element "field" [("key", "Volts-A"); ("value", "230.1")] [].

Definition unknown_field_without_value : Element := element "field" [("key", "Foo-Bar")] [].

Definition realpower_field : Element :=
  element "field" [("key", "RealPower-A"); ("value", "123.4")] [].

Definition one_outlet : Element := element "outlets" [] [outlet_b].

Definition realpower_device : Element :=
  device_of [volts_field; unknown_field_without_value; realpower_field;
             element "field" [("key", "Amps-A"); ("value", "0.5")] [];
             one_outlet].

(** A device label-set that also has a [name]. *)
Definition colliding_labels : gmap string string :=
  list_to_map [("name", "from-device"); ("id", "1"); ("type", "pdu")].

Definition plain_labels : gmap string string :=
  list_to_map [("id", "1"); ("type", "pdu")].

End Examples.

(** ** More documents *)

Module Polls.

Import Examples.

(** A body that parses and has no [devices]. *)
Definition no_devices : string := "<root><status/></root>".

Definition no_devices_root : Element := element "root" [] [element "status" [] []].

(** A second device, and the exporter after a cycle that brought it. *)
Definition second_device : string :=
  "<root><devices><device id='2' type='pdu'>
     <field key='Volts-A' value='229.5'/>
     <outlets>
       <outlet name='c' num='1' url='u3' amps='2' kwatthrs='9' watts='400' status='On'/>
     </outlets>
   </device></devices></root>".

Definition after_second_device : Exporter :=
  (cycle (Response second_device)).1.

Definition device_without_id : Element := element "device" [("type", "pdu")] [one_outlet].

Definition device_without_type : Element := element "device" [("id", "1")] [].

Definition field_not_a_number : Element :=
  element "field" [("key", "Volts-A"); ("value", "n/a")] [].

Definition device_with_two_volts : Element :=
  device_of [element "field" [("key", "Volts-A"); ("value", "229")] [];
             amps_field; volts_field; outlet_without_watts; one_outlet].

(** The same outlet as [outlet_b], switched on. *)
Definition outlet_b_on : Element :=
  element "outlet"
    [("name", "b"); ("num", "2"); ("url", "u2");
     ("amps", "0.75"); ("kwatthrs", "7"); ("watts", "90"); ("status", "On")] [].

(** A document with three devices: the second device, the device of
    the round trip, and a third with a [RealPower-A] of its own whose
    second outlet lacks [watts]. *)
Definition three_devices : string :=
  "<root><devices>
     <device id='2' type='pdu'>
       <field key='Volts-A' value='229.5'/>
       <outlets>
         <outlet name='c' num='1' url='u3' amps='2' kwatthrs='9' watts='400' status='On'/>
       </outlets>
     </device>
     <device id='1' type='pdu'>
       <field key='Volts-A' value='230.1'/>
       <field key='Foo-Bar'/>
       <field key='RealPower-A' value='123.4'/>
       <field key='Amps-A' value='0.5'/>
       <outlets>
         <outlet name='b' num='2' url='u2' amps='0.5' kwatthrs='7' watts='60' status='Off'/>
       </outlets>
     </device>
     <device id='3' type='pdu'>
       <field key='RealPower-A' value='9'/>
       <outlets>
         <outlet name='b' num='2' url='u2' amps='0.5' kwatthrs='7' watts='60' status='Off'/>
         <outlet name='a' num='1' url='u1' amps='1.5' kwatthrs='2' status='On'/>
       </outlets>
     </device>
   </devices></root>".

Definition outlet_c : Element :=
  element "outlet"
    [("name", "c"); ("num", "1"); ("url", "u3");
     ("amps", "2"); ("kwatthrs", "9"); ("watts", "400"); ("status", "On")] [].

Definition second_device_element : Element :=
  element "device" [("id", "2"); ("type", "pdu")]
    [element "field" [("key", "Volts-A"); ("value", "229.5")] [];
     element "outlets" [] [outlet_c]].

Definition two_outlets : Element := element "outlets" [] [outlet_b; outlet_without_watts].

Definition third_device : Element :=
  element "device" [("id", "3"); ("type", "pdu")]
    [element "field" [("key", "RealPower-A"); ("value", "9")] []; two_outlets].

Definition three_devices_container : Element :=
  element "devices" [] [second_device_element; realpower_device; third_device].

Definition three_devices_root : Element := element "root" [] [three_devices_container].

(** Two devices, the second with an outlet on standby after a sound
    one. *)
Definition standby_second : string :=
  "<root><devices>
     <device id='2' type='pdu'>
       <field key='Volts-A' value='229.5'/>
       <outlets>
         <outlet name='c' num='1' url='u3' amps='2' kwatthrs='9' watts='400' status='On'/>
       </outlets>
     </device>
     <device id='1' type='pdu'>
       <field key='Volts-A' value='230.1'/>
       <outlets>
         <outlet name='b' num='2' url='u2' amps='0.5' kwatthrs='7' watts='60' status='Off'/>
         <outlet name='a' num='1' url='u1' amps='1.5' kwatthrs='2' watts='3' status='Standby'/>
       </outlets>
     </device>
   </devices></root>".

Definition outlets_with_standby : Element :=
  element "outlets" [] [outlet_b; outlet_on_standby].

Definition device_with_standby : Element := device_of [volts_field; outlets_with_standby].

Definition standby_second_container : Element :=
  element "devices" [] [second_device_element; device_with_standby].

Definition standby_second_root : Element := element "root" [] [standby_second_container].

End Polls.

(** * Properties *)

(** ** The monad *)

Lemma bind_Ok {S A B} (m : M S A) (k : A → M S B) s s' a :
  m s = (s', Ok a) → bind m k s = k a s'.
Proof. intros H. unfold bind. by rewrite H. Qed.

Lemma bind_Raise {S A B} (m : M S A) (k : A → M S B) s s' e :
  m s = (s', Raise e) → bind m k s = (s', Raise e).
Proof. intros H. unfold bind. by rewrite H. Qed.

Lemma bind_fst_snd {S A B} (m : M S A) (k : A → M S B) s :
  bind m k s =
    match (m s).2 with
    | Ok a => k a (m s).1
    | Raise e => ((m s).1, Raise e)
    end.
Proof. unfold bind. by destruct (m s) as [s' [a|e]]. Qed.

Lemma bind_invariant {S A B} (I : S → Prop) (m : M S A) (k : A → M S B) s :
  I (m s).1 → (∀ a s', I s' → I (k a s').1) → I (bind m k s).1.
Proof.
  intros Hm Hk. rewrite bind_fst_snd. destruct (m s).2; simpl; auto.
Qed.

Lemma for_each_Raise {S A} (body : A → M S unit) x l s s' e :
  body x s = (s', Raise e) → for_each body (x :: l) s = (s', Raise e).
Proof. intros H. simpl. by apply bind_Raise. Qed.

Lemma for_each_app {S A} (body : A → M S unit) l1 l2 s :
  for_each body (l1 ++ l2) s = (for_each body l1 ;; for_each body l2) s.
Proof.
  revert s. induction l1 as [|x l1 IH]; intros s; simpl; [done|].
  rewrite (bind_fst_snd (body x)), (bind_fst_snd (bind _ _)), (bind_fst_snd (body x)).
  destruct (body x s).2 as [[]|e]; simpl; [|done].
  by rewrite IH, bind_fst_snd.
Qed.

Lemma for_each_invariant {S A} (I : S → Prop) (body : A → M S unit) l s :
  (∀ x s', I s' → I (body x s').1) → I s → I (for_each body l s).1.
Proof.
  intros Hbody. revert s. induction l as [|x l IH]; intros s Hs; simpl; [done|].
  apply bind_invariant; auto.
Qed.

Lemma for_each_invariant_Forall {S A} (I : S → Prop) (body : A → M S unit) l s :
  Forall (λ x, ∀ s', I s' → I (body x s').1) l → I s → I (for_each body l s).1.
Proof.
  intros Hl. revert s. induction Hl as [|x l Hx Hl IH]; intros s Hs; simpl; [done|].
  apply bind_invariant; auto.
Qed.

Lemma for_each_Ok {S A} (I : S → Prop) (body : A → M S unit) l s :
  Forall (λ x, ∀ s', I s' → I (body x s').1 ∧ (body x s').2 = Ok tt) l →
  I s →
  I (for_each body l s).1 ∧ (for_each body l s).2 = Ok tt.
Proof.
  intros Hl. revert s. induction Hl as [|x l Hx Hl IH]; intros s Hs; simpl; [done|].
  rewrite bind_fst_snd. destruct (Hx s Hs) as [HI ->]. by apply IH.
Qed.

Lemma bind_ret_fst {S A} (m : M S A) s :
  (bind m (λ _, ret tt) s).1 = (m s).1.
Proof. rewrite bind_fst_snd. by destruct (m s).2. Qed.

(** A loop whose body raises at one of the elements raises: at that
    element, or at an earlier one. *)
Lemma for_each_raises {S A} (I : S → Prop) (body : A → M S unit) l x s :
  (∀ y s', I s' → I (body y s').1) →
  x ∈ l →
  (∀ s', I s' → ∃ e, (body x s').2 = Raise e) →
  I s →
  ∃ e, (for_each body l s).2 = Raise e.
Proof.
  intros Hinv Hx Hraise. revert s.
  induction l as [|y l IH]; intros s Hs; [by apply elem_of_nil in Hx|].
  simpl. rewrite bind_fst_snd.
  destruct (body y s).2 as [[]|e] eqn:Hy; [|by eexists].
  apply elem_of_cons in Hx as [->|Hx].
  - destruct (Hraise s Hs) as [e He]. congruence.
  - apply IH; [done|]. apply Hinv, Hs.
Qed.

(** ** Effects on a time series *)

Lemma apply_then_effect {V} (d : V) e1 e2 o :
  apply_effect d (then_effect e1 e2) o = apply_effect d e2 (apply_effect d e1 o).
Proof. by destruct e1, e2, o. Qed.

Lemma apply_effect_idem {V} (d : V) e o :
  apply_effect d e (apply_effect d e o) = apply_effect d e o.
Proof. by destruct e, o. Qed.

Section UniformLemmas.

Context {S Sh L V : Type}.
Variable shape : S → Sh.
Variable view : S → L → option V.
Variable dflt : L → V.
Variable sh : Sh.

Local Abbreviation Uniform' := (Uniform shape view dflt sh).

Lemma Uniform_pure {A} (m : M S A) r : (∀ s, m s = (s, r)) → Uniform' m.
Proof.
  intros Hm. exists (λ _, Keep), r. intros s Hs. rewrite Hm. by simpl.
Qed.

(** Logging and the like: the shape and every time series stay. *)
Lemma Uniform_silent {A} (m : M S A) r :
  (∀ s, shape (m s).1 = shape s ∧ (m s).2 = r ∧ ∀ l, view (m s).1 l = view s l) →
  Uniform' m.
Proof.
  intros Hm. exists (λ _, Keep), r. intros s Hs.
  destruct (Hm s) as (Hsh & Hr & Hview). split_and!; [congruence|done|done].
Qed.

Lemma Uniform_ret {A} (a : A) : Uniform' (ret a).
Proof. by apply Uniform_pure with (r := Ok a). Qed.

Lemma Uniform_raise {A} e : Uniform' (raise (A:=A) e).
Proof. by apply Uniform_pure with (r := Raise e). Qed.

Lemma Uniform_gets {A} (f : S → A) c :
  (∀ s, shape s = sh → f s = c) → Uniform' (gets f).
Proof.
  intros Hf. exists (λ _, Keep), (Ok c). intros s Hs.
  unfold gets. simpl. by rewrite (Hf s Hs).
Qed.

Lemma Uniform_bind {A B} (m : M S A) (k : A → M S B) :
  Uniform' m → (∀ a, Uniform' (k a)) → Uniform' (bind m k).
Proof.
  intros (E1 & [a|e] & Hm) Hk.
  - destruct (Hk a) as (E2 & r & Hka).
    exists (λ l, then_effect (E1 l) (E2 l)), r. intros s Hs.
    destruct (Hm s Hs) as (Hsh & Hr & Hview).
    rewrite bind_fst_snd, Hr.
    destruct (Hka _ Hsh) as (Hsh' & Hr' & Hview').
    split_and!; [done..|]. intros l.
    by rewrite Hview', Hview, apply_then_effect.
  - exists E1, (Raise e). intros s Hs.
    destruct (Hm s Hs) as (Hsh & Hr & Hview).
    by rewrite bind_fst_snd, Hr.
Qed.

Lemma Uniform_for_each {A} (body : A → M S unit) l :
  (∀ x, Uniform' (body x)) → Uniform' (for_each body l).
Proof.
  intros Hbody. induction l as [|x l IH]; simpl.
  - apply Uniform_ret.
  - apply Uniform_bind; [apply Hbody | by intros _].
Qed.

Lemma Uniform_shape {A} (m : M S A) s :
  Uniform' m → shape s = sh → shape (m s).1 = sh.
Proof. intros (E & r & Hm) Hs. by destruct (Hm s Hs). Qed.

(** Running a uniform computation a second time changes nothing. *)
Lemma Uniform_twice {A} (m : M S A) s :
  Uniform' m → shape s = sh →
  (m (m s).1).2 = (m s).2 ∧ ∀ l, view (m (m s).1).1 l = view (m s).1 l.
Proof.
  intros (E & r & Hm) Hs.
  destruct (Hm s Hs) as (Hsh & Hr & Hview).
  destruct (Hm _ Hsh) as (_ & Hr' & Hview').
  split; [congruence|]. intros l.
  by rewrite Hview', Hview, apply_effect_idem.
Qed.

End UniformLemmas.

(** ** Computations that do not touch the state *)

Lemma getitem_run {S} d k (s : S) :
  getitem d k s = (s, match d !! k with Some v => Ok v | None => Raise (KeyError k) end).
Proof. unfold getitem. by destruct (d !! k). Qed.

Lemma values_of_run {S} kw labelnames (s : S) :
  values_of kw labelnames s = (s, eval (values_of kw labelnames)).
Proof.
  unfold eval. induction labelnames as [|l rest IH]; simpl; [done|].
  rewrite !(bind_fst_snd (getitem _ _)), !getitem_run. simpl.
  destruct (kw !! l); [|done].
  rewrite !(bind_fst_snd (values_of _ _)), IH. simpl.
  by destruct (values_of kw rest tt).2.
Qed.

Lemma labelvalues_run {S} labelnames kw (s : S) :
  labelvalues labelnames kw s = (s, eval (labelvalues labelnames kw)).
Proof.
  unfold eval, labelvalues. repeat case_bool_decide; try done.
  apply values_of_run.
Qed.

Lemma dict_of_labels_run {S} d names (s : S) :
  dict_of_labels d names s = (s, eval (dict_of_labels d names)).
Proof.
  unfold eval. induction names as [|l rest IH]; simpl; [done|].
  rewrite !(bind_fst_snd (getitem _ _)), !getitem_run. simpl.
  destruct (d !! l); [|done].
  rewrite !(bind_fst_snd (dict_of_labels _ _)), IH. simpl.
  by destruct (dict_of_labels d rest tt).2.
Qed.

Lemma to_float_run {F S} (float : string → option F) str (s : S) :
  to_float float str s =
    (s, match float str with
        | Some v => Ok v
        | None => Raise (ValueError (CouldNotConvertToFloat str))
        end).
Proof. unfold to_float. by destruct (float str). Qed.

(** ** Gauges and enums, one instrument at a time *)

Lemma lookup_ensure {V} (d : V) (k k' : list string) (m : gmap (list string) V) :
  ensure d k m !! k' =
    apply_effect d (if decide (k' = k) then Create else Keep) (m !! k').
Proof.
  unfold ensure. case_decide as Hk; simplify_eq/=.
  - destruct (m !! k) eqn:Hm; simpl; [done|]. by rewrite lookup_insert_eq.
  - destruct (m !! k) eqn:Hm; simpl; [done|]. by rewrite lookup_insert_ne.
Qed.

Lemma lookup_write {V} (d v : V) (k k' : list string) (m : gmap (list string) V) :
  <[k := v]> m !! k' =
    apply_effect d (if decide (k' = k) then Write v else Keep) (m !! k').
Proof.
  case_decide as Hk; simplify_eq/=.
  - by rewrite lookup_insert_eq.
  - by rewrite lookup_insert_ne.
Qed.

Section Instruments.

Context {F : Type}.
Variable fzero : F.
Variable float : string → option F.

Local Abbreviation UniformG :=
  (Uniform (gauge_decl (F:=F)) (λ g k, gauge_metrics g !! k) (λ _, fzero)).
Local Abbreviation UniformE :=
  (Uniform enum_decl (λ m k, enum_metrics m !! k) (λ _, 0)).

Lemma Uniform_Gauge_labels gd kw : UniformG gd (Gauge_labels fzero kw).
Proof.
  unfold Gauge_labels. apply Uniform_bind.
  { apply Uniform_gets with (c := gd.2). by intros g <-. }
  intros labelnames. apply Uniform_bind.
  { eapply Uniform_pure, labelvalues_run. }
  intros k. exists (λ k', if decide (k' = k) then Create else Keep), (Ok k).
  intros g Hg. simpl. split_and!; [done..|]. intros k'. apply lookup_ensure.
Qed.

Lemma Uniform_Gauge_set gd k v : UniformG gd (Gauge_set k v).
Proof.
  exists (λ k', if decide (k' = k) then Write v else Keep), (Ok tt).
  intros g Hg. simpl. split_and!; [done..|]. intros k'. apply lookup_write.
Qed.

Lemma Uniform_labels_set_float gd kw d key :
  UniformG gd (labels_set_float fzero float kw d key).
Proof.
  unfold labels_set_float. apply Uniform_bind; [apply Uniform_Gauge_labels|].
  intros k. apply Uniform_bind; [eapply Uniform_pure, getitem_run|].
  intros s. apply Uniform_bind; [eapply Uniform_pure, to_float_run|].
  intros v. apply Uniform_Gauge_set.
Qed.

Lemma Uniform_Enum_labels ed kw : UniformE ed (Enum_labels kw).
Proof.
  unfold Enum_labels. apply Uniform_bind.
  { apply Uniform_gets with (c := ed.1.2). by intros m <-. }
  intros labelnames. apply Uniform_bind.
  { eapply Uniform_pure, labelvalues_run. }
  intros k. exists (λ k', if decide (k' = k) then Create else Keep), (Ok k).
  intros m Hm. simpl. split_and!; [done..|]. intros k'. apply lookup_ensure.
Qed.

Lemma Uniform_Enum_state ed k s : UniformE ed (Enum_state k s).
Proof.
  unfold Enum_state. apply Uniform_bind.
  { apply Uniform_gets with (c := ed.2). by intros m <-. }
  intros states. destruct (list_find _ states) as [[i x]|].
  - exists (λ k', if decide (k' = k) then Write i else Keep), (Ok tt).
    intros m Hm. simpl. split_and!; [done..|]. intros k'. apply lookup_write.
  - apply Uniform_raise.
Qed.

End Instruments.

(** ** The exporter: every method is uniform *)

Lemma apply_effect_map {V W} (f : V → W) d e o :
  apply_effect (f d) (effect_map f e) (f <$> o) = f <$> apply_effect d e o.
Proof. by destruct e, o. Qed.

Section ExporterUniform.

Context {F : Type}.
Variable fzero : F.
Variable float : string → option F.
Variable fromstring : string → option Element.

Local Abbreviation UniformG :=
  (Uniform (gauge_decl (F:=F)) (λ g k, gauge_metrics g !! k) (λ _, fzero)).
Local Abbreviation UniformE :=
  (Uniform enum_decl (λ m k, enum_metrics m !! k) (λ _, 0)).
Local Abbreviation UniformX :=
  (Uniform (declaration (F:=F)) sample (initial fzero)).

Lemma Uniform_log sh level msg : UniformX sh (log level msg).
Proof. apply Uniform_silent with (r := Ok tt). intros self. split_and!; [done..|]. by intros []. Qed.

Lemma Uniform_with_device_metric sh key body :
  (∀ gd, UniformG gd body) → UniformX sh (with_device_metric key body).
Proof.
  intros Hbody. destruct (decl_device_metrics sh !! key) as [gd|] eqn:Hkey.
  - destruct (Hbody gd) as (Eg & r & Hg).
    exists (λ l, match l with
                 | DeviceMetric key' k =>
                     if decide (key' = key) then effect_map inl (Eg k) else Keep
                 | _ => Keep
                 end), r.
    intros self <-. simpl in Hkey. rewrite lookup_fmap in Hkey.
    unfold with_device_metric.
    destruct (device_metrics self !! key) as [g|] eqn:Hself; simplify_eq/=.
    destruct (Hg g eq_refl) as (Hdecl & Hr & Hview).
    destruct (body g) as [g' r'] eqn:Hb. simpl in *. subst r'.
    split_and!; [|done|].
    + unfold declaration. simpl. f_equal.
      rewrite fmap_insert, Hdecl. apply insert_id. by rewrite lookup_fmap, Hself.
    + intros [key' k|i k|k]; simpl; [|done..].
      case_decide as Hk; simplify_eq/=.
      * rewrite lookup_insert_eq, Hself. simpl.
        by rewrite Hview, apply_effect_map.
      * by rewrite lookup_insert_ne.
  - exists (λ _, Keep), (Ok tt). intros self <-.
    simpl in Hkey. rewrite lookup_fmap in Hkey. unfold with_device_metric.
    by destruct (device_metrics self !! key).
Qed.

Local Abbreviation UniformI :=
  (Uniform (items_decl (F:=F))
           (λ items l, items !! l.1 ≫= λ p, gauge_metrics p.2 !! l.2) (λ _, fzero)).

Lemma Uniform_for_items sh body :
  (∀ attr gd, UniformG gd (body attr)) → UniformI sh (for_items body).
Proof.
  intros Hbody. induction sh as [|[attr gd] sh IH].
  - exists (λ _, Keep), (Ok tt). by intros [|[]] Hs.
  - destruct IH as (E' & r' & IH). destruct (Hbody attr gd) as (Eg & rg & Hg).
    exists (λ l, match l.1 with
                 | 0 => Eg l.2
                 | S j => match rg with Ok _ => E' (j, l.2) | Raise _ => Keep end
                 end),
           (match rg with Ok _ => r' | Raise e => Raise e end).
    intros [|[attr' g] rest] Hs; simplify_eq/=.
    destruct (Hg g eq_refl) as (Hdecl & Hr & Hview).
    destruct (body attr g) as [g' rg'] eqn:Hb. simpl in *. subst rg'.
    destruct rg as [[]|e].
    + destruct (IH rest eq_refl) as (Hdecl' & Hr' & Hview').
      destruct (for_items body rest) as [rest' rr] eqn:Hrest. simpl in *.
      split_and!; [by rewrite Hdecl, Hdecl'|done|].
      intros [[|j] k]; simpl; [apply Hview|apply (Hview' (j, k))].
    + simpl. split_and!; [by rewrite Hdecl|done|].
      intros [[|j] k]; simpl; [apply Hview|done].
Qed.

Lemma Uniform_with_outlet_metrics sh m :
  (∀ ish, UniformI ish m) → UniformX sh (with_outlet_metrics m).
Proof.
  intros Hm. destruct (Hm (decl_outlet_metrics sh)) as (Ei & r & Hi).
  exists (λ l, match l with
               | OutletMetric i k => effect_map inl (Ei (i, k))
               | _ => Keep
               end), r.
  intros self <-. unfold with_outlet_metrics.
  destruct (Hi (outlet_metrics self) eq_refl) as (Hdecl & Hr & Hview).
  destruct (m (outlet_metrics self)) as [items r'] eqn:Hitems. simpl in *. subst r'.
  split_and!; [|done|].
  - unfold declaration. simpl. by f_equal.
  - intros [key k|i k|k]; simpl; [done| |done].
    transitivity (inl (B:=nat) <$> (items !! i ≫= λ p, gauge_metrics p.2 !! k));
      [by destruct (items !! i)|].
    pose proof (Hview (i, k)) as Hik. simpl in Hik. rewrite Hik.
    rewrite <- apply_effect_map. by destruct (outlet_metrics self !! i).
Qed.

Lemma Uniform_with_outlet_status sh m :
  (∀ ed, UniformE ed m) → UniformX sh (with_outlet_status m).
Proof.
  intros Hm. destruct (Hm (decl_outlet_status sh)) as (Ee & r & He).
  exists (λ l, match l with
               | OutletStatus k => effect_map inr (Ee k)
               | _ => Keep
               end), r.
  intros self <-. unfold with_outlet_status.
  destruct (He (outlet_status self) eq_refl) as (Hdecl & Hr & Hview).
  destruct (m (outlet_status self)) as [status r'] eqn:Hstatus. simpl in *. subst r'.
  split_and!; [|done|].
  - unfold declaration. simpl. by f_equal.
  - intros [key k|i k|k]; simpl; [done..|].
    by rewrite Hview, apply_effect_map.
Qed.

Lemma Uniform_process_outlet sh outlet dl :
  UniformX sh (process_outlet fzero float outlet dl).
Proof.
  unfold process_outlet.
  apply Uniform_bind; [eapply Uniform_pure, getitem_run|]. intros num.
  apply Uniform_bind; [apply Uniform_log|]. intros _.
  apply Uniform_bind.
  { apply Uniform_gets with (c := decl_outlet_labels sh). by intros self <-. }
  intros names.
  apply Uniform_bind; [eapply Uniform_pure, dict_of_labels_run|]. intros ol.
  apply Uniform_bind.
  { apply Uniform_with_outlet_metrics. intros ish. apply Uniform_for_items.
    intros attr gd. apply Uniform_labels_set_float. }
  intros _. apply Uniform_with_outlet_status. intros ed.
  apply Uniform_bind; [apply Uniform_Enum_labels|]. intros k.
  apply Uniform_bind; [eapply Uniform_pure, getitem_run|]. intros status.
  apply Uniform_Enum_state.
Qed.

Lemma Uniform_process_child sh child dl :
  UniformX sh (process_child fzero float child dl).
Proof.
  unfold process_child. case_bool_decide; [|apply Uniform_ret].
  apply Uniform_bind; [eapply Uniform_pure, getitem_run|]. intros key.
  apply Uniform_with_device_metric. intros gd. apply Uniform_labels_set_float.
Qed.

Lemma Uniform_process_device sh device :
  UniformX sh (process_device fzero float device).
Proof.
  unfold process_device.
  apply Uniform_bind; [eapply Uniform_pure, getitem_run|]. intros type.
  apply Uniform_bind; [apply Uniform_log|]. intros _.
  destruct (negb _); [apply Uniform_ret|].
  apply Uniform_bind.
  { apply Uniform_gets with (c := decl_device_labels sh). by intros self <-. }
  intros names.
  apply Uniform_bind; [eapply Uniform_pure, dict_of_labels_run|]. intros dl.
  apply Uniform_bind.
  { apply Uniform_for_each. intros child. apply Uniform_process_child. }
  intros _. apply Uniform_for_each. intros outlet. apply Uniform_process_outlet.
Qed.

Lemma Uniform_fetch sh outcome : UniformX sh (fetch fromstring outcome).
Proof.
  unfold fetch. apply Uniform_bind.
  { destruct outcome; [apply Uniform_ret| |apply Uniform_raise].
    apply Uniform_bind; [apply Uniform_log|]. intros _. apply Uniform_ret. }
  intros resp. apply Uniform_bind.
  { destruct resp; [apply Uniform_ret|apply Uniform_raise]. }
  intros text. destruct (fromstring text); [apply Uniform_ret|apply Uniform_raise].
Qed.

Lemma Uniform_process sh outcome :
  UniformX sh (process fzero float fromstring outcome).
Proof.
  unfold process.
  apply Uniform_bind; [apply Uniform_log|]. intros _.
  apply Uniform_bind; [apply Uniform_fetch|]. intros root.
  destruct (find root "devices"); [|apply Uniform_raise].
  apply Uniform_for_each. intros device. apply Uniform_process_device.
Qed.

End ExporterUniform.

(** ** The declared instruments never change *)

Section Declared.

Context {F : Type}.
Variable fzero : F.
Variable float : string → option F.
Variable fromstring : string → option Element.

Lemma declaration_log level msg (self : Exporter (F:=F)) :
  declaration (log level msg self).1 = declaration self.
Proof. done. Qed.

Lemma declaration_process_outlet outlet dl self :
  declaration (process_outlet fzero float outlet dl self).1 = declaration self.
Proof. by eapply Uniform_shape; [apply Uniform_process_outlet|]. Qed.

Lemma declaration_process_child child dl self :
  declaration (process_child fzero float child dl self).1 = declaration self.
Proof. by eapply Uniform_shape; [apply Uniform_process_child|]. Qed.

Lemma declaration_process_device device self :
  declaration (process_device fzero float device self).1 = declaration self.
Proof. by eapply Uniform_shape; [apply Uniform_process_device|]. Qed.

Lemma declaration_process outcome self :
  declaration (process fzero float fromstring outcome self).1 = declaration self.
Proof. by eapply Uniform_shape; [apply Uniform_process|]. Qed.

Lemma declaration_start_export_loop cycles self :
  declaration (start_export_loop fzero float fromstring cycles self).1
  = declaration self.
Proof.
  revert self. induction cycles as [|c rest IH]; intros self; simpl; [done|].
  apply (bind_invariant (λ s, declaration s = declaration self)).
  { apply declaration_process. }
  intros _ s1 Hs1.
  apply (bind_invariant (λ s, declaration s = declaration self)); [done|].
  intros _ s2 Hs2. by rewrite IH.
Qed.

Lemma instrument_names_declaration (a b : Exporter (F:=F)) :
  declaration a = declaration b → instrument_names a = instrument_names b.
Proof.
  intros H. injection H as _ _ Hdm Hom Hos.
  unfold instrument_names. apply set_eq. intros x.
  rewrite !elem_of_list_to_set, !elem_of_app, !list_elem_of_fmap.
  assert (Hd : ∀ a b : Exporter (F:=F),
    gauge_decl <$> device_metrics a = gauge_decl <$> device_metrics b →
    (∃ y, x = (gauge_name ∘ snd) y ∧ y ∈ map_to_list (device_metrics a)) →
    (∃ y, x = (gauge_name ∘ snd) y ∧ y ∈ map_to_list (device_metrics b))).
  { clear. intros a b Hab ([key g] & -> & Hin).
    apply elem_of_map_to_list in Hin.
    assert (Hl : (gauge_decl <$> device_metrics b) !! key = Some (gauge_decl g)).
    { by rewrite <- Hab, lookup_fmap, Hin. }
    rewrite lookup_fmap in Hl.
    destruct (device_metrics b !! key) as [g'|] eqn:Hb; simplify_eq/=.
    exists (key, g'). split; [simpl; congruence|]. by apply elem_of_map_to_list. }
  assert (Ho : ∀ a b : Exporter (F:=F),
    items_decl (outlet_metrics a) = items_decl (outlet_metrics b) →
    (∃ y, x = (gauge_name ∘ snd) y ∧ y ∈ outlet_metrics a) →
    (∃ y, x = (gauge_name ∘ snd) y ∧ y ∈ outlet_metrics b)).
  { clear. intros a b Hab ([key g] & -> & Hin).
    apply list_elem_of_lookup in Hin as [i Hi].
    assert (Hl : items_decl (outlet_metrics b) !! i = Some (key, gauge_decl g)).
    { rewrite <- Hab. unfold items_decl. by rewrite list_lookup_fmap, Hi. }
    unfold items_decl in Hl. rewrite list_lookup_fmap in Hl.
    destruct (outlet_metrics b !! i) as [[key' g']|] eqn:Hb; simplify_eq/=.
    exists (key, g'). split; [simpl; congruence|].
    apply list_elem_of_lookup. eauto. }
  assert (He : enum_name (outlet_status a) = enum_name (outlet_status b)).
  { unfold enum_decl in Hos. congruence. }
  rewrite !list_elem_of_singleton, He.
  split; (intros [?|[?|?]]; [left|right; left|right; right]); eauto.
Qed.

End Declared.

(** ** The samples determine the instruments *)

Section Extensionality.

Context {F : Type}.

Lemma gauge_ext (g g' : Gauge (F:=F)) :
  gauge_decl g = gauge_decl g' →
  (∀ k, gauge_metrics g !! k = gauge_metrics g' !! k) →
  g = g'.
Proof.
  destruct g, g'. unfold gauge_decl. simpl. intros [= -> -> ->] Hk.
  f_equal. by apply map_eq.
Qed.

Lemma enum_ext (m m' : Enum) :
  enum_decl m = enum_decl m' →
  (∀ k, enum_metrics m !! k = enum_metrics m' !! k) →
  m = m'.
Proof.
  destruct m, m'. unfold enum_decl. simpl. intros [= -> -> -> ->] Hk.
  f_equal. by apply map_eq.
Qed.

Lemma instruments_ext (a b : Exporter (F:=F)) :
  declaration a = declaration b →
  (∀ l, sample a l = sample b l) →
  device_metrics a = device_metrics b
  ∧ outlet_metrics a = outlet_metrics b
  ∧ outlet_status a = outlet_status b.
Proof.
  intros Hdecl Hsample. injection Hdecl as _ _ Hdm Hom Hos. split_and!.
  - apply map_eq. intros key.
    assert (Hl := f_equal (.!! key) Hdm). simpl in Hl. rewrite !lookup_fmap in Hl.
    destruct (device_metrics a !! key) as [g|] eqn:Ha,
             (device_metrics b !! key) as [g'|] eqn:Hb; simplify_eq/=; [|done].
    f_equal. apply gauge_ext; [unfold gauge_decl; congruence|]. intros k.
    specialize (Hsample (DeviceMetric key k)). simpl in Hsample.
    rewrite Ha, Hb in Hsample. simpl in Hsample.
    destruct (gauge_metrics g !! k), (gauge_metrics g' !! k); by simplify_eq/=.
  - apply list_eq. intros i.
    assert (Hl := f_equal (.!! i) Hom). simpl in Hl.
    unfold items_decl in Hl. rewrite !list_lookup_fmap in Hl.
    destruct (outlet_metrics a !! i) as [[attr g]|] eqn:Ha,
             (outlet_metrics b !! i) as [[attr' g']|] eqn:Hb; simplify_eq/=; [|done].
    do 2 f_equal. apply gauge_ext; [unfold gauge_decl; congruence|]. intros k.
    specialize (Hsample (OutletMetric i k)). simpl in Hsample.
    rewrite Ha, Hb in Hsample. simpl in Hsample.
    destruct (gauge_metrics g !! k), (gauge_metrics g' !! k); by simplify_eq/=.
  - apply enum_ext; [unfold enum_decl; congruence|]. intros k.
    specialize (Hsample (OutletStatus k)). simpl in Hsample.
    destruct (enum_metrics (outlet_status a) !! k),
             (enum_metrics (outlet_status b) !! k); by simplify_eq/=.
Qed.

End Extensionality.

(** ** The methods, statement by statement *)

Section Runs.

Context {F : Type}.
Variable fzero : F.
Variable float : string → option F.
Variable fromstring : string → option Element.

Lemma labels_set_float_run kw d key g :
  labels_set_float fzero float kw d key g =
    match eval (labelvalues (gauge_labelnames g) kw) with
    | Raise e => (g, Raise e)
    | Ok k =>
        let g1 := set_gauge_metrics (ensure fzero k) g in
        match d !! key with
        | None => (g1, Raise (KeyError key))
        | Some s =>
            match float s with
            | None => (g1, Raise (ValueError (CouldNotConvertToFloat s)))
            | Some v => (set_gauge_metrics <[k := v]> g1, Ok tt)
            end
        end
    end.
Proof.
  unfold labels_set_float, Gauge_labels, gets, bind.
  rewrite labelvalues_run. destruct (eval _) as [k|e]; [|done].
  rewrite getitem_run. destruct (d !! key) as [s|]; [|done].
  rewrite to_float_run. by destruct (float s).
Qed.

Lemma status_run kw d (m : Enum) :
  (let* k := Enum_labels kw in
   let* status := getitem d "status" in
   Enum_state k status) m =
    match eval (labelvalues (enum_labelnames m) kw) with
    | Raise e => (m, Raise e)
    | Ok k =>
        let m1 := set_enum_metrics (ensure 0 k) m in
        match d !! "status" with
        | None => (m1, Raise (KeyError "status"))
        | Some s =>
            match list_find (λ x, x = s) (enum_states m) with
            | Some (i, _) => (set_enum_metrics <[k := i]> m1, Ok tt)
            | None => (m1, Raise (ValueError (NotInList s)))
            end
        end
    end.
Proof.
  unfold Enum_labels, Enum_state, gets, bind.
  rewrite labelvalues_run. destruct (eval _) as [k|e]; [|done].
  rewrite getitem_run. destruct (d !! "status") as [s|]; [|done].
  simpl. by destruct (list_find _ _) as [[i x]|].
Qed.

Lemma process_outlet_run outlet dl self :
  process_outlet fzero float outlet dl self =
    match attrib outlet !! "num" with
    | None => (self, Raise (KeyError "num"))
    | Some num =>
        let s1 := (log INFO ("Processsing outlet " +:+ num) self).1 in
        match eval (dict_of_labels (attrib outlet) (outlet_labels self)) with
        | Raise e => (s1, Raise e)
        | Ok ol =>
            let kw := dl ∪ ol in
            (with_outlet_metrics
               (for_items (λ attr, labels_set_float fzero float kw (attrib outlet) attr)) ;;
             with_outlet_status
               (let* k := Enum_labels kw in
                let* status := getitem (attrib outlet) "status" in
                Enum_state k status)) s1
        end
    end.
Proof.
  unfold process_outlet.
  rewrite bind_fst_snd, getitem_run. destruct (attrib outlet !! "num") as [num|]; [|done].
  simpl. rewrite bind_fst_snd. simpl. rewrite bind_fst_snd. simpl.
  rewrite bind_fst_snd, dict_of_labels_run. simpl.
  by destruct (eval _).
Qed.

Lemma fetch_Response body (self : Exporter (F:=F)) :
  fetch fromstring (Response body) self =
    (self, match fromstring body with
           | Some root => Ok root
           | None => Raise ParseError
           end).
Proof. unfold fetch, bind. simpl. by destruct (fromstring body). Qed.

End Runs.

(** ** What each method leaves alone *)

Section Frames.

Context {F : Type}.
Variable fzero : F.
Variable float : string → option F.
Variable fromstring : string → option Element.

Lemma warnings_log_INFO msg (self : Exporter (F:=F)) :
  warnings (log INFO msg self).1 = warnings self.
Proof.
  unfold warnings. simpl. rewrite filter_app, fmap_app. simpl. apply app_nil_r.
Qed.

Lemma logger_with_device_metric key body (self : Exporter (F:=F)) :
  logger (with_device_metric key body self).1 = logger self.
Proof.
  unfold with_device_metric. destruct (device_metrics self !! key); [|done].
  by destruct (body _).
Qed.

Lemma logger_with_outlet_metrics m (self : Exporter (F:=F)) :
  logger (with_outlet_metrics m self).1 = logger self.
Proof. unfold with_outlet_metrics. by destruct (m _). Qed.

Lemma logger_with_outlet_status m (self : Exporter (F:=F)) :
  logger (with_outlet_status m self).1 = logger self.
Proof. unfold with_outlet_status. by destruct (m _). Qed.

Lemma device_metrics_with_outlet_metrics m (self : Exporter (F:=F)) :
  device_metrics (with_outlet_metrics m self).1 = device_metrics self.
Proof. unfold with_outlet_metrics. by destruct (m _). Qed.

Lemma device_metrics_with_outlet_status m (self : Exporter (F:=F)) :
  device_metrics (with_outlet_status m self).1 = device_metrics self.
Proof. unfold with_outlet_status. by destruct (m _). Qed.

Lemma outlet_status_with_outlet_metrics m (self : Exporter (F:=F)) :
  outlet_status (with_outlet_metrics m self).1 = outlet_status self.
Proof. unfold with_outlet_metrics. by destruct (m _). Qed.

(** A property of the exporter that logging at level INFO and updates of
    the outlet instruments keep is kept by [process_outlet]. *)
Lemma process_outlet_invariant (I : Exporter (F:=F) → Prop) outlet dl self :
  (∀ msg s, I s → I (log INFO msg s).1) →
  (∀ m s, I s → I (with_outlet_metrics m s).1) →
  (∀ m s, I s → I (with_outlet_status m s).1) →
  I self → I (process_outlet fzero float outlet dl self).1.
Proof.
  intros Hlog Hom Hos Hself. rewrite process_outlet_run.
  destruct (attrib outlet !! "num"); [|done].
  destruct (eval _); [|by apply Hlog].
  apply bind_invariant; [by apply Hom, Hlog|]. intros _ s' Hs'. by apply Hos.
Qed.

Lemma warnings_process_outlet outlet dl self :
  warnings (process_outlet fzero float outlet dl self).1 = warnings self.
Proof.
  apply (process_outlet_invariant (λ s, warnings s = warnings self)); [..|done].
  - intros msg s <-. apply warnings_log_INFO.
  - intros m s <-. unfold warnings. by rewrite logger_with_outlet_metrics.
  - intros m s <-. unfold warnings. by rewrite logger_with_outlet_status.
Qed.

Lemma device_metrics_process_outlet outlet dl self :
  device_metrics (process_outlet fzero float outlet dl self).1 = device_metrics self.
Proof.
  apply (process_outlet_invariant (λ s, device_metrics s = device_metrics self));
    [..|done].
  - by intros msg s <-.
  - intros m s <-. apply device_metrics_with_outlet_metrics.
  - intros m s <-. apply device_metrics_with_outlet_status.
Qed.

Lemma warnings_process_child child dl self :
  warnings (process_child fzero float child dl self).1 = warnings self.
Proof.
  unfold process_child. case_bool_decide; [|done].
  rewrite bind_fst_snd, getitem_run. destruct (attrib child !! "key"); [|done].
  simpl. unfold warnings. by rewrite logger_with_device_metric.
Qed.

Lemma warnings_process_device device self :
  warnings (process_device fzero float device self).1 = warnings self.
Proof.
  unfold process_device.
  rewrite bind_fst_snd, getitem_run. destruct (attrib device !! "type"); [|done].
  simpl. apply (bind_invariant (λ s, warnings s = warnings self)).
  { apply warnings_log_INFO. }
  intros _ s1 Hs1. destruct (negb _); [done|].
  apply (bind_invariant (λ s, warnings s = warnings self)); [done|].
  intros names s2 Hs2.
  rewrite bind_fst_snd, dict_of_labels_run. simpl.
  destruct (eval _) as [dl|]; [|done].
  apply (bind_invariant (λ s, warnings s = warnings self)).
  - apply for_each_invariant; [|done]. intros child s' <-. apply warnings_process_child.
  - intros _ s3 Hs3. apply for_each_invariant; [|done].
    intros outlet s' <-. apply warnings_process_outlet.
Qed.

Lemma warnings_process_Response body self :
  warnings (process fzero float fromstring (Response body) self).1 = warnings self.
Proof.
  unfold process.
  apply (bind_invariant (λ s, warnings s = warnings self)).
  { apply warnings_log_INFO. }
  intros _ s1 Hs1. rewrite bind_fst_snd, fetch_Response. simpl.
  destruct (fromstring body) as [root|]; [|done].
  destruct (find root "devices"); [|done].
  apply for_each_invariant; [|done]. intros device s <-. apply warnings_process_device.
Qed.

(** When [process] raises, the loop ends there. *)
Lemma start_export_loop_Raise c rest self e :
  (process fzero float fromstring (outcome c) self).2 = Raise e →
  start_export_loop fzero float fromstring (c :: rest) self
  = process fzero float fromstring (outcome c) self.
Proof.
  intros H. simpl. rewrite bind_fst_snd, H.
  destruct (process _ _ _ _ _) as [s' r]. simpl in H. by subst.
Qed.

Lemma for_each_Raise_head {S A} (body : A → M S unit) x l s e :
  (body x s).2 = Raise e → for_each body (x :: l) s = body x s.
Proof.
  intros H. simpl. rewrite bind_fst_snd, H.
  destruct (body x s) as [s' r]. simpl in H. by subst.
Qed.

End Frames.

(** ** Exceptions that end the cycle *)

Lemma bind_raises {S A B} (I : S → Prop) (m : M S A) (k : A → M S B) s :
  I (m s).1 →
  (∀ a s', I s' → ∃ e, (k a s').2 = Raise e) →
  ∃ e, (bind m k s).2 = Raise e.
Proof.
  intros Hm Hk. rewrite bind_fst_snd. destruct (m s).2 as [a|e]; simpl; eauto.
Qed.

Section Aborting.

Context {F : Type}.
Variable fzero : F.
Variable float : string → option F.
Variable fromstring : string → option Element.

Lemma items_decl_keys (items : list (string * Gauge (F:=F))) :
  (items_decl items).*1 = items.*1.
Proof. unfold items_decl. rewrite <- list_fmap_compose. by apply list_fmap_ext; intros ? []. Qed.

Lemma declaration_outlet_keys (a b : Exporter (F:=F)) :
  declaration a = declaration b → (outlet_metrics a).*1 = (outlet_metrics b).*1.
Proof.
  intros H. rewrite <- !items_decl_keys.
  apply (f_equal decl_outlet_metrics) in H. simpl in H. by rewrite H.
Qed.

Lemma declaration_enum_states (a b : Exporter (F:=F)) :
  declaration a = declaration b →
  enum_states (outlet_status a) = enum_states (outlet_status b).
Proof.
  intros H. apply (f_equal decl_outlet_status) in H. simpl in H.
  unfold enum_decl in H. congruence.
Qed.

Lemma for_items_raises (body : string → M (Gauge (F:=F)) unit) items a :
  a ∈ items.*1 →
  (∀ g, ∃ e, (body a g).2 = Raise e) →
  ∃ e, (for_items body items).2 = Raise e.
Proof.
  intros Ha Hbody. induction items as [|[attr g] items IH]; [by apply elem_of_nil in Ha|].
  simpl. destruct (body attr g) as [g' [[]|e]] eqn:Hb; [|by eexists].
  apply elem_of_cons in Ha as [Heq|Ha].
  - simpl in Heq. subst. destruct (Hbody g) as [e He]. by rewrite Hb in He.
  - destruct (IH Ha) as [e He]. exists e.
    by destruct (for_items body items).
Qed.

Lemma labels_set_float_missing kw d key (g : Gauge (F:=F)) :
  d !! key = None → ∃ e, (labels_set_float fzero float kw d key g).2 = Raise e.
Proof.
  intros Hkey. rewrite labels_set_float_run, Hkey.
  destruct (eval _); simpl; eauto.
Qed.

Lemma with_outlet_metrics_result m (self : Exporter (F:=F)) :
  (with_outlet_metrics m self).2 = (m (outlet_metrics self)).2.
Proof. unfold with_outlet_metrics. by destruct (m _). Qed.

Lemma process_outlet_missing_measurement outlet dl self a :
  a ∈ (outlet_metrics self).*1 →
  attrib outlet !! a = None →
  ∃ e, (process_outlet fzero float outlet dl self).2 = Raise e.
Proof.
  intros Ha Hmissing. rewrite process_outlet_run.
  destruct (attrib outlet !! "num"); [|by eexists].
  destruct (eval _) as [ol|]; [|by eexists]. simpl.
  rewrite bind_fst_snd, with_outlet_metrics_result. simpl.
  destruct (for_items_raises
              (λ attr, labels_set_float fzero float (dl ∪ ol) (attrib outlet) attr)
              (outlet_metrics self) a Ha) as [e He].
  { intros g. by apply labels_set_float_missing. }
  rewrite He. by eexists.
Qed.

Lemma process_outlet_unknown_status outlet dl self status :
  attrib outlet !! "status" = Some status →
  status ∉ enum_states (outlet_status self) →
  (∃ e, (process_outlet fzero float outlet dl self).2 = Raise e)
  ∧ ∀ k,
      let before := enum_metrics (outlet_status self) !! k in
      let after :=
        enum_metrics (outlet_status (process_outlet fzero float outlet dl self).1) !! k in
      after = before ∨ (before = None ∧ after = Some 0).
Proof.
  intros Hstatus Hnotin. rewrite process_outlet_run.
  destruct (attrib outlet !! "num") as [num|]; [|by eauto].
  destruct (eval _) as [ol|]; [|by eauto]. cbv zeta.
  rewrite bind_fst_snd.
  match goal with
  | |- context [with_outlet_metrics ?m ?s1] => set (om := with_outlet_metrics m s1)
  end.
  assert (Hos : outlet_status om.1 = outlet_status self).
  { unfold om. by rewrite outlet_status_with_outlet_metrics. }
  destruct om.2 as [[]|e]; [|simpl; rewrite Hos; by eauto].
  unfold with_outlet_status. rewrite status_run, Hos, Hstatus.
  assert (Hfind : list_find (λ x, x = status) (enum_states (outlet_status self)) = None).
  { apply list_find_None, Forall_forall. intros x Hx ->. done. }
  rewrite Hfind. destruct (eval _) as [k0|e]; simpl; [|by eauto].
  split; [by eauto|]. intros k. rewrite (lookup_ensure 0).
  destruct (decide (k = k0)) as [->|]; simpl; [|by left].
  destruct (enum_metrics (outlet_status self) !! k0); simpl; eauto.
Qed.

(** An outlet at which [process_outlet] raises makes the device raise. *)
Lemma process_device_raises_at_outlet device outlets outlet self :
  find device "outlets" = Some outlets →
  outlet ∈ children outlets →
  (∀ dl s, declaration s = declaration self →
     ∃ e, (process_outlet fzero float outlet dl s).2 = Raise e) →
  ∃ e, (process_device fzero float device self).2 = Raise e.
Proof.
  intros Hfind Hin Hraise. unfold process_device.
  rewrite bind_fst_snd, getitem_run. destruct (attrib device !! "type"); [|by eexists].
  simpl. apply (bind_raises (λ s, declaration s = declaration self)); [done|].
  intros _ s1 Hs1. rewrite Hfind. simpl.
  rewrite bool_decide_eq_true_2; [|by intros Hnil; rewrite Hnil in Hin; apply elem_of_nil in Hin].
  simpl. apply (bind_raises (λ s, declaration s = declaration self)); [done|].
  intros names s2 Hs2.
  rewrite bind_fst_snd, dict_of_labels_run. simpl.
  destruct (eval _) as [dl|]; [|by eexists].
  apply (bind_raises (λ s, declaration s = declaration self)).
  { apply for_each_invariant; [|done]. intros child s' <-.
    apply declaration_process_child. }
  intros _ s3 Hs3.
  apply (for_each_raises (λ s, declaration s = declaration self) _ _ outlet); auto.
  intros y s' <-. apply declaration_process_outlet.
Qed.

(** And a device at which [process_device] raises ends the cycle. *)
Lemma process_raises_at_outlet body root devices device outlets outlet self :
  fromstring body = Some root →
  find root "devices" = Some devices →
  device ∈ children devices →
  find device "outlets" = Some outlets →
  outlet ∈ children outlets →
  (∀ dl s, declaration s = declaration self →
     ∃ e, (process_outlet fzero float outlet dl s).2 = Raise e) →
  ∃ e, (process fzero float fromstring (Response body) self).2 = Raise e.
Proof.
  intros Hbody Hdevices Hdevice Houtlets Houtlet Hraise. unfold process.
  apply (bind_raises (λ s, declaration s = declaration self)); [done|].
  intros _ s1 Hs1. rewrite bind_fst_snd, fetch_Response, Hbody. simpl.
  rewrite Hdevices.
  apply (for_each_raises (λ s, declaration s = declaration self) _ _ device); auto.
  - intros y s' <-. apply declaration_process_device.
  - intros s' Hs'. apply (process_device_raises_at_outlet _ outlets outlet); auto.
    intros dl s Hs. apply Hraise. congruence.
Qed.

End Aborting.

(** ** Runs that succeed *)

Lemma values_of_Ok kw labelnames k :
  eval (values_of kw labelnames) = Ok k →
  Forall2 (λ l v, kw !! l = Some v) labelnames k.
Proof.
  unfold eval. revert k. induction labelnames as [|l rest IH]; intros k; simpl.
  - intros [= <-]. constructor.
  - rewrite bind_fst_snd, getitem_run. simpl.
    destruct (kw !! l) as [v|] eqn:Hl; [|done].
    rewrite bind_fst_snd, values_of_run. simpl.
    destruct (eval (values_of kw rest)) as [vs|] eqn:Hvs; [|done].
    intros [= <-]. constructor; [done|]. by apply IH.
Qed.

Lemma labelvalues_Ok labelnames kw k :
  eval (labelvalues labelnames kw) = Ok k →
  Forall2 (λ l v, kw !! l = Some v) labelnames k.
Proof.
  unfold labelvalues. repeat case_bool_decide; try done. apply values_of_Ok.
Qed.



Section Success.

Context {F : Type}.
Variable fzero : F.
Variable float : string → option F.

Lemma labels_set_float_Ok kw d key (g g' : Gauge (F:=F)) :
  labels_set_float fzero float kw d key g = (g', Ok tt) →
  ∃ k s v,
    eval (labelvalues (gauge_labelnames g) kw) = Ok k
    ∧ d !! key = Some s
    ∧ float s = Some v
    ∧ gauge_metrics g' !! k = Some v
    ∧ ∀ k', k' ≠ k → gauge_metrics g' !! k' = gauge_metrics g !! k'.
Proof.
  rewrite labels_set_float_run.
  destruct (eval _) as [k|] eqn:Hk; [|done]. simpl.
  destruct (d !! key) as [s|] eqn:Hs; [|done].
  destruct (float s) as [v|] eqn:Hv; [|done].
  intros [= <-]. exists k, s, v. split_and!; [done..| |]; simpl.
  - by rewrite lookup_insert_eq.
  - intros k' Hne. rewrite lookup_insert_ne by done.
    rewrite (lookup_ensure fzero). by rewrite decide_False.
Qed.

Lemma for_items_Ok (body : string → M (Gauge (F:=F)) unit) items items' :
  for_items body items = (items', Ok tt) →
  Forall2 (λ p p', p'.1 = p.1 ∧ body p.1 p.2 = (p'.2, Ok tt)) items items'.
Proof.
  revert items'. induction items as [|[attr g] items IH]; intros items'; simpl.
  - intros [= <-]. constructor.
  - destruct (body attr g) as [g' [[]|e]] eqn:Hb; [|done].
    destruct (for_items body items) as [rest' r] eqn:Hrest.
    intros [= <- ->]. constructor; [done|]. by apply IH.
Qed.

Lemma process_outlet_Ok outlet dl self self' :
  process_outlet fzero float outlet dl self = (self', Ok tt) →
  ∃ ol items status,
    eval (dict_of_labels (attrib outlet) (outlet_labels self)) = Ok ol
    ∧ for_items (λ attr, labels_set_float fzero float (dl ∪ ol) (attrib outlet) attr)
                (outlet_metrics self) = (items, Ok tt)
    ∧ (let* k := Enum_labels (dl ∪ ol) in
       let* status := getitem (attrib outlet) "status" in
       Enum_state k status) (outlet_status self) = (status, Ok tt)
    ∧ device_metrics self' = device_metrics self
    ∧ outlet_metrics self' = items
    ∧ outlet_status self' = status.
Proof.
  rewrite process_outlet_run.
  destruct (attrib outlet !! "num") as [num|]; [|done].
  destruct (eval _) as [ol|]; [|done]. cbv zeta.
  unfold bind, with_outlet_metrics, with_outlet_status. simpl.
  destruct (for_items _ _) as [items [[]|e]] eqn:Hitems; [|done]. simpl.
  match goal with
  | |- context [let '(_, _) := ?m in _] => destruct m as [status [[]|e]] eqn:Hst
  end; [|done].
  intros [= <-]. by exists ol, items, status.
Qed.

Lemma status_Ok kw d (m m' : Enum) :
  (let* k := Enum_labels kw in
   let* status := getitem d "status" in
   Enum_state k status) m = (m', Ok tt) →
  ∃ k s i,
    eval (labelvalues (enum_labelnames m) kw) = Ok k
    ∧ d !! "status" = Some s
    ∧ enum_states m !! i = Some s
    ∧ enum_metrics m' !! k = Some i
    ∧ ∀ k', k' ≠ k → enum_metrics m' !! k' = enum_metrics m !! k'.
Proof.
  rewrite status_run.
  destruct (eval _) as [k|] eqn:Hk; [|done]. simpl.
  destruct (d !! "status") as [s|] eqn:Hs; [|done].
  destruct (list_find _ _) as [[i x]|] eqn:Hfind; [|done].
  apply list_find_Some in Hfind as (Hi & -> & _).
  intros [= <-]. exists k, s, i. split_and!; [done..| |]; simpl.
  - by rewrite lookup_insert_eq.
  - intros k' Hne. rewrite lookup_insert_ne by done.
    rewrite (lookup_ensure 0). by rewrite decide_False.
Qed.

Lemma declared_outlet_labels (self : Exporter (F:=F)) :
  declaration self = declaration (init (F:=F)) →
  outlet_labels self = ["name"; "num"; "url"].
Proof. intros H. by apply (f_equal decl_outlet_labels) in H. Qed.

Lemma declared_device_labels (self : Exporter (F:=F)) :
  declaration self = declaration (init (F:=F)) →
  device_labels self = ["id"; "type"].
Proof. intros H. by apply (f_equal decl_device_labels) in H. Qed.


Lemma declared_status_labelnames (self : Exporter (F:=F)) :
  declaration self = declaration (init (F:=F)) →
  enum_labelnames (outlet_status self) = ["name"; "num"; "url"; "id"; "type"]
  ∧ enum_states (outlet_status self) = ["On"; "Off"].
Proof.
  intros H. apply (f_equal decl_outlet_status) in H. simpl in H.
  unfold enum_decl in H. by simplify_eq.
Qed.

End Success.

(** ** The fields of a device *)

Lemma labelvalues_device (i t : string) :
  eval (labelvalues ["id"; "type"] (<["id" := i]> (<["type" := t]> ∅))) = Ok [i; t].
Proof.
  unfold labelvalues.
  rewrite bool_decide_eq_false_2 by done.
  rewrite bool_decide_eq_false_2 by apply insert_non_empty.
  rewrite bool_decide_eq_true_2.
  - unfold eval. simpl. unfold bind, getitem, ret.
    rewrite lookup_insert_eq. rewrite lookup_insert_ne by done.
    by rewrite lookup_insert_eq.
  - split.
    + apply NoDup_cons. split; [|apply NoDup_singleton].
      rewrite list_elem_of_singleton. done.
    + rewrite !dom_insert_L, dom_empty_L. simpl.
      by rewrite !(right_id_L ∅ (∪)).
Qed.

Section Fields.

Context {F : Type}.
Variable fzero : F.
Variable float : string → option F.

Lemma init_device_metrics key (g : Gauge (F:=F)) :
  device_metrics init !! key = Some g →
  gauge_labelnames g = ["id"; "type"]
  ∧ (key = "RealPower-A" → gauge_name g = "pdu_realpower").
Proof.
  unfold init. cbn [device_metrics]. intros H.
  apply elem_of_list_to_map_2 in H.
  repeat (apply elem_of_cons in H as [H|H]; [by simplify_eq|]).
  by apply elem_of_nil in H.
Qed.

Lemma declared_device_metrics (self : Exporter (F:=F)) key g :
  declaration self = declaration (init (F:=F)) →
  device_metrics self !! key = Some g →
  is_Some (device_metrics (init (F:=F)) !! key)
  ∧ gauge_labelnames g = ["id"; "type"]
  ∧ (key = "RealPower-A" → gauge_name g = "pdu_realpower").
Proof.
  intros Hdecl Hkey.
  apply (f_equal (λ d, decl_device_metrics d !! key)) in Hdecl.
  unfold declaration in Hdecl. cbn [decl_device_metrics] in Hdecl.
  rewrite !lookup_fmap, Hkey in Hdecl.
  destruct (device_metrics init !! key) as [g0|] eqn:Hinit; [|done].
  destruct (init_device_metrics _ _ Hinit) as [Hnames Hname].
  unfold gauge_decl in Hdecl. simpl in Hdecl.
  split_and!; [done|congruence|]. intros Hk. rewrite <- (Hname Hk). congruence.
Qed.

Lemma process_child_well_formed child (i t : string) self :
  declaration self = declaration (init (F:=F)) →
  well_formed_child float child →
  (process_child fzero float child (<["id" := i]> (<["type" := t]> ∅)) self).2 = Ok tt.
Proof.
  intros Hdecl Hwf. unfold process_child. case_bool_decide as Htag; [|done].
  destruct (Hwf Htag) as (key & Hkey & Hvalue).
  rewrite bind_fst_snd, getitem_run, Hkey. simpl.
  unfold with_device_metric.
  destruct (device_metrics self !! key) as [g|] eqn:Hg; [|done].
  destruct (declared_device_metrics _ _ _ Hdecl Hg) as (Hinit & Hnames & _).
  destruct (Hvalue Hinit) as (s & Hs & [v Hv]).
  by rewrite labels_set_float_run, Hnames, labelvalues_device, Hs, Hv.
Qed.

Lemma process_child_sets child (i t s : string) v self :
  declaration self = declaration (init (F:=F)) →
  tag child = "field" →
  attrib child !! "key" = Some "RealPower-A" →
  attrib child !! "value" = Some s →
  float s = Some v →
  ∃ g, device_metrics
         (process_child fzero float child (<["id" := i]> (<["type" := t]> ∅)) self).1
       !! "RealPower-A" = Some g
       ∧ gauge_name g = "pdu_realpower"
       ∧ gauge_metrics g !! [i; t] = Some v.
Proof.
  intros Hdecl Htag Hkey Hs Hv. unfold process_child.
  rewrite bool_decide_eq_true_2 by done.
  rewrite bind_fst_snd, getitem_run, Hkey. simpl.
  unfold with_device_metric.
  destruct (device_metrics self !! "RealPower-A") as [g|] eqn:Hg.
  - destruct (declared_device_metrics _ _ _ Hdecl Hg) as (_ & Hnames & Hname).
    rewrite labels_set_float_run, Hnames, labelvalues_device, Hs, Hv. simpl.
    rewrite lookup_insert_eq. eexists. split_and!; [done|by apply Hname|].
    simpl. by rewrite lookup_insert_eq.
  - apply (f_equal (λ d, decl_device_metrics d !! "RealPower-A")) in Hdecl.
    unfold declaration in Hdecl. cbn [decl_device_metrics] in Hdecl.
    rewrite !lookup_fmap, Hg in Hdecl. done.
Qed.

Lemma process_child_other_key child dl self key :
  (tag child = "field" → attrib child !! "key" ≠ Some key) →
  device_metrics (process_child fzero float child dl self).1 !! key
  = device_metrics self !! key.
Proof.
  intros Hother. unfold process_child. case_bool_decide as Htag; [|done].
  rewrite bind_fst_snd, getitem_run.
  destruct (attrib child !! "key") as [key'|] eqn:Hkey; [|done]. simpl.
  unfold with_device_metric.
  destruct (device_metrics self !! key') as [g|]; [|done].
  destruct (labels_set_float _ _ _ _ _ _) as [g' r]. simpl.
  apply lookup_insert_ne. intros ->. by apply Hother.
Qed.

Lemma dict_of_labels_device (d : gmap string string) (i t : string) :
  d !! "id" = Some i →
  d !! "type" = Some t →
  eval (dict_of_labels d ["id"; "type"]) = Ok (<["id" := i]> (<["type" := t]> ∅)).
Proof.
  intros Hi Ht. unfold eval. simpl. unfold bind, getitem, ret. by rewrite Hi, Ht.
Qed.

End Fields.

(** * The claims *)

Section Claims.

Context {F : Type}.
Variable fzero : F.
Variable float : string → option F.
Variable fromstring : string → option Element.

(** C1, as the code behaves.  When the request fails with a
    [requests.ConnectionError], [fetch] logs the warning and then reads
    the variable [resp], which was never bound: [process] ends with
    [UnboundLocalError], the exception leaves the polling loop (no later
    cycle runs), and no instrument has changed. *)
Theorem connection_failure_raises_out_of_the_loop strerror elapsed rest self :
  let warning := "Exception while connecting to device: " +:+ strerror in
  let self' := logged [(INFO, "Starting process.."); (WARNING, warning)] self in
  process fzero float fromstring (ConnectionError strerror) self
    = (self', Raise (UnboundLocalError "resp"))
  ∧ start_export_loop fzero float fromstring
      (mkCycle (ConnectionError strerror) elapsed :: rest) self
    = (self', Raise (UnboundLocalError "resp"))
  ∧ instruments self' = instruments self
  ∧ warnings self' = warnings self ++ [warning].
Proof.
  intros warning self'.
  assert (Hp : process fzero float fromstring (ConnectionError strerror) self
               = (self', Raise (UnboundLocalError "resp"))).
  { unfold self', logged, process, fetch, bind, log. simpl.
    by rewrite <- (assoc_L (++)). }
  split_and!; [done| |done|].
  - simpl. by apply bind_Raise.
  - unfold warnings, self'. simpl. rewrite filter_app, fmap_app. done.
Qed.

(** C3, as the code behaves.  When the body is not well-formed XML,
    [ET.fromstring] raises [ParseError] and nothing catches it: the
    exception leaves [process] and the polling loop, the only record
    logged is the start of the cycle (no warning), and no instrument has
    changed. *)
Theorem malformed_body_raises_out_of_the_loop body elapsed rest self :
  fromstring body = None →
  let self' := logged [(INFO, "Starting process..")] self in
  process fzero float fromstring (Response body) self = (self', Raise ParseError)
  ∧ start_export_loop fzero float fromstring
      (mkCycle (Response body) elapsed :: rest) self
    = (self', Raise ParseError)
  ∧ instruments self' = instruments self
  ∧ warnings self' = warnings self.
Proof.
  intros Hbody self'.
  assert (Hp : process fzero float fromstring (Response body) self
               = (self', Raise ParseError)).
  { unfold process, fetch, bind. simpl. by rewrite Hbody. }
  split_and!; [done| |done|].
  - simpl. by apply bind_Raise.
  - unfold warnings, self'. simpl. rewrite filter_app, fmap_app. simpl.
    by rewrite app_nil_r.
Qed.

(** The first two statements of [process_device]. *)
Lemma process_device_falsy_outlets device self :
  truthy (find device "outlets") = false →
  process_device fzero float device self =
    (let* type := getitem (attrib device) "type" in
     log INFO ("Processsing device " +:+ type)) self.
Proof.
  intros Hfalsy. unfold process_device. rewrite Hfalsy. simpl.
  rewrite !(bind_fst_snd (getitem _ _)), !getitem_run. simpl.
  by destruct (attrib device !! "type").
Qed.

Lemma instruments_announce device (self : Exporter (F:=F)) :
  instruments
    ((let* type := getitem (attrib device) "type" in
      log INFO ("Processsing device " +:+ type)) self).1
  = instruments self.
Proof.
  rewrite bind_fst_snd, getitem_run. simpl. by destruct (attrib device !! "type").
Qed.

(** C2, as the code behaves.  A device without an [outlets] container is
    skipped as a whole: [process_device] logs the device and returns
    without an error, and no instrument has changed, neither the gauges
    of its fields nor the outlet metrics. *)
Theorem device_without_outlets_is_skipped device type self :
  attrib device !! "type" = Some type →
  find device "outlets" = None →
  let self' := logged [(INFO, "Processsing device " +:+ type)] self in
  process_device fzero float device self = (self', Ok tt)
  ∧ instruments self' = instruments self.
Proof.
  intros Htype Hfind self'. split; [|done].
  rewrite process_device_falsy_outlets by by rewrite Hfind.
  rewrite bind_fst_snd, getitem_run, Htype. done.
Qed.

(** C10.  A device whose [outlets] container is present but has no
    children is skipped as a whole: after the log record nothing else
    happens, no instrument changes (no gauge of its fields is set), and
    the outcome is the one of every device with the same attributes and
    no [outlets] container. *)
Theorem device_with_empty_outlets_is_skipped device outlets self :
  find device "outlets" = Some outlets →
  children outlets = [] →
  process_device fzero float device self =
    (let* type := getitem (attrib device) "type" in
     log INFO ("Processsing device " +:+ type)) self
  ∧ instruments (process_device fzero float device self).1 = instruments self
  ∧ ∀ device', attrib device' = attrib device → find device' "outlets" = None →
      process_device fzero float device' self = process_device fzero float device self.
Proof.
  intros Hfind Hempty.
  assert (Hfalsy : truthy (find device "outlets") = false).
  { rewrite Hfind. simpl. by rewrite Hempty. }
  split_and!.
  - by apply process_device_falsy_outlets.
  - rewrite process_device_falsy_outlets by done. apply instruments_announce.
  - intros device' Hattrib Hnone.
    rewrite !process_device_falsy_outlets; [by rewrite Hattrib|done|by rewrite Hnone].
Qed.

(** C9.  A [field] whose key is not a key of the [device_metrics] dict
    built by [__init__] is passed over: no error, no change at all.  And
    whatever the cycles bring, the loop leaves the declaration of the
    instruments, and with it the set of their names, as it found it. *)
Theorem unknown_field_key_is_ignored child key dl cycles self :
  declaration self = declaration (init (F:=F)) →
  tag child = "field" →
  attrib child !! "key" = Some key →
  device_metrics (init (F:=F)) !! key = None →
  process_child fzero float child dl self = (self, Ok tt)
  ∧ declaration (start_export_loop fzero float fromstring cycles self).1
    = declaration self
  ∧ instrument_names (start_export_loop fzero float fromstring cycles self).1
    = instrument_names self.
Proof.
  intros Hdecl Htag Hkey Hunknown.
  assert (Hloop := declaration_start_export_loop fzero float fromstring cycles self).
  split_and!; [|done|by apply instrument_names_declaration].
  unfold process_child. rewrite bool_decide_eq_true_2 by done.
  rewrite bind_fst_snd, getitem_run, Hkey. simpl.
  unfold with_device_metric.
  assert (Hl := f_equal (λ d, decl_device_metrics d !! key) Hdecl).
  unfold declaration in Hl. cbn [decl_device_metrics] in Hl.
  rewrite !lookup_fmap, Hunknown in Hl.
  by destruct (device_metrics self !! key).
Qed.

(** C7.  Processing the same response twice in a row leaves every
    instrument, with all its children and their values, as the first
    processing left it, and ends the same way. *)
Theorem processing_twice_is_processing_once outcome self :
  let once := process fzero float fromstring outcome self in
  let twice := process fzero float fromstring outcome once.1 in
  instruments twice.1 = instruments once.1
  ∧ (∀ series, sample twice.1 series = sample once.1 series)
  ∧ twice.2 = once.2.
Proof.
  intros once twice.
  pose proof (Uniform_process fzero float fromstring (declaration self) outcome)
    as Hu.
  destruct (Uniform_twice _ _ _ _ _ self Hu eq_refl) as [Hr Hsample].
  assert (Hdecl : declaration twice.1 = declaration once.1).
  { unfold twice, once. by rewrite !declaration_process. }
  destruct (instruments_ext _ _ Hdecl Hsample) as (Hdm & Hom & Hos).
  split_and!; [|done|done].
  unfold instruments. by rewrite Hdm, Hom, Hos.
Qed.

(** An outlet that lacks one of [amps], [kwatthrs], [watts] makes
    [process_outlet] raise, whatever else is wrong with it or with the
    document, and nothing catches the exception: the outlets and devices
    after it are not processed, [process] and the polling loop end with
    an exception, and no warning is logged. *)
Lemma missing_measurement_raises
    body root devices device outlets outlet a dl elapsed rest self :
  declaration self = declaration (init (F:=F)) →
  a ∈ ["amps"; "kwatthrs"; "watts"] →
  attrib outlet !! a = None →
  fromstring body = Some root →
  find root "devices" = Some devices →
  device ∈ children devices →
  find device "outlets" = Some outlets →
  outlet ∈ children outlets →
  let cycle := process fzero float fromstring (Response body) self in
  (∃ e, (process_outlet fzero float outlet dl self).2 = Raise e)
  ∧ (∀ later, for_each (λ o, process_outlet fzero float o dl) (outlet :: later) self
              = process_outlet fzero float outlet dl self)
  ∧ (∀ later, for_each (process_device fzero float) (device :: later) self
              = process_device fzero float device self)
  ∧ (∃ e, cycle.2 = Raise e)
  ∧ start_export_loop fzero float fromstring
      (mkCycle (Response body) elapsed :: rest) self = cycle
  ∧ warnings cycle.1 = warnings self.
Proof.
  intros Hdecl Ha Hmissing Hbody Hdevices Hdevice Houtlets Houtlet cycle.
  assert (Hraise : ∀ dl' s, declaration s = declaration self →
            ∃ e, (process_outlet fzero float outlet dl' s).2 = Raise e).
  { intros dl' s Hs. apply process_outlet_missing_measurement with (a := a); [|done].
    rewrite (declaration_outlet_keys s init) by congruence. done. }
  destruct (Hraise dl self eq_refl) as [e He].
  destruct (process_device_raises_at_outlet fzero float device outlets outlet self)
    as [e' He']; [done..|].
  destruct (process_raises_at_outlet fzero float fromstring
              body root devices device outlets outlet self) as [e'' He'']; [done..|].
  split_and!; [by eauto| | |by eauto| |].
  - intros later.
    exact (for_each_Raise_head (λ o, process_outlet fzero float o dl) _ _ _ _ He).
  - intros later. exact (for_each_Raise_head _ _ _ _ _ He').
  - by eapply (start_export_loop_Raise fzero float fromstring (mkCycle _ _)).
  - apply warnings_process_Response.
Qed.

(** An outlet whose [status] is neither [On] nor [Off] makes
    [process_outlet] raise, whatever else is wrong with it or with the
    document, and nothing catches the exception: the outlets and devices
    after it are not processed, [process] and the polling loop end with
    an exception, and no warning is logged.  The state of
    [pdu_outlet_status] is left as it was for every label-set that had
    one; a label-set seen for the first time may have been created, in
    the first state ([On]). *)
Lemma unknown_status_raises
    body root devices device outlets outlet status dl elapsed rest self :
  declaration self = declaration (init (F:=F)) →
  attrib outlet !! "status" = Some status →
  status ≠ "On" →
  status ≠ "Off" →
  fromstring body = Some root →
  find root "devices" = Some devices →
  device ∈ children devices →
  find device "outlets" = Some outlets →
  outlet ∈ children outlets →
  let cycle := process fzero float fromstring (Response body) self in
  (∃ e, (process_outlet fzero float outlet dl self).2 = Raise e)
  ∧ (∀ k,
       let before := enum_metrics (outlet_status self) !! k in
       let after :=
         enum_metrics (outlet_status (process_outlet fzero float outlet dl self).1) !! k in
       after = before ∨ (before = None ∧ after = Some 0))
  ∧ (∀ later, for_each (λ o, process_outlet fzero float o dl) (outlet :: later) self
              = process_outlet fzero float outlet dl self)
  ∧ (∀ later, for_each (process_device fzero float) (device :: later) self
              = process_device fzero float device self)
  ∧ (∃ e, cycle.2 = Raise e)
  ∧ start_export_loop fzero float fromstring
      (mkCycle (Response body) elapsed :: rest) self = cycle
  ∧ warnings cycle.1 = warnings self.
Proof.
  intros Hdecl Hstatus HOn HOff Hbody Hdevices Hdevice Houtlets Houtlet cycle.
  assert (Hnotin : ∀ s : Exporter (F:=F), declaration s = declaration self →
            status ∉ enum_states (outlet_status s)).
  { intros s Hs. rewrite (declaration_enum_states s init) by congruence.
    simpl. rewrite !elem_of_cons, elem_of_nil. by intros [?|[?|[]]]. }
  assert (Hraise : ∀ dl' s, declaration s = declaration self →
            ∃ e, (process_outlet fzero float outlet dl' s).2 = Raise e).
  { intros dl' s Hs.
    by apply (process_outlet_unknown_status fzero float outlet dl' s status), Hnotin. }
  destruct (process_outlet_unknown_status fzero float outlet dl self status)
    as [[e He] Hkeep]; [by auto..|].
  destruct (process_device_raises_at_outlet fzero float device outlets outlet self)
    as [e' He']; [done..|].
  destruct (process_raises_at_outlet fzero float fromstring
              body root devices device outlets outlet self) as [e'' He'']; [done..|].
  split_and!; [by eauto|done| | |by eauto| |].
  - intros later.
    exact (for_each_Raise_head (λ o, process_outlet fzero float o dl) _ _ _ _ He).
  - intros later. exact (for_each_Raise_head _ _ _ _ _ He').
  - by eapply (start_export_loop_Raise fzero float fromstring (mkCycle _ _)).
  - apply warnings_process_Response.
Qed.


End Claims.

(** * The claims on concrete runs *)

Section Concrete.

Import Examples.

Local Abbreviation fzero := Sample.fzero.
Local Abbreviation float := Sample.float.
Local Abbreviation fromstring := Sample.fromstring.

(** C2 fails on a device that has a recognized field and no [outlets]
    container: the cycle ends without an error and the gauge of the
    field has no sample for the device. *)
Lemma volts_without_outlets_not_published :
  (cycle (Response volts_without_outlets)).2 = Ok tt
  ∧ is_Some (float "230")
  ∧ sample (cycle (Response volts_without_outlets)).1
           (DeviceMetric "Volts-A" ["7"; "pdu"]) = None.
Proof. split_and!; [|eexists|]; vm_compute; reflexivity. Qed.

(** The amended C2 on a device with one field and no [outlets]. *)
Lemma device_without_outlets_is_skipped_witness :
  attrib device_without_outlets !! "type" = Some "pdu"
  ∧ find device_without_outlets "outlets" = None
  ∧ process_device fzero float device_without_outlets init
    = (logged [(INFO, "Processsing device " +:+ "pdu")] init, Ok tt)
  ∧ instruments (logged [(INFO, "Processsing device " +:+ "pdu")] init)
    = instruments (init (F:=PrimFloat.float)).
Proof.
  assert (Htype : attrib device_without_outlets !! "type" = Some "pdu")
    by (vm_compute; reflexivity).
  assert (Hfind : find device_without_outlets "outlets" = None)
    by (vm_compute; reflexivity).
  split_and!; [done..| |];
    apply (device_without_outlets_is_skipped fzero float
             device_without_outlets "pdu" init Htype Hfind).
Defined.

(** C3 fails on a body that stops in the middle: [process] raises
    [ParseError], the loop ends with it before the next cycle, and no
    warning is logged. *)
Lemma truncated_body_raises :
  fromstring truncated = None
  ∧ (cycle (Response truncated)).2 = Raise ParseError
  ∧ warnings (cycle (Response truncated)).1 = []
  ∧ (loop [mkCycle (Response truncated) "0.00"; mkCycle (Response realpower) "0.01"]).2
    = Raise ParseError
  ∧ logger (loop [mkCycle (Response truncated) "0.00";
                  mkCycle (Response realpower) "0.01"]).1
    = [(INFO, "Starting process..")].
Proof. split_and!; vm_compute; reflexivity. Qed.

(** The amended C3 on the truncated body. *)
Lemma malformed_body_raises_out_of_the_loop_witness :
  fromstring truncated = None
  ∧ process fzero float fromstring (Response truncated) init
    = (logged [(INFO, "Starting process..")] init, Raise ParseError).
Proof.
  assert (Hbody : fromstring truncated = None) by (vm_compute; reflexivity).
  split; [done|].
  apply (malformed_body_raises_out_of_the_loop fzero float fromstring
           truncated "0.00" [] init Hbody).
Defined.

(** C10 on a device with [<outlets/>]. *)
Lemma device_with_empty_outlets_is_skipped_witness :
  find device_with_empty_outlets "outlets" = Some (element "outlets" [] [])
  ∧ children (element "outlets" [] []) = []
  ∧ instruments (process_device fzero float device_with_empty_outlets init).1
    = instruments (init (F:=PrimFloat.float)).
Proof.
  assert (Hfind : find device_with_empty_outlets "outlets"
                  = Some (element "outlets" [] [])) by (vm_compute; reflexivity).
  assert (Hempty : children (element "outlets" [] []) = []) by reflexivity.
  split_and!; [done..|].
  apply (device_with_empty_outlets_is_skipped fzero float
           device_with_empty_outlets _ init Hfind Hempty).
Defined.

(** C9 on a field with the key [Foo-Bar]. *)
Lemma unknown_field_key_is_ignored_witness :
  tag unknown_field = "field"
  ∧ attrib unknown_field !! "key" = Some "Foo-Bar"
  ∧ device_metrics (init (F:=PrimFloat.float)) !! "Foo-Bar" = None
  ∧ process_child fzero float unknown_field plain_labels init = (init, Ok tt)
  ∧ instrument_names
      (start_export_loop fzero float fromstring
         [mkCycle (Response realpower) "0.01"; mkCycle (Response truncated) "0.00"]
         init).1
    = instrument_names (init (F:=PrimFloat.float)).
Proof.
  assert (Htag : tag unknown_field = "field") by reflexivity.
  assert (Hkey : attrib unknown_field !! "key" = Some "Foo-Bar")
    by (vm_compute; reflexivity).
  assert (Hinit : device_metrics (init (F:=PrimFloat.float)) !! "Foo-Bar" = None)
    by (vm_compute; reflexivity).
  split_and!; [done..| |];
    apply (unknown_field_key_is_ignored fzero float fromstring
             unknown_field "Foo-Bar" plain_labels
             [mkCycle (Response realpower) "0.01"; mkCycle (Response truncated) "0.00"]
             init eq_refl Htag Hkey Hinit).
Defined.

(** C4 fails on two outlets of which the first lacks [watts]: the cycle
    ends with [KeyError], without a warning; the first outlet was not
    skipped (its [amps] gauge is set, and its [watts] gauge has a child,
    at zero), and the second outlet was not processed. *)
Lemma missing_watts_aborts :
  (cycle (Response missing_watts)).2 = Raise (KeyError "watts")
  ∧ warnings (cycle (Response missing_watts)).1 = []
  ∧ sample (cycle (Response missing_watts)).1
           (OutletMetric 0 ["a"; "1"; "u1"; "1"; "pdu"]) = inl <$> float "1.5"
  ∧ sample (cycle (Response missing_watts)).1
           (OutletMetric 2 ["a"; "1"; "u1"; "1"; "pdu"]) = Some (inl fzero)
  ∧ sample (cycle (Response missing_watts)).1
           (OutletMetric 0 ["b"; "2"; "u2"; "1"; "pdu"]) = None.
Proof. split_and!; vm_compute; reflexivity. Qed.

(** C5 fails on two outlets of which the first has the status
    [Standby]: the cycle ends with [ValueError], without a warning; the
    second outlet was not processed; and the label-set of the first, which
    had no state before, now has one, the first state [On]. *)
Lemma standby_aborts :
  (cycle (Response standby)).2 = Raise (ValueError (NotInList "Standby"))
  ∧ warnings (cycle (Response standby)).1 = []
  ∧ sample (init (F:=PrimFloat.float)) (OutletStatus ["a"; "1"; "u1"; "1"; "pdu"]) = None
  ∧ sample (cycle (Response standby)).1
           (OutletStatus ["a"; "1"; "u1"; "1"; "pdu"]) = Some (inr 0)
  ∧ sample (cycle (Response standby)).1
           (OutletMetric 0 ["b"; "2"; "u2"; "1"; "pdu"]) = None
  ∧ sample (cycle (Response standby)).1
           (OutletStatus ["b"; "2"; "u2"; "1"; "pdu"]) = None.
Proof. split_and!; vm_compute; reflexivity. Qed.

(** C6 fails on the device with just the field: it has no [outlets]
    container, so it is skipped and the gauge has no sample for it. *)
Lemma realpower_without_outlets_not_published :
  is_Some (fromstring realpower_without_outlets)
  ∧ is_Some (float "123.4")
  ∧ (cycle (Response realpower_without_outlets)).2 = Ok tt
  ∧ sample (cycle (Response realpower_without_outlets)).1
           (DeviceMetric "RealPower-A" ["1"; "pdu"]) = None.
Proof. split_and!; [eexists|eexists|..]; vm_compute; reflexivity. Qed.

(** Called by hand with a device label-set that has a [name] of its
    own, which [process_device] never builds, [process_outlet] addresses
    the instruments with the name from the device. *)
Lemma colliding_name_comes_from_device :
  attrib outlet_b !! "name" = Some "b"
  ∧ colliding_labels !! "name" = Some "from-device"
  ∧ (run_outlet outlet_b colliding_labels).2 = Ok tt
  ∧ sample (run_outlet outlet_b colliding_labels).1
           (OutletStatus ["from-device"; "2"; "u2"; "1"; "pdu"]) = Some (inr 1)
  ∧ sample (run_outlet outlet_b colliding_labels).1
           (OutletMetric 0 ["from-device"; "2"; "u2"; "1"; "pdu"]) = inl <$> float "0.5"
  ∧ sample (run_outlet outlet_b colliding_labels).1
           (OutletStatus ["b"; "2"; "u2"; "1"; "pdu"]) = None
  ∧ sample (run_outlet outlet_b colliding_labels).1
           (OutletMetric 0 ["b"; "2"; "u2"; "1"; "pdu"]) = None.
Proof. split_and!; vm_compute; reflexivity. Qed.

End Concrete.


(** * More about the exporter *)

Lemma Uniform_keeps_samples {S Sh L V A} (shape : S → Sh) (view : S → L → option V)
    (dflt : L → V) (sh : Sh) (m : M S A) s l :
  Uniform shape view dflt sh m → shape s = sh →
  is_Some (view s l) → is_Some (view (m s).1 l).
Proof.
  intros (E & r & Hm) Hs [v Hv]. destruct (Hm s Hs) as (_ & _ & Hview).
  rewrite Hview, Hv. destruct (E l); simpl; eauto.
Qed.

Lemma Uniform_result {S Sh L V A} (shape : S → Sh) (view : S → L → option V)
    (dflt : L → V) (sh : Sh) (m : M S A) s s' :
  Uniform shape view dflt sh m → shape s = sh → shape s' = sh → (m s).2 = (m s').2.
Proof.
  intros (E & r & Hm) Hs Hs'.
  destruct (Hm s Hs) as (_ & -> & _). by destruct (Hm s' Hs') as (_ & -> & _).
Qed.

Section Polling.

Context {F : Type}.
Variable fzero : F.
Variable float : string → option F.
Variable fromstring : string → option Element.

(** X1.  No run of the polling loop removes a time series: a label-set
    that has a sample keeps having one, whatever the later cycles bring
    and however the loop ends. *)
Theorem samples_never_disappear cycles self series :
  is_Some (sample self series) →
  is_Some (sample (start_export_loop fzero float fromstring cycles self).1 series).
Proof.
  revert self. induction cycles as [|c rest IH]; intros self Hself; simpl; [done|].
  apply (bind_invariant (λ s, is_Some (sample s series))).
  { eapply Uniform_keeps_samples; [apply Uniform_process|done..]. }
  intros _ s1 Hs1.
  apply (bind_invariant (λ s, is_Some (sample s series))).
  { by destruct series. }
  intros _ s2 Hs2. by apply IH.
Qed.

Lemma process_result_declaration outcome self self' :
  declaration self = declaration self' →
  (process fzero float fromstring outcome self).2
  = (process fzero float fromstring outcome self').2.
Proof.
  intros Hdecl.
  by eapply Uniform_result; [apply (Uniform_process _ _ _ (declaration self'))|..].
Qed.

(** X2.  How a cycle ends depends on what the request brought and not
    on the samples the instruments hold: from two exporters with the
    same declared instruments, [process] returns, or raises the same
    exception, alike. *)
Theorem cycle_result_ignores_samples outcome self self' :
  declaration self = declaration self' →
  (process fzero float fromstring outcome self).2
  = (process fzero float fromstring outcome self').2.
Proof. apply process_result_declaration. Qed.

Lemma start_export_loop_Ok_iff cycles self0 self :
  declaration self = declaration self0 →
  (start_export_loop fzero float fromstring cycles self).2 = Ok tt
  ↔ Forall (λ c, (process fzero float fromstring (outcome c) self0).2 = Ok tt) cycles.
Proof.
  revert self. induction cycles as [|c rest IH]; intros self Hdecl; simpl.
  { split; [constructor|done]. }
  rewrite Forall_cons, bind_fst_snd.
  rewrite <- (process_result_declaration (outcome c) self self0 Hdecl).
  destruct (process _ _ _ (outcome c) self).2 as [[]|e] eqn:Hc.
  - rewrite bind_fst_snd. simpl. rewrite IH; [tauto|].
    rewrite <- Hdecl. apply declaration_process.
  - simpl. split; [done|]. by intros [? _].
Qed.

Lemma start_export_loop_app before rest self :
  (start_export_loop fzero float fromstring before self).2 = Ok tt →
  start_export_loop fzero float fromstring (before ++ rest) self
  = start_export_loop fzero float fromstring rest
      (start_export_loop fzero float fromstring before self).1.
Proof.
  revert self. induction before as [|c before IH]; intros self Hok; [done|].
  cbn [app start_export_loop] in Hok |- *. unfold bind in Hok |- *.
  destruct (process _ _ _ (outcome c) self) as [s1 [[]|e]]; [|done].
  cbn [log] in Hok |- *. by apply IH.
Qed.

(** X3.  The polling loop gets through a sequence of cycles exactly when
    [process] returns for every one of them (each taken from the
    exporter the loop starts with: the samples gathered on the way make
    no difference).  And the first cycle for which [process] raises ends
    the loop: the loop leaves the exporter as that call of [process]
    leaves it and raises its exception; no record of completion is
    logged for that cycle, and no later cycle is run.  The loop is the
    one modelled above: between the cycles [time.sleep] returns. *)
Theorem loop_survives_iff_every_cycle_does cycles self :
  ((start_export_loop fzero float fromstring cycles self).2 = Ok tt
   ↔ Forall (λ c, (process fzero float fromstring (outcome c) self).2 = Ok tt) cycles)
  ∧ ∀ before c rest e,
      cycles = before ++ c :: rest →
      Forall (λ c, (process fzero float fromstring (outcome c) self).2 = Ok tt) before →
      (process fzero float fromstring (outcome c) self).2 = Raise e →
      let reached := (start_export_loop fzero float fromstring before self).1 in
      start_export_loop fzero float fromstring cycles self
      = process fzero float fromstring (outcome c) reached
      ∧ (process fzero float fromstring (outcome c) reached).2 = Raise e.
Proof.
  split; [by apply start_export_loop_Ok_iff|].
  intros before c rest e -> Hbefore Hc reached.
  assert (Hok : (start_export_loop fzero float fromstring before self).2 = Ok tt)
    by (by apply (start_export_loop_Ok_iff before self self)).
  assert (Hraise : (process fzero float fromstring (outcome c) reached).2 = Raise e).
  { rewrite <- Hc. apply process_result_declaration. apply declaration_start_export_loop. }
  split; [|done]. rewrite start_export_loop_app by done.
  by apply (start_export_loop_Raise fzero float fromstring c rest _ e).
Qed.

(** X4.  The only warning the exporter ever logs is the one for a
    connection error: a cycle adds that warning when the request raised
    [requests.ConnectionError], and no warning otherwise, whatever is
    wrong with the response. *)
Theorem warnings_only_for_connection_errors outcome self :
  warnings (process fzero float fromstring outcome self).1
  = warnings self
    ++ match outcome with
       | ConnectionError strerror =>
           ["Exception while connecting to device: " +:+ strerror]
       | _ => []
       end.
Proof.
  destruct outcome as [body|strerror|description].
  - rewrite app_nil_r. apply warnings_process_Response.
  - unfold warnings, process, fetch, bind, log. simpl.
    rewrite !filter_app, !fmap_app. simpl. by rewrite app_nil_r.
  - unfold warnings, process, fetch, bind, log. simpl.
    rewrite !filter_app, !fmap_app. simpl. by rewrite !app_nil_r.
Qed.

(** X5.  An exception of [requests.get] that is not a
    [requests.ConnectionError], a read timeout for one, is not caught:
    it leaves [process] and the polling loop as it is, after the record
    of the start of the cycle, and no instrument has changed. *)
Theorem other_request_exceptions_propagate description elapsed rest self :
  process fzero float fromstring (OtherRequestException description) self
    = (logged [(INFO, "Starting process..")] self, Raise (RequestException description))
  ∧ start_export_loop fzero float fromstring
      (mkCycle (OtherRequestException description) elapsed :: rest) self
    = (logged [(INFO, "Starting process..")] self, Raise (RequestException description))
  ∧ instruments (logged [(INFO, "Starting process..")] self) = instruments self.
Proof.
  assert (Hp : process fzero float fromstring (OtherRequestException description) self
               = (logged [(INFO, "Starting process..")] self,
                  Raise (RequestException description))) by done.
  split_and!; [done| |done]. simpl. by apply bind_Raise.
Qed.

(** X6.  A well-formed body whose root has no [devices] child makes the
    cycle raise [TypeError] (the loop over [None]): the exception leaves
    [process] and the polling loop, and no instrument has changed. *)
Theorem missing_devices_container_raises body root elapsed rest self :
  fromstring body = Some root →
  find root "devices" = None →
  process fzero float fromstring (Response body) self
    = (logged [(INFO, "Starting process..")] self, Raise TypeError_NoneType_not_iterable)
  ∧ start_export_loop fzero float fromstring
      (mkCycle (Response body) elapsed :: rest) self
    = (logged [(INFO, "Starting process..")] self, Raise TypeError_NoneType_not_iterable).
Proof.
  intros Hbody Hfind.
  assert (Hp : process fzero float fromstring (Response body) self
               = (logged [(INFO, "Starting process..")] self,
                  Raise TypeError_NoneType_not_iterable)).
  { unfold process. rewrite (bind_Ok _ _ self (logged [(INFO, "Starting process..")] self) tt)
      by done.
    by rewrite bind_fst_snd, fetch_Response, Hbody; simpl; rewrite Hfind. }
  split; [done|]. simpl. by apply bind_Raise.
Qed.

(** X15.  [fetch] hands an element to its caller exactly when the
    request returned a body and the body parses; in every other case it
    raises.  It never touches an instrument, and it logs at most the
    warning for a connection error. *)
Theorem fetch_returns_iff_response_parses outcome root (self : Exporter (F:=F)) :
  ((fetch fromstring outcome self).2 = Ok root
   ↔ ∃ body, outcome = Response body ∧ fromstring body = Some root)
  ∧ instruments (fetch fromstring outcome self).1 = instruments self
  ∧ logger (fetch fromstring outcome self).1
    = logger self
      ++ match outcome with
         | ConnectionError strerror =>
             [(WARNING, "Exception while connecting to device: " +:+ strerror)]
         | _ => []
         end.
Proof.
  destruct outcome as [body|strerror|description].
  - rewrite fetch_Response. cbn [fst snd]. rewrite app_nil_r. split_and!; [|done..].
    split.
    + destruct (fromstring body) as [root'|] eqn:Hbody; intros [= ->]. by exists body.
    + intros (? & [= <-] & ->). done.
  - split_and!; [|done..]. split; [done|]. by intros (? & ? & _).
  - split_and!; [|done|by rewrite app_nil_r]. split; [done|]. by intros (? & ? & _).
Qed.

(** X7.  The attributes [process_device] needs of a device.  Without a
    [type] it raises [KeyError] at once, before the log record and before
    the test of the outlets, so also for a device it would skip.  With a
    [type], outlets with children and no [id] it raises [KeyError] after
    the log record.  In both cases no instrument has changed. *)
Theorem device_without_type_or_id_raises device self :
  (attrib device !! "type" = None →
   process_device fzero float device self = (self, Raise (KeyError "type")))
  ∧ (∀ type,
       attrib device !! "type" = Some type →
       truthy (find device "outlets") = true →
       device_labels self = ["id"; "type"] →
       attrib device !! "id" = None →
       process_device fzero float device self
       = (logged [(INFO, "Processsing device " +:+ type)] self, Raise (KeyError "id"))).
Proof.
  split.
  - intros Htype. unfold process_device. by rewrite bind_fst_snd, getitem_run, Htype.
  - intros type Htype Htruthy Hlabels Hid. unfold process_device.
    rewrite bind_fst_snd, getitem_run, Htype. simpl.
    rewrite (bind_Ok _ _ self (logged [(INFO, "Processsing device " +:+ type)] self) tt)
      by done.
    rewrite Htruthy. simpl. rewrite bind_fst_snd. simpl. rewrite Hlabels.
    rewrite bind_fst_snd, dict_of_labels_run. unfold eval. simpl.
    by rewrite bind_fst_snd, getitem_run, Hid.
Qed.

End Polling.

(** ** Outlets that are well formed *)

Lemma dict_of_labels_outlet (d : gmap string string) (n m u : string) :
  d !! "name" = Some n →
  d !! "num" = Some m →
  d !! "url" = Some u →
  eval (dict_of_labels d ["name"; "num"; "url"])
  = Ok (<["name" := n]> (<["num" := m]> (<["url" := u]> ∅))).
Proof.
  intros Hn Hm Hu. unfold eval. simpl. unfold bind, getitem, ret.
  by rewrite Hn, Hm, Hu.
Qed.

Lemma labelvalues_outlet (n m u i t : string) :
  eval (labelvalues ["name"; "num"; "url"; "id"; "type"]
          (<["id" := i]> (<["type" := t]> ∅)
           ∪ <["name" := n]> (<["num" := m]> (<["url" := u]> ∅))))
  = Ok [n; m; u; i; t].
Proof. vm_compute. reflexivity. Qed.

Section Publishing.

Context {F : Type}.
Variable fzero : F.
Variable float : string → option F.

Lemma declared_outlet_metrics (self : Exporter (F:=F)) :
  declaration self = declaration (init (F:=F)) →
  ∃ g1 g2 g3,
    outlet_metrics self = [("amps", g1); ("kwatthrs", g2); ("watts", g3)]
    ∧ gauge_labelnames g1 = ["name"; "num"; "url"; "id"; "type"]
    ∧ gauge_labelnames g2 = ["name"; "num"; "url"; "id"; "type"]
    ∧ gauge_labelnames g3 = ["name"; "num"; "url"; "id"; "type"].
Proof.
  intros H. apply (f_equal decl_outlet_metrics) in H.
  unfold declaration in H. cbn [decl_outlet_metrics] in H.
  destruct (outlet_metrics self) as [|[a1 g1] [|[a2 g2] [|[a3 g3] [|]]]];
    try discriminate H.
  unfold items_decl, init, gauge_decl in H. simpl in H.
  injection H as -> ? ? ? -> ? ? ? -> ? ? ?. by exists g1, g2, g3.
Qed.

Lemma index_in_states (status : string) (idx : nat) :
  ["On"; "Off"] !! idx = Some status →
  list_find (λ x, x = status) ["On"; "Off"] = Some (idx, status).
Proof.
  destruct idx as [|[|idx]]; simpl; intros [= <-]; try done.
Qed.

(** What [process_outlet] does with an outlet that has all it needs. *)
Lemma process_outlet_well_formed outlet (n m u i t sa sk sw status : string)
    va vk vw idx self :
  declaration self = declaration (init (F:=F)) →
  attrib outlet !! "name" = Some n →
  attrib outlet !! "num" = Some m →
  attrib outlet !! "url" = Some u →
  attrib outlet !! "amps" = Some sa → float sa = Some va →
  attrib outlet !! "kwatthrs" = Some sk → float sk = Some vk →
  attrib outlet !! "watts" = Some sw → float sw = Some vw →
  attrib outlet !! "status" = Some status →
  ["On"; "Off"] !! idx = Some status →
  ∃ g1 g2 g3,
    outlet_metrics self = [("amps", g1); ("kwatthrs", g2); ("watts", g3)]
    ∧ process_outlet fzero float outlet (<["id" := i]> (<["type" := t]> ∅)) self
      = (let k := [n; m; u; i; t] in
         let set v g := set_gauge_metrics <[k := v]> (set_gauge_metrics (ensure fzero k) g) in
         mkExporter (device_labels self) (outlet_labels self) (device_metrics self)
           [("amps", set va g1); ("kwatthrs", set vk g2); ("watts", set vw g3)]
           (set_enum_metrics <[k := idx]>
              (set_enum_metrics (ensure 0 k) (outlet_status self)))
           (logger self ++ [(INFO, "Processsing outlet " +:+ m)]),
         Ok tt).
Proof.
  intros Hdecl Hn Hm Hu Hsa Hva Hsk Hvk Hsw Hvw Hstatus Hidx.
  destruct (declared_outlet_metrics _ Hdecl) as (g1 & g2 & g3 & Hom & H1 & H2 & H3).
  destruct (declared_status_labelnames _ Hdecl) as [Hnames Hstates].
  exists g1, g2, g3. split; [done|].
  rewrite process_outlet_run, Hm, (declared_outlet_labels _ Hdecl).
  rewrite (dict_of_labels_outlet _ n m u) by done. cbv zeta.
  unfold bind at 1. unfold with_outlet_metrics. cbn [log fst outlet_metrics].
  rewrite Hom. cbn [for_items].
  rewrite !labels_set_float_run, H1, H2, H3, !labelvalues_outlet.
  cbv zeta. rewrite Hsa, Hva, Hsk, Hvk, Hsw, Hvw.
  unfold with_outlet_status. cbn [outlet_status].
  rewrite status_run, Hnames, labelvalues_outlet, Hstatus, Hstates.
  cbv zeta. rewrite (index_in_states _ _ Hidx). simpl.
  by rewrite ?(declared_outlet_labels _ Hdecl).
Qed.

(** X8.  An outlet with its three labels, three measurements that
    [float] accepts and a status that is a state of the enum is
    published whatever the instruments held before: under the label
    values (name, num, url, id, type) the three outlet gauges hold the
    floats of [amps], [kwatthrs] and [watts] and the enum is in the state
    of [status]; no other time series changes. *)
Theorem well_formed_outlet_is_published outlet (n m u i t sa sk sw status : string)
    va vk vw idx self :
  declaration self = declaration (init (F:=F)) →
  attrib outlet !! "name" = Some n →
  attrib outlet !! "num" = Some m →
  attrib outlet !! "url" = Some u →
  attrib outlet !! "amps" = Some sa → float sa = Some va →
  attrib outlet !! "kwatthrs" = Some sk → float sk = Some vk →
  attrib outlet !! "watts" = Some sw → float sw = Some vw →
  attrib outlet !! "status" = Some status →
  ["On"; "Off"] !! idx = Some status →
  let run := process_outlet fzero float outlet (<["id" := i]> (<["type" := t]> ∅)) self in
  let k := [n; m; u; i; t] in
  run.2 = Ok tt
  ∧ sample run.1 (OutletMetric 0 k) = Some (inl va)
  ∧ sample run.1 (OutletMetric 1 k) = Some (inl vk)
  ∧ sample run.1 (OutletMetric 2 k) = Some (inl vw)
  ∧ sample run.1 (OutletStatus k) = Some (inr idx)
  ∧ ∀ series,
      series ∉ [OutletMetric 0 k; OutletMetric 1 k; OutletMetric 2 k; OutletStatus k] →
      sample run.1 series = sample self series.
Proof.
  intros Hdecl Hn Hm Hu Hsa Hva Hsk Hvk Hsw Hvw Hstatus Hidx run k.
  destruct (process_outlet_well_formed outlet n m u i t sa sk sw status va vk vw idx self)
    as (g1 & g2 & g3 & Hom & Hrun); [done..|].
  unfold run. rewrite Hrun. cbv zeta. fold k. simpl.
  rewrite !lookup_insert_eq. split_and!; [done..|].
  intros series Hseries.
  repeat (apply not_elem_of_cons in Hseries as [? Hseries]).
  destruct series as [key k'|j k'|k']; simpl.
  - done.
  - rewrite Hom.
    destruct j as [|[|[|j]]]; simpl; [| | |done];
      (rewrite lookup_insert_ne by congruence);
      (rewrite (lookup_ensure fzero), decide_False by congruence); done.
  - rewrite lookup_insert_ne by congruence.
    by rewrite (lookup_ensure 0), decide_False by congruence.
Qed.

Lemma dict_of_labels_present (d : gmap string string) names ol :
  eval (dict_of_labels d names) = Ok ol → ∀ l, l ∈ names → is_Some (d !! l).
Proof.
  revert ol. induction names as [|n rest IH]; intros ol Hol l Hl;
    [by apply elem_of_nil in Hl|].
  unfold eval in Hol. simpl in Hol. rewrite bind_fst_snd, getitem_run in Hol.
  simpl in Hol. destruct (d !! n) as [v|] eqn:Hn; [|done].
  rewrite bind_fst_snd, dict_of_labels_run in Hol. simpl in Hol.
  destruct (eval (dict_of_labels d rest)) as [m|] eqn:Hm; [|done].
  apply elem_of_cons in Hl as [->|Hl]; [by eauto|]. by apply (IH m).
Qed.

Lemma process_outlet_passes_iff outlet (i t : string) self :
  declaration self = declaration (init (F:=F)) →
  (process_outlet fzero float outlet (<["id" := i]> (<["type" := t]> ∅)) self).2 = Ok tt
  ↔ well_formed_outlet float outlet.
Proof.
  intros Hdecl. split.
  - intros Hok.
    destruct (process_outlet _ _ _ _ _) as [self' r] eqn:Hrun. simpl in Hok. subst r.
    apply process_outlet_Ok in Hrun
      as (ol & items & status & Hol & Hitems & Hst & _ & _ & _).
    rewrite (declared_outlet_labels _ Hdecl) in Hol.
    destruct (declared_outlet_metrics _ Hdecl) as (g1 & g2 & g3 & Hom & _).
    destruct (declared_status_labelnames _ Hdecl) as [_ Hstates].
    split_and!.
    + intros a Ha. by eapply dict_of_labels_present.
    + intros a Ha. apply for_items_Ok in Hitems. rewrite Hom in Hitems.
      assert (∃ j g, [("amps", g1); ("kwatthrs", g2); ("watts", g3)] !! j = Some (a, g))
        as (j & g & Hj).
      { rewrite !elem_of_cons, elem_of_nil in Ha.
        destruct Ha as [->|[->|[->|[]]]];
          [by exists 0, g1|by exists 1, g2|by exists 2, g3]. }
      destruct (Forall2_lookup_l _ _ _ _ _ Hitems Hj) as ([a' g'] & _ & _ & Hbody).
      simpl in Hbody.
      apply labels_set_float_Ok in Hbody as (_ & str & v & _ & Hstr & Hv & _).
      exists str. split; [done|]. by rewrite Hv.
    + apply status_Ok in Hst as (_ & str & idx & _ & Hstr & Hidx & _).
      exists str. split; [done|]. rewrite Hstates in Hidx.
      apply list_elem_of_lookup. by exists idx.
  - intros (Hlabels & Hmeasurements & (status & Hstatus & Hstate)).
    destruct (Hlabels "name") as [n Hn]; [rewrite !elem_of_cons; auto|].
    destruct (Hlabels "num") as [m Hm]; [rewrite !elem_of_cons; auto|].
    destruct (Hlabels "url") as [u Hu]; [rewrite !elem_of_cons; auto|].
    destruct (Hmeasurements "amps") as (sa & Hsa & [va Hva]); [rewrite !elem_of_cons; auto|].
    destruct (Hmeasurements "kwatthrs") as (sk & Hsk & [vk Hvk]);
      [rewrite !elem_of_cons; auto|].
    destruct (Hmeasurements "watts") as (sw & Hsw & [vw Hvw]);
      [rewrite !elem_of_cons; auto|].
    apply list_elem_of_lookup in Hstate as [idx Hidx].
    destruct (process_outlet_well_formed outlet n m u i t sa sk sw status va vk vw idx self)
      as (g1 & g2 & g3 & _ & Hrun); [done..|].
    by rewrite Hrun.
Qed.

(** X9.  [process_outlet] returns without an exception exactly for the
    well-formed outlets: every missing label or measurement, every
    measurement that [float] rejects and every status outside [On] and
    [Off] makes it raise. *)
Theorem outlet_passes_iff_well_formed outlet (i t : string) self :
  declaration self = declaration (init (F:=F)) →
  (process_outlet fzero float outlet (<["id" := i]> (<["type" := t]> ∅)) self).2 = Ok tt
  ↔ well_formed_outlet float outlet.
Proof. intros Hdecl. by apply process_outlet_passes_iff. Qed.

End Publishing.

(** ** Documents that are well formed *)

Lemma for_each_Ok_iff {S A} (I : S → Prop) (P : A → Prop) (body : A → M S unit) l s :
  (∀ x s', I s' → I (body x s').1) →
  (∀ x s', I s' → (body x s').2 = Ok tt ↔ P x) →
  I s →
  (for_each body l s).2 = Ok tt ↔ Forall P l.
Proof.
  intros Hinv Hbody. revert s. induction l as [|x l IH]; intros s Hs; simpl.
  { split; [constructor|done]. }
  rewrite Forall_cons, bind_fst_snd, <- (Hbody x s Hs).
  destruct (body x s).2 as [[]|e] eqn:Hx.
  - rewrite IH; [tauto|]. by apply Hinv.
  - simpl. split; [done|]. by intros [? _].
Qed.

Lemma bind_unit_Ok_iff {S} (m k : M S unit) s :
  (bind m (λ _, k) s).2 = Ok tt ↔ (m s).2 = Ok tt ∧ (k (m s).1).2 = Ok tt.
Proof.
  rewrite bind_fst_snd. destruct (m s).2 as [[]|e]; simpl; [tauto|].
  split; [done|]. by intros [? _].
Qed.

Section Documents.

Context {F : Type}.
Variable fzero : F.
Variable float : string → option F.
Variable fromstring : string → option Element.

Lemma process_child_passes_iff child (i t : string) self :
  declaration self = declaration (init (F:=F)) →
  (process_child fzero float child (<["id" := i]> (<["type" := t]> ∅)) self).2 = Ok tt
  ↔ well_formed_child float child.
Proof.
  intros Hdecl. split; [|by apply process_child_well_formed].
  unfold process_child, well_formed_child. intros Hok Htag.
  rewrite bool_decide_eq_true_2 in Hok by done.
  rewrite bind_fst_snd, getitem_run in Hok.
  destruct (attrib child !! "key") as [key|] eqn:Hkey; [|done]. simpl in Hok.
  exists key. split; [done|]. intros [g0 Hinit].
  unfold with_device_metric in Hok.
  assert (Hl := f_equal (λ d, decl_device_metrics d !! key) Hdecl).
  unfold declaration in Hl. cbn [decl_device_metrics] in Hl.
  rewrite !lookup_fmap, Hinit in Hl.
  destruct (device_metrics self !! key) as [g|] eqn:Hg; [|done].
  destruct (declared_device_metrics _ _ _ Hdecl Hg) as (_ & Hnames & _).
  rewrite labels_set_float_run, Hnames, labelvalues_device in Hok.
  destruct (attrib child !! "value") as [s|]; [|done].
  exists s. split; [done|]. by destruct (float s).
Qed.

Lemma process_device_passes_iff device self :
  declaration self = declaration (init (F:=F)) →
  (process_device fzero float device self).2 = Ok tt
  ↔ well_formed_device float device.
Proof.
  intros Hdecl. unfold process_device, well_formed_device.
  rewrite bind_fst_snd, getitem_run.
  destruct (attrib device !! "type") as [type|] eqn:Htype; cbn [fst snd].
  2: { split; [done|]. by intros [[? ?] _]. }
  rewrite (bind_Ok _ _ self (logged [(INFO, "Processsing device " +:+ type)] self) tt)
    by done.
  destruct (truthy (find device "outlets")) eqn:Htruthy; cbn [negb].
  2: { split; [|done]. intros _. split; [by eauto|done]. }
  rewrite bind_fst_snd. cbn [gets fst snd].
  change (device_labels (logged _ self)) with (device_labels self).
  rewrite (declared_device_labels _ Hdecl).
  rewrite bind_fst_snd, dict_of_labels_run. cbn [fst snd].
  destruct (attrib device !! "id") as [id|] eqn:Hid.
  2: { assert (Hd : eval (dict_of_labels (attrib device) ["id"; "type"])
                    = Raise (KeyError "id")).
       { unfold eval. simpl. by rewrite bind_fst_snd, getitem_run, Hid. }
       rewrite Hd. split; [done|]. intros (_ & Hwf). by destruct (Hwf eq_refl) as [[? ?] _]. }
  rewrite (dict_of_labels_device _ id type) by done.
  set (dl := <["id" := id]> (<["type" := type]> ∅)).
  set (declared := λ s : Exporter (F:=F), declaration s = declaration (init (F:=F))).
  set (s1 := logged [(INFO, "Processsing device " +:+ type)] self).
  assert (Hs1 : declared s1) by done.
  rewrite bind_unit_Ok_iff.
  rewrite (for_each_Ok_iff declared (well_formed_child float)
             (λ child, process_child fzero float child dl) (children device) s1);
    [| |by intros; apply process_child_passes_iff|done].
  2: { intros child s' Hs'. unfold declared. by rewrite declaration_process_child. }
  rewrite (for_each_Ok_iff declared (well_formed_outlet float)
             (λ outlet, process_outlet fzero float outlet dl));
    [| |by intros; apply process_outlet_passes_iff|].
  - split; [intros [? ?]; split; [by eauto|intros _; by eauto]|].
    intros (_ & Hwf). by destruct (Hwf eq_refl) as (_ & ? & ?).
  - intros outlet s' Hs'. unfold declared. by rewrite declaration_process_outlet.
  - apply for_each_invariant; [|done].
    intros child s' Hs'. unfold declared. by rewrite declaration_process_child.
Qed.

(** X10.  [process_device] returns without an exception exactly for the
    well-formed devices: a device needs a [type]; and when its [outlets]
    container has children it also needs an [id], fields with a key
    and, for a recognized key, a value that [float] accepts, and
    well-formed outlets.  A device whose outlets are absent or empty
    needs nothing but the [type]. *)
Theorem device_passes_iff_well_formed device self :
  declaration self = declaration (init (F:=F)) →
  (process_device fzero float device self).2 = Ok tt
  ↔ well_formed_device float device.
Proof. intros Hdecl. by apply process_device_passes_iff. Qed.

(** X11.  A cycle whose request returned completes without an exception
    exactly when the body parses and the document is well formed: its
    root has a [devices] child and every child of that is a well-formed
    device. *)
Theorem cycle_passes_iff_well_formed body self :
  declaration self = declaration (init (F:=F)) →
  (process fzero float fromstring (Response body) self).2 = Ok tt
  ↔ ∃ root, fromstring body = Some root ∧ well_formed_document float root.
Proof.
  intros Hdecl. unfold process, well_formed_document.
  rewrite (bind_Ok _ _ self (logged [(INFO, "Starting process..")] self) tt) by done.
  rewrite bind_fst_snd, fetch_Response.
  destruct (fromstring body) as [root|]; cbn [fst snd].
  2: { split; [done|]. by intros (? & ? & _). }
  destruct (find root "devices") as [devices|] eqn:Hdevices.
  2: { split; [done|]. intros (? & [= <-] & ? & ? & _). congruence. }
  rewrite (for_each_Ok_iff (λ s : Exporter (F:=F), declaration s = declaration (init (F:=F)))
             (well_formed_device float));
    [|by intros; rewrite declaration_process_device
     |by intros; apply process_device_passes_iff|done].
  split.
  - intros Hwf. exists root. split; [done|]. by exists devices.
  - intros (? & [= <-] & ? & Hfind & Hwf). rewrite Hdevices in Hfind.
    by injection Hfind as <-.
Qed.

Lemma last_field_snoc key (l : list Element) child :
  last_field key (l ++ [child])
  = if decide (tag child = "field" ∧ attrib child !! "key" = Some key)
    then Some child else last_field key l.
Proof.
  unfold last_field. rewrite filter_app, filter_cons, filter_nil. cbv beta.
  destruct (decide _) as [H|H]; [apply last_snoc|by rewrite app_nil_r].
Qed.

Lemma process_child_sets_key child key (i t s : string) v self :
  declaration self = declaration (init (F:=F)) →
  tag child = "field" →
  attrib child !! "key" = Some key →
  is_Some (device_metrics (init (F:=F)) !! key) →
  attrib child !! "value" = Some s →
  float s = Some v →
  sample (process_child fzero float child (<["id" := i]> (<["type" := t]> ∅)) self).1
         (DeviceMetric key [i; t]) = Some (inl v).
Proof.
  intros Hdecl Htag Hkey [g0 Hinit] Hs Hv. unfold process_child.
  rewrite bool_decide_eq_true_2 by done.
  rewrite bind_fst_snd, getitem_run, Hkey. cbn [fst snd].
  unfold with_device_metric.
  assert (Hl := f_equal (λ d, decl_device_metrics d !! key) Hdecl).
  unfold declaration in Hl. cbn [decl_device_metrics] in Hl.
  rewrite !lookup_fmap, Hinit in Hl.
  destruct (device_metrics self !! key) as [g|] eqn:Hg; [|done].
  destruct (declared_device_metrics _ _ _ Hdecl Hg) as (_ & Hnames & _).
  rewrite labels_set_float_run, Hnames, labelvalues_device, Hs, Hv. simpl.
  rewrite lookup_insert_eq. simpl. by rewrite lookup_insert_eq.
Qed.

Lemma children_loop_last_field key (i t : string) l self :
  declaration self = declaration (init (F:=F)) →
  is_Some (device_metrics (init (F:=F)) !! key) →
  Forall (well_formed_child float) l →
  sample (for_each (λ child, process_child fzero float child
                               (<["id" := i]> (<["type" := t]> ∅))) l self).1
         (DeviceMetric key [i; t])
  = match last_field key l with
    | Some field => inl <$> (attrib field !! "value" ≫= float)
    | None => sample self (DeviceMetric key [i; t])
    end.
Proof.
  intros Hdecl Hkey. induction l as [|child l IH] using rev_ind; intros Hwf; [done|].
  apply Forall_app in Hwf as [Hl Hchild]. rewrite Forall_singleton in Hchild.
  set (dl := <["id" := i]> (<["type" := t]> ∅)).
  destruct (for_each_Ok (λ s, declaration s = declaration (init (F:=F)))
              (λ child, process_child fzero float child dl) l self) as [Hdecl' Hok];
    [|done|].
  { eapply Forall_impl; [exact Hl|]. intros c Hc s' Hs'. split.
    - by rewrite declaration_process_child.
    - by apply process_child_well_formed. }
  rewrite for_each_app, bind_fst_snd, Hok. cbn [for_each]. rewrite bind_ret_fst.
  rewrite last_field_snoc. destruct (decide _) as [[Htag Hk]|Hother].
  - destruct (Hchild Htag) as (key' & Hk' & Hvalue).
    assert (key' = key) as -> by congruence.
    destruct (Hvalue Hkey) as (s & Hs & [v Hv]).
    rewrite Hs. simpl. rewrite Hv. simpl.
    by apply (process_child_sets_key child key i t s v).
  - rewrite <- (IH Hl). unfold sample. rewrite process_child_other_key; [done|].
    intros Htag Hk. by apply Hother.
Qed.

(** X12.  The fields of a device are published before its outlets are
    looked at, and the last field with a key wins.  For a device with
    [id], [type], outlets with children and well-formed fields, after
    [process_device], whether or not an outlet made it raise, the gauge
    of every recognized key holds the float of the last field with that
    key, and what it held before when the device has no such field. *)
Theorem device_fields_last_one_wins device key (i t : string) self :
  declaration self = declaration (init (F:=F)) →
  attrib device !! "id" = Some i →
  attrib device !! "type" = Some t →
  truthy (find device "outlets") = true →
  Forall (well_formed_child float) (children device) →
  is_Some (device_metrics (init (F:=F)) !! key) →
  sample (process_device fzero float device self).1 (DeviceMetric key [i; t])
  = match last_field key (children device) with
    | Some field => inl <$> (attrib field !! "value" ≫= float)
    | None => sample self (DeviceMetric key [i; t])
    end.
Proof.
  intros Hdecl Hid Htype Htruthy Hwf Hkey. unfold process_device.
  rewrite bind_fst_snd, getitem_run, Htype. cbn [fst snd].
  rewrite (bind_Ok _ _ self (logged [(INFO, "Processsing device " +:+ t)] self) tt)
    by done.
  rewrite Htruthy. cbn [negb].
  rewrite bind_fst_snd. cbn [gets fst snd].
  change (device_labels (logged _ self)) with (device_labels self).
  rewrite (declared_device_labels _ Hdecl).
  rewrite bind_fst_snd, dict_of_labels_run, (dict_of_labels_device _ i t) by done.
  cbn [fst snd].
  assert (Hloop :
    sample (for_each (λ child, process_child fzero float child
                                 (<["id" := i]> (<["type" := t]> ∅)))
                     (children device)
                     (logged [(INFO, "Processsing device " +:+ t)] self)).1
           (DeviceMetric key [i; t])
    = match last_field key (children device) with
      | Some field => inl <$> (attrib field !! "value" ≫= float)
      | None => sample self (DeviceMetric key [i; t])
      end).
  { by apply (children_loop_last_field key i t (children device)
                (logged [(INFO, "Processsing device " +:+ t)] self)). }
  rewrite <- Hloop.
  apply (bind_invariant
           (λ s, sample s (DeviceMetric key [i; t])
                 = sample (for_each _ (children device) (logged _ self)).1
                          (DeviceMetric key [i; t]))); [done|].
  intros _ s' Hs'. apply for_each_invariant; [|done].
  intros outlet s'' <-. simpl. by rewrite device_metrics_process_outlet.
Qed.

End Documents.

(** ** Series of other devices *)

Section Frame.

Context {F : Type}.
Variable fzero : F.
Variable float : string → option F.

Lemma labels_set_float_frame kw d key (g : Gauge (F:=F)) k' :
  (∀ k, eval (labelvalues (gauge_labelnames g) kw) = Ok k → k' ≠ k) →
  gauge_metrics (labels_set_float fzero float kw d key g).1 !! k'
  = gauge_metrics g !! k'.
Proof.
  intros Hk. rewrite labels_set_float_run.
  destruct (eval _) as [k|]; [|done]. specialize (Hk k eq_refl). cbv zeta.
  destruct (d !! key) as [s|]; [destruct (float s)|]; simpl;
    rewrite ?lookup_insert_ne by done;
    by rewrite (lookup_ensure fzero), decide_False.
Qed.

Lemma status_frame kw d (m : Enum) k' :
  (∀ k, eval (labelvalues (enum_labelnames m) kw) = Ok k → k' ≠ k) →
  enum_metrics ((let* k := Enum_labels kw in
                 let* status := getitem d "status" in
                 Enum_state k status) m).1 !! k'
  = enum_metrics m !! k'.
Proof.
  intros Hk. rewrite status_run.
  destruct (eval _) as [k|]; [|done]. specialize (Hk k eq_refl). cbv zeta.
  destruct (d !! "status") as [s|]; [destruct (list_find _ _) as [[i x]|]|]; simpl;
    rewrite ?lookup_insert_ne by done;
    by rewrite (lookup_ensure 0), decide_False.
Qed.

Lemma for_items_frame (body : string → M (Gauge (F:=F)) unit) items k' j :
  Forall (λ p, ∀ attr, gauge_metrics (body attr p.2).1 !! k' = gauge_metrics p.2 !! k')
         items →
  (for_items body items).1 !! j ≫= (λ p, gauge_metrics p.2 !! k')
  = items !! j ≫= (λ p, gauge_metrics p.2 !! k').
Proof.
  intros Hitems. revert j. induction Hitems as [|[attr g] items Hg Hitems IH]; intros j;
    [done|].
  simpl. specialize (Hg attr). simpl in Hg.
  destruct (body attr g) as [g' [[]|e]].
  - destruct (for_items body items) as [rest r] eqn:Hrest.
    destruct j as [|j]; simpl; [done|]. apply (IH j).
  - destruct j as [|j]; simpl; done.
Qed.

(** The label values an outlet instrument is addressed with end with
    those of the device. *)
Lemma merged_labelvalues_device (i t : string) ol k :
  eval (labelvalues ["name"; "num"; "url"; "id"; "type"]
          (<["id" := i]> (<["type" := t]> ∅) ∪ ol)) = Ok k →
  drop 3 k = [i; t].
Proof.
  intros Hk. apply labelvalues_Ok in Hk.
  apply Forall2_cons_inv_l in Hk as (name & k1 & _ & Hk & ->).
  apply Forall2_cons_inv_l in Hk as (num & k2 & _ & Hk & ->).
  apply Forall2_cons_inv_l in Hk as (url & k3 & _ & Hk & ->).
  apply Forall2_cons_inv_l in Hk as (id & k4 & Hid & Hk & ->).
  apply Forall2_cons_inv_l in Hk as (type & k5 & Htype & Hk & ->).
  apply Forall2_nil_inv_l in Hk as ->.
  rewrite lookup_union_l', lookup_insert_eq in Hid by (rewrite lookup_insert_eq; eauto).
  rewrite lookup_union_l' in Htype
    by (rewrite lookup_insert_ne, lookup_insert_eq by done; eauto).
  rewrite lookup_insert_ne, lookup_insert_eq in Htype by done.
  simpl. congruence.
Qed.

Lemma process_outlet_frame outlet (i t : string) self series :
  declaration self = declaration (init (F:=F)) →
  series_device series ≠ [i; t] →
  sample (process_outlet fzero float outlet (<["id" := i]> (<["type" := t]> ∅)) self).1
         series
  = sample self series.
Proof.
  intros Hdecl Hseries. rewrite process_outlet_run.
  destruct (attrib outlet !! "num") as [num|]; [|done].
  destruct (eval _) as [ol|]; [|by destruct series]. cbv zeta.
  set (kw := <["id" := i]> (<["type" := t]> ∅) ∪ ol).
  set (s1 := (log INFO ("Processsing outlet " +:+ num) self).1).
  destruct (declared_outlet_metrics _ Hdecl) as (g1 & g2 & g3 & Hom & H1 & H2 & H3).
  destruct (declared_status_labelnames _ Hdecl) as [Hnames _].
  match goal with
  | |- context [with_outlet_metrics ?m] => set (loop := m)
  end.
  assert (Hmetrics : sample (with_outlet_metrics loop s1).1 series = sample self series).
  { unfold with_outlet_metrics.
    destruct (loop (outlet_metrics s1)) as [items r] eqn:Hitems.
    destruct series as [key k'|j k'|k']; simpl; [done| |done].
    change items with (items, r).1. rewrite <- Hitems.
    change (outlet_metrics s1) with (outlet_metrics self).
    transitivity (inl (B:=nat) <$>
      ((loop (outlet_metrics self)).1 !! j ≫= λ p, gauge_metrics p.2 !! k')).
    { by destruct ((loop (outlet_metrics self)).1 !! j). }
    unfold loop. rewrite for_items_frame; [by destruct (outlet_metrics self !! j)|].
    rewrite Hom. repeat apply Forall_cons_2; [..|apply Forall_nil_2];
      intros attr; simpl; apply labels_set_float_frame; intros k Hk;
      rewrite ?H1, ?H2, ?H3 in Hk; apply merged_labelvalues_device in Hk;
      simpl in Hseries; congruence. }
  rewrite bind_fst_snd. destruct (with_outlet_metrics loop s1).2 as [[]|e]; [|done].
  etransitivity; [|exact Hmetrics]. unfold with_outlet_status.
  match goal with
  | |- context [let '(_, _) := ?m ?st in _] => destruct (m st) as [status r] eqn:Hst
  end.
  destruct series as [key k'|j k'|k']; simpl; [done..|].
  change status with (status, r).1. rewrite <- Hst, status_frame; [done|].
  intros k Hk.
  assert (Hos : outlet_status (with_outlet_metrics loop s1).1 = outlet_status self).
  { unfold with_outlet_metrics. by destruct (loop _). }
  rewrite Hos, Hnames in Hk. apply merged_labelvalues_device in Hk.
  simpl in Hseries. congruence.
Qed.

Lemma process_child_frame child (i t : string) self series :
  declaration self = declaration (init (F:=F)) →
  series_device series ≠ [i; t] →
  sample (process_child fzero float child (<["id" := i]> (<["type" := t]> ∅)) self).1
         series
  = sample self series.
Proof.
  intros Hdecl Hseries. unfold process_child. case_bool_decide; [|done].
  rewrite bind_fst_snd, getitem_run.
  destruct (attrib child !! "key") as [key|]; [|done]. cbn [fst snd].
  unfold with_device_metric.
  destruct (device_metrics self !! key) as [g|] eqn:Hg; [|done].
  destruct (declared_device_metrics _ _ _ Hdecl Hg) as (_ & Hnames & _).
  destruct (labels_set_float _ _ _ _ _ g) as [g' r] eqn:Hrun.
  destruct series as [key' k'|j k'|k']; simpl; [|done..].
  destruct (decide (key' = key)) as [->|Hne].
  - rewrite lookup_insert_eq, Hg. simpl. f_equal.
    change g' with (g', r).1. rewrite <- Hrun. apply labels_set_float_frame.
    intros k Hk. rewrite Hnames, labelvalues_device in Hk.
    simpl in Hseries. congruence.
  - by rewrite lookup_insert_ne.
Qed.

Lemma process_device_frame device (i t : string) self series :
  declaration self = declaration (init (F:=F)) →
  attrib device !! "id" = Some i →
  attrib device !! "type" = Some t →
  series_device series ≠ [i; t] →
  sample (process_device fzero float device self).1 series = sample self series.
Proof.
  intros Hdecl Hid Htype Hseries. unfold process_device.
  rewrite bind_fst_snd, getitem_run, Htype. cbn [fst snd].
  rewrite (bind_Ok _ _ self (logged [(INFO, "Processsing device " +:+ t)] self) tt)
    by done.
  destruct (negb _); [by destruct series|].
  rewrite bind_fst_snd. cbn [gets fst snd].
  change (device_labels (logged _ self)) with (device_labels self).
  rewrite (declared_device_labels _ Hdecl).
  rewrite bind_fst_snd, dict_of_labels_run, (dict_of_labels_device _ i t) by done.
  cbn [fst snd].
  set (I := λ s : Exporter (F:=F),
         declaration s = declaration (init (F:=F))
         ∧ sample s series = sample self series).
  enough (HI : I (bind (for_each (λ child, process_child fzero float child
                                    (<["id" := i]> (<["type" := t]> ∅)))
                          (children device))
                   (λ _, for_each (λ outlet, process_outlet fzero float outlet
                                    (<["id" := i]> (<["type" := t]> ∅)))
                           (from_option children [] (find device "outlets")))
                   (logged [(INFO, "Processsing device " +:+ t)] self)).1)
    by apply HI.
  apply bind_invariant.
  - apply for_each_invariant; [|split; [done|by destruct series]].
    intros child s' [Hs' Hsample]. split; [by rewrite declaration_process_child|].
    rewrite <- Hsample. by apply process_child_frame.
  - intros _ s1 Hs1. apply for_each_invariant; [|done].
    intros outlet s' [Hs' Hsample]. split; [by rewrite declaration_process_outlet|].
    rewrite <- Hsample. by apply process_outlet_frame.
Qed.

(** X13.  [process_device] touches the time series of its own device
    only: a series whose label values for [id] and [type] are not those
    of the device holds after [process_device], however it ends, what it
    held before. *)
Theorem device_touches_only_its_own_series device (i t : string) self series :
  declaration self = declaration (init (F:=F)) →
  attrib device !! "id" = Some i →
  attrib device !! "type" = Some t →
  series_device series ≠ [i; t] →
  sample (process_device fzero float device self).1 series = sample self series.
Proof. intros Hdecl Hid Htype Hseries. by apply (process_device_frame device i t). Qed.

(** X14.  A field with a recognized key and a value that is missing or
    that [float] rejects makes the loop over the children raise, and
    leaves a trace: the gauge has a sample for the device afterwards,
    the one it had, or zero when it had none.  No other series changes. *)
Theorem field_with_rejected_value_leaves_zero child key (i t : string) self :
  declaration self = declaration (init (F:=F)) →
  tag child = "field" →
  attrib child !! "key" = Some key →
  is_Some (device_metrics (init (F:=F)) !! key) →
  attrib child !! "value" ≫= float = None →
  let run := process_child fzero float child (<["id" := i]> (<["type" := t]> ∅)) self in
  run.2 = Raise (match attrib child !! "value" with
                 | Some s => ValueError (CouldNotConvertToFloat s)
                 | None => KeyError "value"
                 end)
  ∧ sample run.1 (DeviceMetric key [i; t])
    = Some (default (inl fzero) (sample self (DeviceMetric key [i; t])))
  ∧ ∀ series, series ≠ DeviceMetric key [i; t] → sample run.1 series = sample self series.
Proof.
  intros Hdecl Htag Hkey [g0 Hinit] Hvalue run. unfold run, process_child.
  rewrite bool_decide_eq_true_2 by done.
  rewrite bind_fst_snd, getitem_run, Hkey. cbn [fst snd].
  unfold with_device_metric.
  assert (Hl := f_equal (λ d, decl_device_metrics d !! key) Hdecl).
  unfold declaration in Hl. cbn [decl_device_metrics] in Hl.
  rewrite !lookup_fmap, Hinit in Hl.
  destruct (device_metrics self !! key) as [g|] eqn:Hg; [|done].
  destruct (declared_device_metrics _ _ _ Hdecl Hg) as (_ & Hnames & _).
  rewrite labels_set_float_run, Hnames, labelvalues_device. cbv zeta.
  assert (Hrun :
    match attrib child !! "value" with
    | Some s =>
        match float s with
        | Some v => (set_gauge_metrics <[[i; t] := v]>
                       (set_gauge_metrics (ensure fzero [i; t]) g), Ok tt)
        | None => (set_gauge_metrics (ensure fzero [i; t]) g,
                   Raise (ValueError (CouldNotConvertToFloat s)))
        end
    | None => (set_gauge_metrics (ensure fzero [i; t]) g, Raise (KeyError "value"))
    end
    = (set_gauge_metrics (ensure fzero [i; t]) g,
       Raise (match attrib child !! "value" with
              | Some s => ValueError (CouldNotConvertToFloat s)
              | None => KeyError "value"
              end))).
  { destruct (attrib child !! "value") as [s|]; [|done].
    simpl in Hvalue. by rewrite Hvalue. }
  rewrite Hrun. simpl. split_and!; [done| |].
  - rewrite lookup_insert_eq, Hg. simpl. rewrite (lookup_ensure fzero), decide_True by done.
    by destruct (gauge_metrics g !! [i; t]).
  - intros [key' k'|j k'|k'] Hseries; simpl; [|done..].
    destruct (decide (key' = key)) as [->|Hne]; [|by rewrite lookup_insert_ne].
    rewrite lookup_insert_eq, Hg. simpl.
    rewrite (lookup_ensure fzero), decide_False by congruence. done.
Qed.

End Frame.

(** ** The exception of a failing outlet *)

Section Reaching.

Context {F : Type}.
Variable fzero : F.
Variable float : string → option F.

(** The measurement that is missing is the one that raises, when the
    outlet is read as far as that. *)
Lemma process_outlet_KeyError outlet (i t a : string) self :
  declaration self = declaration (init (F:=F)) →
  reaches_measurement float outlet a →
  attrib outlet !! a = None →
  (process_outlet fzero float outlet (<["id" := i]> (<["type" := t]> ∅)) self).2
  = Raise (KeyError a).
Proof.
  intros Hdecl (Hlabels & earlier & later & Horder & Hearlier) Hmissing.
  destruct (Hlabels "name") as [n Hn]; [rewrite !elem_of_cons; auto|].
  destruct (Hlabels "num") as [m Hm]; [rewrite !elem_of_cons; auto|].
  destruct (Hlabels "url") as [u Hu]; [rewrite !elem_of_cons; auto|].
  destruct (declared_outlet_metrics _ Hdecl) as (g1 & g2 & g3 & Hom & H1 & H2 & H3).
  rewrite process_outlet_run, Hm, (declared_outlet_labels _ Hdecl).
  rewrite (dict_of_labels_outlet _ n m u) by done. cbv zeta.
  rewrite bind_fst_snd, with_outlet_metrics_result. cbn [log fst outlet_metrics].
  rewrite Hom. cbn [for_items].
  rewrite !labels_set_float_run, H1, H2, H3, !labelvalues_outlet. cbv zeta.
  destruct earlier as [|b1 [|b2 [|b3 earlier]]]; simplify_eq/=.
  - by rewrite Hmissing.
  - apply Forall_singleton in Hearlier as (s1 & -> & [v1 ->]). by rewrite Hmissing.
  - apply Forall_cons in Hearlier as [(s1 & -> & [v1 ->]) Hearlier].
    apply Forall_singleton in Hearlier as (s2 & -> & [v2 ->]). by rewrite Hmissing.
  - by destruct earlier.
Qed.

(** And a status that is no state of the enum raises the [ValueError]
    of [list.index], when the outlet is read as far as that. *)
Lemma process_outlet_ValueError outlet (i t status : string) self :
  declaration self = declaration (init (F:=F)) →
  reaches_status float outlet →
  attrib outlet !! "status" = Some status →
  status ≠ "On" →
  status ≠ "Off" →
  (process_outlet fzero float outlet (<["id" := i]> (<["type" := t]> ∅)) self).2
  = Raise (ValueError (NotInList status)).
Proof.
  intros Hdecl [Hlabels Hmeasurements] Hstatus HOn HOff.
  destruct (Hlabels "name") as [n Hn]; [rewrite !elem_of_cons; auto|].
  destruct (Hlabels "num") as [m Hm]; [rewrite !elem_of_cons; auto|].
  destruct (Hlabels "url") as [u Hu]; [rewrite !elem_of_cons; auto|].
  destruct (Hmeasurements "amps") as (sa & Hsa & [va Hva]); [rewrite !elem_of_cons; auto|].
  destruct (Hmeasurements "kwatthrs") as (sk & Hsk & [vk Hvk]);
    [rewrite !elem_of_cons; auto|].
  destruct (Hmeasurements "watts") as (sw & Hsw & [vw Hvw]);
    [rewrite !elem_of_cons; auto|].
  destruct (declared_outlet_metrics _ Hdecl) as (g1 & g2 & g3 & Hom & H1 & H2 & H3).
  destruct (declared_status_labelnames _ Hdecl) as [Hnames Hstates].
  rewrite process_outlet_run, Hm, (declared_outlet_labels _ Hdecl).
  rewrite (dict_of_labels_outlet _ n m u) by done. cbv zeta.
  unfold bind at 1. unfold with_outlet_metrics. cbn [log fst outlet_metrics].
  rewrite Hom. cbn [for_items].
  rewrite !labels_set_float_run, H1, H2, H3, !labelvalues_outlet.
  cbv zeta. rewrite Hsa, Hva, Hsk, Hvk, Hsw, Hvw.
  unfold with_outlet_status. cbn [outlet_status].
  rewrite status_run, Hnames, labelvalues_outlet, Hstatus, Hstates.
  cbv zeta.
  assert (Hfind : list_find (λ x, x = status) ["On"; "Off"] = None).
  { apply list_find_None. repeat apply Forall_cons_2; [..|apply Forall_nil_2]; congruence. }
  by rewrite Hfind.
Qed.

(** The exception of an outlet is the exception of its device, when
    nothing fails before the outlet. *)
Lemma process_device_reaches_outlet device outlets outlets_before outlet outlets_after
    e self :
  declaration self = declaration (init (F:=F)) →
  is_Some (attrib device !! "type") →
  is_Some (attrib device !! "id") →
  Forall (well_formed_child float) (children device) →
  find device "outlets" = Some outlets →
  children outlets = outlets_before ++ outlet :: outlets_after →
  Forall (well_formed_outlet float) outlets_before →
  (∀ (i t : string) s, declaration s = declaration (init (F:=F)) →
     (process_outlet fzero float outlet (<["id" := i]> (<["type" := t]> ∅)) s).2
     = Raise e) →
  (process_device fzero float device self).2 = Raise e.
Proof.
  intros Hdecl [type Htype] [id Hid] Hchildren Hfind Houtlets Hbefore Hraise.
  unfold process_device.
  rewrite bind_fst_snd, getitem_run, Htype. cbn [fst snd].
  rewrite (bind_Ok _ _ self (logged [(INFO, "Processsing device " +:+ type)] self) tt)
    by done.
  rewrite Hfind. cbn [truthy].
  rewrite bool_decide_eq_true_2 by (rewrite Houtlets; by destruct outlets_before).
  cbn [negb].
  rewrite bind_fst_snd. cbn [gets fst snd].
  change (device_labels (logged _ self)) with (device_labels self).
  rewrite (declared_device_labels _ Hdecl).
  rewrite bind_fst_snd, dict_of_labels_run. cbn [fst snd].
  rewrite (dict_of_labels_device _ id type) by done.
  set (dl := <["id" := id]> (<["type" := type]> ∅)).
  set (declared := λ s : Exporter (F:=F), declaration s = declaration (init (F:=F))).
  set (s1 := logged [(INFO, "Processsing device " +:+ type)] self).
  rewrite bind_fst_snd.
  destruct (for_each_Ok declared (λ child, process_child fzero float child dl)
              (children device) s1) as [Hs2 ->]; [|done|].
  { eapply Forall_impl; [exact Hchildren|]. intros c Hc s' Hs'. split.
    - unfold declared. by rewrite declaration_process_child.
    - by apply process_child_well_formed. }
  cbn [from_option]. rewrite Houtlets, for_each_app, bind_fst_snd.
  destruct (for_each_Ok declared (λ o, process_outlet fzero float o dl)
              outlets_before
              (for_each (λ child, process_child fzero float child dl)
                 (children device) s1).1) as [Hs3 ->]; [|done|].
  { eapply Forall_impl; [exact Hbefore|]. intros o Ho s' Hs'. split.
    - unfold declared. by rewrite declaration_process_outlet.
    - by apply process_outlet_passes_iff. }
  cbn [for_each]. rewrite bind_fst_snd. unfold dl. by rewrite Hraise.
Qed.

(** ** Devices that leave a gauge alone *)

Lemma process_device_other_fields device key self :
  Forall (λ c, tag c = "field" → attrib c !! "key" ≠ Some key) (children device) →
  device_metrics (process_device fzero float device self).1 !! key
  = device_metrics self !! key.
Proof.
  intros Hother.
  set (I := λ s : Exporter (F:=F), device_metrics s !! key = device_metrics self !! key).
  enough (HI : I (process_device fzero float device self).1) by exact HI.
  unfold process_device.
  rewrite bind_fst_snd, getitem_run. destruct (attrib device !! "type"); [|done].
  cbn [fst snd]. apply bind_invariant; [done|].
  intros _ s1 Hs1. destruct (negb _); [done|].
  apply bind_invariant; [done|]. intros names s2 Hs2.
  rewrite bind_fst_snd, dict_of_labels_run. cbn [fst snd].
  destruct (eval _) as [dl|]; [|done].
  apply bind_invariant.
  - apply for_each_invariant_Forall; [|done].
    eapply Forall_impl; [exact Hother|]. intros c Hc s' Hs'. unfold I.
    by rewrite process_child_other_key.
  - intros _ s3 Hs3. apply for_each_invariant; [|done].
    intros o s' Hs'. unfold I. by rewrite device_metrics_process_outlet.
Qed.

Lemma process_device_leaves_field device key (i t : string) self :
  declaration self = declaration (init (F:=F)) →
  leaves_field key [i; t] device →
  sample (process_device fzero float device self).1 (DeviceMetric key [i; t])
  = sample self (DeviceMetric key [i; t]).
Proof.
  intros Hdecl [Hother|[Hskipped|Hfields]].
  - destruct (attrib device !! "type") as [t'|] eqn:Htype,
             (attrib device !! "id") as [i'|] eqn:Hid.
    + apply (process_device_frame fzero float device i' t'); [done..|].
      simpl. intros Heq. by apply (Hother i' t').
    + unfold process_device.
      rewrite bind_fst_snd, getitem_run, Htype. cbn [fst snd].
      rewrite (bind_Ok _ _ self (logged [(INFO, "Processsing device " +:+ t')] self) tt)
        by done.
      destruct (negb _); [done|].
      rewrite bind_fst_snd. cbn [gets fst snd].
      change (device_labels (logged _ self)) with (device_labels self).
      rewrite (declared_device_labels _ Hdecl).
      rewrite bind_fst_snd, dict_of_labels_run. cbn [fst snd].
      assert (Hd : eval (dict_of_labels (attrib device) ["id"; "type"])
                   = Raise (KeyError "id")).
      { unfold eval. simpl. by rewrite bind_fst_snd, getitem_run, Hid. }
      by rewrite Hd.
    + unfold process_device. by rewrite bind_fst_snd, getitem_run, Htype.
    + unfold process_device. by rewrite bind_fst_snd, getitem_run, Htype.
  - unfold process_device. rewrite bind_fst_snd, getitem_run.
    destruct (attrib device !! "type") as [t'|]; [|done]. cbn [fst snd].
    rewrite (bind_Ok _ _ self (logged [(INFO, "Processsing device " +:+ t')] self) tt)
      by done.
    by rewrite Hskipped.
  - unfold sample. by rewrite process_device_other_fields.
Qed.

(** The field of the round trip, in a device that is processed. *)
Lemma process_device_sets_realpower device outlets before field after v self :
  declaration self = declaration (init (F:=F)) →
  attrib device !! "id" = Some "1" →
  attrib device !! "type" = Some "pdu" →
  find device "outlets" = Some outlets →
  children outlets ≠ [] →
  children device = before ++ field :: after →
  Forall (well_formed_child float) before →
  tag field = "field" →
  attrib field !! "key" = Some "RealPower-A" →
  attrib field !! "value" = Some "123.4" →
  Forall (λ c, tag c = "field" → attrib c !! "key" ≠ Some "RealPower-A") after →
  float "123.4" = Some v →
  ∃ g,
    device_metrics (process_device fzero float device self).1 !! "RealPower-A" = Some g
    ∧ gauge_name g = "pdu_realpower"
    ∧ gauge_metrics g !! ["1"; "pdu"] = Some v.
Proof.
  intros Hdecl Hid Htype Houtlets Hnonempty Hchildren
         Hbefore Htag Hkey Hvalue Hafter Hv.
  set (I := λ s : Exporter (F:=F),
         ∃ g, device_metrics s !! "RealPower-A" = Some g
              ∧ gauge_name g = "pdu_realpower"
              ∧ gauge_metrics g !! ["1"; "pdu"] = Some v).
  enough (HI : I (process_device fzero float device self).1) by exact HI.
  unfold process_device.
  rewrite bind_fst_snd, getitem_run, Htype. cbn [fst snd].
  set (s2 := logged [(INFO, "Processsing device " +:+ "pdu")] self).
  rewrite (bind_Ok _ _ self s2 tt) by done.
  rewrite Houtlets. cbn [truthy]. rewrite bool_decide_eq_true_2 by done. cbn [negb].
  rewrite bind_fst_snd. cbn [gets fst snd].
  change (device_labels s2) with (device_labels self).
  rewrite (declared_device_labels self) by done.
  rewrite bind_fst_snd, dict_of_labels_run, (dict_of_labels_device _ "1" "pdu") by done.
  cbn [fst snd]. apply bind_invariant.
  - rewrite Hchildren, for_each_app, bind_fst_snd.
    destruct (for_each_Ok (λ s, declaration s = declaration (init (F:=F)))
                (λ child, process_child fzero float child
                            (<["id" := "1"]> (<["type" := "pdu"]> ∅))) before s2)
      as [Hdecl3 ->]; [|done|].
    { eapply Forall_impl; [exact Hbefore|]. intros child Hwf s' Hs'. split.
      - by rewrite declaration_process_child.
      - by apply process_child_well_formed. }
    cbn [for_each]. apply bind_invariant.
    + by apply (process_child_sets fzero float field "1" "pdu" "123.4" v).
    + intros _ s4 Hs4. apply for_each_invariant_Forall; [|done].
      eapply Forall_impl; [exact Hafter|]. intros child Hother s' (g & Hg & Hrest).
      exists g. split; [|done]. by rewrite process_child_other_key.
  - intros _ s' Hs'. apply for_each_invariant; [|done].
    intros outlet s'' (g & Hg & Hrest). exists g. split; [|done].
    by rewrite device_metrics_process_outlet.
Qed.

(** ** The merge of the label-sets *)






End Reaching.

(** ** Cycles with several devices *)

Section Cycles.

Context {F : Type}.
Variable fzero : F.
Variable float : string → option F.
Variable fromstring : string → option Element.

(** The exception of an outlet is the exception of the cycle, when
    nothing fails before the outlet. *)
Lemma process_reaches_outlet body root devices device outlets outlet e self :
  declaration self = declaration (init (F:=F)) →
  fromstring body = Some root →
  find root "devices" = Some devices →
  find device "outlets" = Some outlets →
  reaches_outlet float devices device outlets outlet →
  (∀ (i t : string) s, declaration s = declaration (init (F:=F)) →
     (process_outlet fzero float outlet (<["id" := i]> (<["type" := t]> ∅)) s).2
     = Raise e) →
  (process fzero float fromstring (Response body) self).2 = Raise e.
Proof.
  intros Hdecl Hbody Hdevices Houtlets
    (dpre & dpost & opre & opost & Hdevs & Hdpre & Htype & Hid & Hchildren & Houts & Hopre)
    Hraise.
  unfold process.
  rewrite (bind_Ok _ _ self (logged [(INFO, "Starting process..")] self) tt) by done.
  rewrite bind_fst_snd, fetch_Response, Hbody. cbn [fst snd].
  rewrite Hdevices, Hdevs, for_each_app, bind_fst_snd.
  destruct (for_each_Ok (λ s : Exporter (F:=F), declaration s = declaration (init (F:=F)))
              (process_device fzero float) dpre
              (logged [(INFO, "Starting process..")] self)) as [Hs1 ->]; [|done|].
  { eapply Forall_impl; [exact Hdpre|]. intros d Hd s' Hs'. split.
    - by rewrite declaration_process_device.
    - by apply process_device_passes_iff. }
  cbn [for_each]. rewrite bind_fst_snd.
  by rewrite (process_device_reaches_outlet fzero float device outlets opre outlet opost e).
Qed.

(** C4, as the code behaves.  An outlet that lacks one of [amps],
    [kwatthrs], [watts] makes [process_outlet] raise, and nothing catches
    the exception: the outlets and devices after it are not processed,
    [process] and the polling loop end with an exception, and no warning
    is logged.  When nothing fails before the missing attribute is read,
    the exception is the [KeyError] of that attribute: it is what
    [process_outlet] raises when the outlet is sound as far as that, and
    what [process] and the polling loop raise when the document is sound
    as far as that outlet. *)
Theorem missing_measurement_aborts_the_cycle
    body root devices device outlets outlet a dl elapsed rest self :
  declaration self = declaration (init (F:=F)) →
  a ∈ ["amps"; "kwatthrs"; "watts"] →
  attrib outlet !! a = None →
  fromstring body = Some root →
  find root "devices" = Some devices →
  device ∈ children devices →
  find device "outlets" = Some outlets →
  outlet ∈ children outlets →
  let cycle := process fzero float fromstring (Response body) self in
  (∃ e, (process_outlet fzero float outlet dl self).2 = Raise e)
  ∧ (∀ later, for_each (λ o, process_outlet fzero float o dl) (outlet :: later) self
              = process_outlet fzero float outlet dl self)
  ∧ (∀ later, for_each (process_device fzero float) (device :: later) self
              = process_device fzero float device self)
  ∧ (∃ e, cycle.2 = Raise e)
  ∧ start_export_loop fzero float fromstring
      (mkCycle (Response body) elapsed :: rest) self = cycle
  ∧ warnings cycle.1 = warnings self
  ∧ (reaches_measurement float outlet a →
       (∀ i t : string,
          (process_outlet fzero float outlet (<["id" := i]> (<["type" := t]> ∅)) self).2
          = Raise (KeyError a))
       ∧ (reaches_outlet float devices device outlets outlet →
            cycle.2 = Raise (KeyError a)
            ∧ (start_export_loop fzero float fromstring
                 (mkCycle (Response body) elapsed :: rest) self).2
              = Raise (KeyError a))).
Proof.
  intros Hdecl Ha Hmissing Hbody Hdevices Hdevice Houtlets Houtlet cycle.
  destruct (missing_measurement_raises fzero float fromstring
              body root devices device outlets outlet a dl elapsed rest self)
    as (H1 & H2 & H3 & H4 & H5 & H6); [done..|].
  split_and!; [done..|].
  intros Hreaches. split.
  - intros i t. by apply process_outlet_KeyError.
  - intros Hdocument.
    assert (Hcycle : cycle.2 = Raise (KeyError a)).
    { apply (process_reaches_outlet body root devices device outlets outlet); [done..|].
      intros i t s Hs. by apply process_outlet_KeyError. }
    split; [done|]. fold cycle in H5. by rewrite H5.
Qed.

(** C5, as the code behaves.  An outlet whose [status] is neither [On]
    nor [Off] makes [process_outlet] raise, and nothing catches the
    exception: the outlets and devices after it are not processed,
    [process] and the polling loop end with an exception, and no warning
    is logged.  The state of [pdu_outlet_status] is left as it was for
    every label-set that had one; a label-set seen for the first time may
    have been created, in the first state ([On]).  When nothing fails
    before the status is read, the exception is the [ValueError] of
    [Enum.state], which looks the status up in the list of states: it is
    what [process_outlet] raises when the outlet is sound as far as
    that, and what [process] and the polling loop raise when the
    document is sound as far as that outlet. *)
Theorem unknown_status_aborts_the_cycle
    body root devices device outlets outlet status dl elapsed rest self :
  declaration self = declaration (init (F:=F)) →
  attrib outlet !! "status" = Some status →
  status ≠ "On" →
  status ≠ "Off" →
  fromstring body = Some root →
  find root "devices" = Some devices →
  device ∈ children devices →
  find device "outlets" = Some outlets →
  outlet ∈ children outlets →
  let cycle := process fzero float fromstring (Response body) self in
  (∃ e, (process_outlet fzero float outlet dl self).2 = Raise e)
  ∧ (∀ k,
       let before := enum_metrics (outlet_status self) !! k in
       let after :=
         enum_metrics (outlet_status (process_outlet fzero float outlet dl self).1) !! k in
       after = before ∨ (before = None ∧ after = Some 0))
  ∧ (∀ later, for_each (λ o, process_outlet fzero float o dl) (outlet :: later) self
              = process_outlet fzero float outlet dl self)
  ∧ (∀ later, for_each (process_device fzero float) (device :: later) self
              = process_device fzero float device self)
  ∧ (∃ e, cycle.2 = Raise e)
  ∧ start_export_loop fzero float fromstring
      (mkCycle (Response body) elapsed :: rest) self = cycle
  ∧ warnings cycle.1 = warnings self
  ∧ (reaches_status float outlet →
       (∀ i t : string,
          (process_outlet fzero float outlet (<["id" := i]> (<["type" := t]> ∅)) self).2
          = Raise (ValueError (NotInList status)))
       ∧ (reaches_outlet float devices device outlets outlet →
            cycle.2 = Raise (ValueError (NotInList status))
            ∧ (start_export_loop fzero float fromstring
                 (mkCycle (Response body) elapsed :: rest) self).2
              = Raise (ValueError (NotInList status)))).
Proof.
  intros Hdecl Hstatus HOn HOff Hbody Hdevices Hdevice Houtlets Houtlet cycle.
  destruct (unknown_status_raises fzero float fromstring
              body root devices device outlets outlet status dl elapsed rest self)
    as (H1 & H2 & H3 & H4 & H5 & H6 & H7); [done..|].
  split_and!; [done..|].
  intros Hreaches. split.
  - intros i t. by apply process_outlet_ValueError.
  - intros Hdocument.
    assert (Hcycle : cycle.2 = Raise (ValueError (NotInList status))).
    { apply (process_reaches_outlet body root devices device outlets outlet); [done..|].
      intros i t s Hs. by apply process_outlet_ValueError. }
    split; [done|]. fold cycle in H6. by rewrite H6.
Qed.

(** C6, as the code behaves.  Take a document that contains, among the
    children of [devices], a device with [id] 1 and [type] pdu, a
    non-empty [outlets] container, and a [field] with key [RealPower-A]
    and value [123.4].  Let the devices before it be well formed, and
    in the device the children before that field; let no later field of
    the device have the key [RealPower-A], and let no later device set
    the gauge for (1, pdu) again.  After the cycle, however it ends, the
    gauge [pdu_realpower] at the label values (1, pdu) holds
    [float("123.4")]. *)
Theorem realpower_is_published
    body root devices earlier device later outlets before field after v self :
  declaration self = declaration (init (F:=F)) →
  fromstring body = Some root →
  find root "devices" = Some devices →
  children devices = earlier ++ device :: later →
  Forall (well_formed_device float) earlier →
  Forall (leaves_field "RealPower-A" ["1"; "pdu"]) later →
  attrib device !! "id" = Some "1" →
  attrib device !! "type" = Some "pdu" →
  find device "outlets" = Some outlets →
  children outlets ≠ [] →
  children device = before ++ field :: after →
  Forall (well_formed_child float) before →
  tag field = "field" →
  attrib field !! "key" = Some "RealPower-A" →
  attrib field !! "value" = Some "123.4" →
  Forall (λ c, tag c = "field" → attrib c !! "key" ≠ Some "RealPower-A") after →
  float "123.4" = Some v →
  ∃ g,
    device_metrics (process fzero float fromstring (Response body) self).1
      !! "RealPower-A" = Some g
    ∧ gauge_name g = "pdu_realpower"
    ∧ gauge_metrics g !! ["1"; "pdu"] = Some v.
Proof.
  intros Hdecl Hbody Hdevices Hdevs Hearlier Hlater Hid Htype Houtlets Hnonempty
         Hchildren Hbefore Htag Hkey Hvalue Hafter Hv.
  set (declared := λ s : Exporter (F:=F), declaration s = declaration (init (F:=F))).
  set (I := λ s : Exporter (F:=F),
         declared s
         ∧ sample s (DeviceMetric "RealPower-A" ["1"; "pdu"]) = Some (inl v)).
  enough (HI : I (process fzero float fromstring (Response body) self).1).
  { destruct HI as [Hdeclared Hsample]. unfold sample in Hsample.
    destruct (device_metrics _ !! "RealPower-A") as [g|] eqn:Hg; [|done].
    exists g. split; [done|].
    destruct (declared_device_metrics _ _ _ Hdeclared Hg) as (_ & _ & Hname).
    split; [by apply Hname|]. simpl in Hsample.
    destruct (gauge_metrics g !! ["1"; "pdu"]); by simplify_eq/=. }
  unfold process.
  rewrite (bind_Ok _ _ self (logged [(INFO, "Starting process..")] self) tt) by done.
  rewrite bind_fst_snd, fetch_Response, Hbody. cbn [fst snd].
  rewrite Hdevices, Hdevs, for_each_app, bind_fst_snd.
  destruct (for_each_Ok declared (process_device fzero float) earlier
              (logged [(INFO, "Starting process..")] self)) as [Hs1 ->]; [|done|].
  { eapply Forall_impl; [exact Hearlier|]. intros d Hd s' Hs'. split.
    - unfold declared. by rewrite declaration_process_device.
    - by apply process_device_passes_iff. }
  cbn [for_each]. apply bind_invariant.
  - split; [unfold declared; by rewrite declaration_process_device|].
    destruct (process_device_sets_realpower fzero float
                device outlets before field after v
                (for_each (process_device fzero float) earlier
                   (logged [(INFO, "Starting process..")] self)).1)
      as (g & Hg & _ & Hgv); [done..|].
    unfold sample. rewrite Hg. simpl. by rewrite Hgv.
  - intros _ s2 Hs2. apply for_each_invariant_Forall; [|done].
    eapply Forall_impl; [exact Hlater|]. intros d Hd s' [Hs' Hsample]. split.
    + unfold declared. by rewrite declaration_process_device.
    + rewrite <- Hsample. by apply process_device_leaves_field.
Qed.

End Cycles.

(** * Further concrete runs *)

Section Polled.

Import Examples Polls.

Local Abbreviation fzero := Sample.fzero.
Local Abbreviation float := Sample.float.
Local Abbreviation fromstring := Sample.fromstring.

Lemma declared_after_second_device :
  declaration after_second_device = declaration (init (F:=PrimFloat.float)).
Proof. apply declaration_process. Qed.

(** X1 on the series of the second device, through a cycle for another
    device and a cycle that raises. *)
Lemma samples_never_disappear_witness :
  sample after_second_device (DeviceMetric "Volts-A" ["2"; "pdu"]) = inl <$> float "229.5"
  ∧ is_Some (sample (start_export_loop fzero float fromstring
                       [mkCycle (Response realpower) "0.01";
                        mkCycle (Response truncated) "0.00"]
                       after_second_device).1
                    (DeviceMetric "Volts-A" ["2"; "pdu"])).
Proof.
  assert (Hsample : sample after_second_device (DeviceMetric "Volts-A" ["2"; "pdu"])
                    = inl <$> float "229.5") by (vm_compute; reflexivity).
  split; [done|].
  apply (samples_never_disappear fzero float fromstring).
  rewrite Hsample. vm_compute. eauto.
Defined.

(** X2 on the fresh exporter and the one that has polled the second
    device. *)
Lemma cycle_result_ignores_samples_witness :
  (process fzero float fromstring (Response missing_watts) after_second_device).2
  = (process fzero float fromstring (Response missing_watts) init).2.
Proof.
  apply (cycle_result_ignores_samples fzero float fromstring).
  apply declared_after_second_device.
Defined.

(** X6 on a body with a root and nothing of a device. *)
Lemma missing_devices_container_raises_witness :
  fromstring no_devices = Some no_devices_root
  ∧ find no_devices_root "devices" = None
  ∧ process fzero float fromstring (Response no_devices) init
    = (logged [(INFO, "Starting process..")] init, Raise TypeError_NoneType_not_iterable).
Proof.
  assert (Hbody : fromstring no_devices = Some no_devices_root)
    by (vm_compute; reflexivity).
  assert (Hfind : find no_devices_root "devices" = None) by (vm_compute; reflexivity).
  split_and!; [done..|].
  apply (missing_devices_container_raises fzero float fromstring
           no_devices no_devices_root "0.00" [] init Hbody Hfind).
Defined.

(** X7 on a device without a [type] and on one without an [id]. *)
Lemma device_without_type_or_id_raises_witness :
  process_device fzero float device_without_type init
  = (init, Raise (KeyError "type"))
  ∧ process_device fzero float device_without_id init
    = (logged [(INFO, "Processsing device " +:+ "pdu")] init, Raise (KeyError "id")).
Proof.
  split.
  - apply (proj1 (device_without_type_or_id_raises fzero float device_without_type init)).
    vm_compute. reflexivity.
  - apply (proj2 (device_without_type_or_id_raises fzero float device_without_id init)
             "pdu"); vm_compute; reflexivity.
Defined.

(** X8 twice: the outlet switched off, and a later poll that finds it
    switched on. *)
Lemma well_formed_outlet_is_published_witness :
  sample (process_outlet fzero float outlet_b plain_labels init).1
         (OutletStatus ["b"; "2"; "u2"; "1"; "pdu"]) = Some (inr 1)
  ∧ sample (process_outlet fzero float outlet_b_on plain_labels
              (process_outlet fzero float outlet_b plain_labels init).1).1
           (OutletStatus ["b"; "2"; "u2"; "1"; "pdu"]) = Some (inr 0)
  ∧ sample (process_outlet fzero float outlet_b_on plain_labels
              (process_outlet fzero float outlet_b plain_labels init).1).1
           (OutletMetric 2 ["b"; "2"; "u2"; "1"; "pdu"]) = inl <$> float "90".
Proof.
  destruct (float "0.5") as [va|] eqn:Hva; [|vm_compute in Hva; discriminate Hva].
  destruct (float "7") as [vk|] eqn:Hvk; [|vm_compute in Hvk; discriminate Hvk].
  destruct (float "60") as [vw|] eqn:Hvw; [|vm_compute in Hvw; discriminate Hvw].
  destruct (float "0.75") as [va'|] eqn:Hva'; [|vm_compute in Hva'; discriminate Hva'].
  destruct (float "90") as [vw'|] eqn:Hvw'; [|vm_compute in Hvw'; discriminate Hvw'].
  pose proof (well_formed_outlet_is_published fzero float outlet_b
                "b" "2" "u2" "1" "pdu" "0.5" "7" "60" "Off" va vk vw 1 init eq_refl
                eq_refl eq_refl eq_refl eq_refl Hva eq_refl Hvk eq_refl Hvw
                eq_refl eq_refl) as (_ & _ & _ & _ & Hoff & _).
  pose proof (well_formed_outlet_is_published fzero float outlet_b_on
                "b" "2" "u2" "1" "pdu" "0.75" "7" "90" "On" va' vk vw' 0
                (process_outlet fzero float outlet_b plain_labels init).1
                (declaration_process_outlet _ _ _ _ _)
                eq_refl eq_refl eq_refl eq_refl Hva' eq_refl Hvk eq_refl Hvw'
                eq_refl eq_refl) as (_ & _ & _ & Hwatts & Hon & _).
  split_and!; [exact Hoff|exact Hon|exact Hwatts].
Defined.

(** X9 read in both directions: an outlet that passes is well formed,
    and the outlet without [watts] is not. *)
Lemma outlet_passes_iff_well_formed_witness :
  well_formed_outlet float outlet_b ∧ ¬ well_formed_outlet float outlet_without_watts.
Proof.
  split.
  - apply (outlet_passes_iff_well_formed fzero float outlet_b "1" "pdu" init eq_refl).
    vm_compute. reflexivity.
  - intros Hwf.
    apply (outlet_passes_iff_well_formed fzero float outlet_without_watts "1" "pdu"
             init eq_refl) in Hwf.
    vm_compute in Hwf. discriminate Hwf.
Defined.

(** X10: the device of the round trip is well formed, the one whose
    first outlet lacks [watts] is not. *)
Lemma device_passes_iff_well_formed_witness :
  well_formed_device float realpower_device
  ∧ ¬ well_formed_device float missing_watts_device.
Proof.
  split.
  - apply (device_passes_iff_well_formed fzero float realpower_device init eq_refl).
    vm_compute. reflexivity.
  - intros Hwf.
    apply (device_passes_iff_well_formed fzero float missing_watts_device init eq_refl)
      in Hwf.
    vm_compute in Hwf. discriminate Hwf.
Defined.

(** X11: the document of the round trip is well formed, and none of the
    truncated body, the one without devices and the one with the
    unknown status is. *)
Lemma cycle_passes_iff_well_formed_witness :
  (∃ root, fromstring realpower = Some root ∧ well_formed_document float root)
  ∧ ¬ (∃ root, fromstring truncated = Some root ∧ well_formed_document float root)
  ∧ ¬ (∃ root, fromstring no_devices = Some root ∧ well_formed_document float root)
  ∧ ¬ (∃ root, fromstring standby = Some root ∧ well_formed_document float root).
Proof.
  split_and!.
  - apply (cycle_passes_iff_well_formed fzero float fromstring realpower init eq_refl).
    vm_compute. reflexivity.
  - intros Hwf.
    apply (cycle_passes_iff_well_formed fzero float fromstring truncated init eq_refl)
      in Hwf.
    vm_compute in Hwf. discriminate Hwf.
  - intros Hwf.
    apply (cycle_passes_iff_well_formed fzero float fromstring no_devices init eq_refl)
      in Hwf.
    vm_compute in Hwf. discriminate Hwf.
  - intros Hwf.
    apply (cycle_passes_iff_well_formed fzero float fromstring standby init eq_refl)
      in Hwf.
    vm_compute in Hwf. discriminate Hwf.
Defined.

(** X12 on a device with two [Volts-A] fields whose only outlet container
    comes after an outlet that [process_outlet] never sees. *)
Lemma device_fields_last_one_wins_witness :
  last_field "Volts-A" (children device_with_two_volts) = Some volts_field
  ∧ sample (process_device fzero float device_with_two_volts after_second_device).1
           (DeviceMetric "Volts-A" ["1"; "pdu"]) = inl <$> float "230.1"
  ∧ last_field "RealPower-A" (children device_with_two_volts) = None
  ∧ sample (process_device fzero float device_with_two_volts after_second_device).1
           (DeviceMetric "RealPower-A" ["1"; "pdu"]) = None.
Proof.
  assert (Hwf : Forall (well_formed_child float) (children device_with_two_volts)).
  { repeat apply Forall_cons_2; [..|apply Forall_nil_2];
      apply (process_child_passes_iff fzero float _ "1" "pdu" init eq_refl);
      vm_compute; reflexivity. }
  assert (Hvolts : last_field "Volts-A" (children device_with_two_volts) = Some volts_field)
    by (vm_compute; reflexivity).
  assert (Hpower : last_field "RealPower-A" (children device_with_two_volts) = None)
    by (vm_compute; reflexivity).
  split_and!; [done| |done|].
  - rewrite (device_fields_last_one_wins fzero float device_with_two_volts
               "Volts-A" "1" "pdu" after_second_device declared_after_second_device
               eq_refl eq_refl eq_refl Hwf); [|by vm_compute; eauto].
    rewrite Hvolts. vm_compute. reflexivity.
  - rewrite (device_fields_last_one_wins fzero float device_with_two_volts
               "RealPower-A" "1" "pdu" after_second_device declared_after_second_device
               eq_refl eq_refl eq_refl Hwf); [|by vm_compute; eauto].
    rewrite Hpower. vm_compute. reflexivity.
Defined.

(** X13: processing the first device leaves the series of the second
    alone, also when an outlet of the first raises. *)
Lemma device_touches_only_its_own_series_witness :
  sample (process_device fzero float missing_watts_device after_second_device).1
         (OutletStatus ["c"; "1"; "u3"; "2"; "pdu"])
  = sample after_second_device (OutletStatus ["c"; "1"; "u3"; "2"; "pdu"])
  ∧ sample after_second_device (OutletStatus ["c"; "1"; "u3"; "2"; "pdu"])
    = Some (inr 0)
  ∧ sample (process_device fzero float realpower_device after_second_device).1
           (DeviceMetric "Volts-A" ["2"; "pdu"])
    = sample after_second_device (DeviceMetric "Volts-A" ["2"; "pdu"]).
Proof.
  split_and!; [|vm_compute; reflexivity|].
  - apply (device_touches_only_its_own_series fzero float missing_watts_device
             "1" "pdu" after_second_device _ declared_after_second_device eq_refl eq_refl).
    simpl. discriminate.
  - apply (device_touches_only_its_own_series fzero float realpower_device
             "1" "pdu" after_second_device _ declared_after_second_device eq_refl eq_refl).
    simpl. discriminate.
Defined.

(** X14 on a field whose value is not a number: the gauge of the device
    has a sample afterwards, zero. *)
Lemma field_with_rejected_value_leaves_zero_witness :
  (process_child fzero float field_not_a_number plain_labels init).2
  = Raise (ValueError (CouldNotConvertToFloat "n/a"))
  ∧ sample (init (F:=PrimFloat.float)) (DeviceMetric "Volts-A" ["1"; "pdu"]) = None
  ∧ sample (process_child fzero float field_not_a_number plain_labels init).1
           (DeviceMetric "Volts-A" ["1"; "pdu"]) = Some (inl fzero).
Proof.
  destruct (field_with_rejected_value_leaves_zero fzero float field_not_a_number
              "Volts-A" "1" "pdu" init eq_refl eq_refl eq_refl)
    as (Hraise & Hsample & _).
  - vm_compute. eauto.
  - vm_compute. reflexivity.
  - split_and!; [exact Hraise|reflexivity|exact Hsample].
Defined.

(** X3 on a loop of three cycles of which the second brings a truncated
    body: the loop ends as that call of [process] ends, and the third
    cycle is not run. *)
Lemma loop_survives_iff_every_cycle_does_witness :
  (process fzero float fromstring (Response second_device) init).2 = Ok tt
  ∧ (process fzero float fromstring (Response truncated) init).2 = Raise ParseError
  ∧ start_export_loop fzero float fromstring
      [mkCycle (Response second_device) "0.01"; mkCycle (Response truncated) "0.00";
       mkCycle (Response realpower) "0.01"] init
    = process fzero float fromstring (Response truncated)
        (start_export_loop fzero float fromstring
           [mkCycle (Response second_device) "0.01"] init).1.
Proof.
  assert (Hfirst : (process fzero float fromstring (Response second_device) init).2 = Ok tt)
    by (vm_compute; reflexivity).
  assert (Hsecond : (process fzero float fromstring (Response truncated) init).2
                    = Raise ParseError) by (vm_compute; reflexivity).
  split_and!; [done..|].
  apply (proj2 (loop_survives_iff_every_cycle_does fzero float fromstring
                  [mkCycle (Response second_device) "0.01";
                   mkCycle (Response truncated) "0.00";
                   mkCycle (Response realpower) "0.01"] init)
           [mkCycle (Response second_device) "0.01"]
           (mkCycle (Response truncated) "0.00")
           [mkCycle (Response realpower) "0.01"] ParseError eq_refl).
  - apply Forall_cons_2; [exact Hfirst|apply Forall_nil_2].
  - exact Hsecond.
Defined.

Lemma three_devices_parse : fromstring three_devices = Some three_devices_root.
Proof. vm_compute. reflexivity. Qed.

Lemma standby_second_parse : fromstring standby_second = Some standby_second_root.
Proof. vm_compute. reflexivity. Qed.

Lemma well_formed_labels outlet :
  is_Some (attrib outlet !! "name") →
  is_Some (attrib outlet !! "num") →
  is_Some (attrib outlet !! "url") →
  ∀ l, l ∈ ["name"; "num"; "url"] → is_Some (attrib outlet !! l).
Proof.
  intros Hn Hm Hu l Hl. rewrite !elem_of_cons, elem_of_nil in Hl.
  by destruct Hl as [->|[->|[->|[]]]].
Qed.

(** The amended C4 on the document with three devices: two devices and
    an outlet pass, and the [KeyError] of [watts] ends the cycle and the
    loop. *)
Lemma missing_measurement_aborts_the_cycle_witness :
  attrib outlet_without_watts !! "watts" = None
  ∧ fromstring three_devices = Some three_devices_root
  ∧ reaches_measurement float outlet_without_watts "watts"
  ∧ reaches_outlet float three_devices_container third_device two_outlets
      outlet_without_watts
  ∧ (process_outlet fzero float outlet_without_watts plain_labels init).2
    = Raise (KeyError "watts")
  ∧ (process fzero float fromstring (Response three_devices) init).2
    = Raise (KeyError "watts")
  ∧ start_export_loop fzero float fromstring
      [mkCycle (Response three_devices) "0.01"; mkCycle (Response realpower) "0.01"] init
    = process fzero float fromstring (Response three_devices) init.
Proof.
  assert (Ha : "watts" ∈ ["amps"; "kwatthrs"; "watts"])
    by (rewrite !elem_of_cons; auto).
  assert (Hmissing : attrib outlet_without_watts !! "watts" = None)
    by (vm_compute; reflexivity).
  assert (Hdevices : find three_devices_root "devices" = Some three_devices_container)
    by (vm_compute; reflexivity).
  assert (Hdevice : third_device ∈ children three_devices_container)
    by (cbn; rewrite !elem_of_cons; auto).
  assert (Houtlets : find third_device "outlets" = Some two_outlets)
    by (vm_compute; reflexivity).
  assert (Houtlet : outlet_without_watts ∈ children two_outlets)
    by (cbn; rewrite !elem_of_cons; auto).
  assert (Hreaches : reaches_measurement float outlet_without_watts "watts").
  { split; [apply well_formed_labels; vm_compute; eauto|].
    exists ["amps"; "kwatthrs"], []. split; [reflexivity|].
    repeat apply Forall_cons_2; [..|apply Forall_nil_2];
      eexists; (split; [vm_compute; reflexivity|vm_compute; eauto]). }
  assert (Hdocument : reaches_outlet float three_devices_container third_device
                        two_outlets outlet_without_watts).
  { exists [second_device_element; realpower_device], [], [outlet_b], [].
    split_and!; [reflexivity| |vm_compute; eauto|vm_compute; eauto| |reflexivity|].
    - repeat apply Forall_cons_2; [..|apply Forall_nil_2];
        apply (process_device_passes_iff fzero float _ init eq_refl);
        vm_compute; reflexivity.
    - repeat apply Forall_cons_2; [..|apply Forall_nil_2];
        apply (process_child_passes_iff fzero float _ "1" "pdu" init eq_refl);
        vm_compute; reflexivity.
    - apply Forall_singleton.
      apply (process_outlet_passes_iff fzero float _ "1" "pdu" init eq_refl).
      vm_compute. reflexivity. }
  destruct (missing_measurement_aborts_the_cycle fzero float fromstring
              three_devices _ _ _ _ _ "watts" plain_labels "0.01"
              [mkCycle (Response realpower) "0.01"] init
              eq_refl Ha Hmissing three_devices_parse Hdevices Hdevice Houtlets Houtlet)
    as (_ & _ & _ & _ & Hloop & _ & Hexception).
  destruct (Hexception Hreaches) as [Hraised Hcycle].
  destruct (Hcycle Hdocument) as [Hprocess _].
  split_and!; [done|apply three_devices_parse|done|done| |exact Hprocess|exact Hloop].
  apply (Hraised "1" "pdu").
Defined.

(** The amended C5 on the document whose second device has an outlet on
    standby after a sound one. *)
Lemma unknown_status_aborts_the_cycle_witness :
  attrib outlet_on_standby !! "status" = Some "Standby"
  ∧ fromstring standby_second = Some standby_second_root
  ∧ reaches_status float outlet_on_standby
  ∧ reaches_outlet float standby_second_container device_with_standby
      outlets_with_standby outlet_on_standby
  ∧ (process_outlet fzero float outlet_on_standby plain_labels init).2
    = Raise (ValueError (NotInList "Standby"))
  ∧ (process fzero float fromstring (Response standby_second) init).2
    = Raise (ValueError (NotInList "Standby"))
  ∧ start_export_loop fzero float fromstring
      [mkCycle (Response standby_second) "0.01"; mkCycle (Response realpower) "0.01"] init
    = process fzero float fromstring (Response standby_second) init.
Proof.
  assert (Hstatus : attrib outlet_on_standby !! "status" = Some "Standby")
    by (vm_compute; reflexivity).
  assert (HOn : "Standby" ≠ "On") by discriminate.
  assert (HOff : "Standby" ≠ "Off") by discriminate.
  assert (Hdevices : find standby_second_root "devices" = Some standby_second_container)
    by (vm_compute; reflexivity).
  assert (Hdevice : device_with_standby ∈ children standby_second_container)
    by (cbn; rewrite !elem_of_cons; auto).
  assert (Houtlets : find device_with_standby "outlets" = Some outlets_with_standby)
    by (vm_compute; reflexivity).
  assert (Houtlet : outlet_on_standby ∈ children outlets_with_standby)
    by (cbn; rewrite !elem_of_cons; auto).
  assert (Hreaches : reaches_status float outlet_on_standby).
  { split; [apply well_formed_labels; vm_compute; eauto|].
    intros a Ha. rewrite !elem_of_cons, elem_of_nil in Ha.
    destruct Ha as [->|[->|[->|[]]]];
      eexists; (split; [vm_compute; reflexivity|vm_compute; eauto]). }
  assert (Hdocument : reaches_outlet float standby_second_container device_with_standby
                        outlets_with_standby outlet_on_standby).
  { exists [second_device_element], [], [outlet_b], [].
    split_and!; [reflexivity| |vm_compute; eauto|vm_compute; eauto| |reflexivity|].
    - apply Forall_singleton.
      apply (process_device_passes_iff fzero float _ init eq_refl).
      vm_compute. reflexivity.
    - repeat apply Forall_cons_2; [..|apply Forall_nil_2];
        apply (process_child_passes_iff fzero float _ "1" "pdu" init eq_refl);
        vm_compute; reflexivity.
    - apply Forall_singleton.
      apply (process_outlet_passes_iff fzero float _ "1" "pdu" init eq_refl).
      vm_compute. reflexivity. }
  destruct (unknown_status_aborts_the_cycle fzero float fromstring
              standby_second _ _ _ _ _ "Standby" plain_labels "0.01"
              [mkCycle (Response realpower) "0.01"] init
              eq_refl Hstatus HOn HOff standby_second_parse Hdevices Hdevice
              Houtlets Houtlet)
    as (_ & _ & _ & _ & _ & Hloop & _ & Hexception).
  destruct (Hexception Hreaches) as [Hraised Hcycle].
  destruct (Hcycle Hdocument) as [Hprocess _].
  split_and!; [done|apply standby_second_parse|done|done| |exact Hprocess|exact Hloop].
  apply (Hraised "1" "pdu").
Defined.

(** The amended C6 on the document with three devices: the device of
    the round trip comes second, and the third device, which has a
    [RealPower-A] of its own and raises at an outlet, has another
    [id]. *)
Lemma realpower_is_published_witness :
  fromstring three_devices = Some three_devices_root
  ∧ children three_devices_container
    = [second_device_element] ++ realpower_device :: [third_device]
  ∧ well_formed_device float second_device_element
  ∧ leaves_field "RealPower-A" ["1"; "pdu"] third_device
  ∧ find realpower_device "outlets" = Some one_outlet
  ∧ children one_outlet ≠ []
  ∧ children realpower_device
    = [volts_field; unknown_field_without_value]
      ++ realpower_field
         :: [element "field" [("key", "Amps-A"); ("value", "0.5")] []; one_outlet]
  ∧ Forall (well_formed_child float) [volts_field; unknown_field_without_value]
  ∧ (process fzero float fromstring (Response three_devices) init).2
    = Raise (KeyError "watts")
  ∧ ∃ v g,
      float "123.4" = Some v
      ∧ device_metrics (process fzero float fromstring (Response three_devices) init).1
          !! "RealPower-A" = Some g
      ∧ gauge_name g = "pdu_realpower"
      ∧ gauge_metrics g !! ["1"; "pdu"] = Some v.
Proof.
  assert (Hdevices : find three_devices_root "devices" = Some three_devices_container)
    by (vm_compute; reflexivity).
  assert (Hdevs : children three_devices_container
                  = [second_device_element] ++ realpower_device :: [third_device])
    by reflexivity.
  assert (Hearlier : well_formed_device float second_device_element).
  { apply (process_device_passes_iff fzero float _ init eq_refl). vm_compute. reflexivity. }
  assert (Hlater : leaves_field "RealPower-A" ["1"; "pdu"] third_device).
  { left. intros i t Hi Ht. vm_compute in Hi. injection Hi as <-. discriminate. }
  assert (Hid : attrib realpower_device !! "id" = Some "1") by (vm_compute; reflexivity).
  assert (Htype : attrib realpower_device !! "type" = Some "pdu")
    by (vm_compute; reflexivity).
  assert (Houtlets : find realpower_device "outlets" = Some one_outlet)
    by (vm_compute; reflexivity).
  assert (Hnonempty : children one_outlet ≠ []) by discriminate.
  assert (Hchildren : children realpower_device
            = [volts_field; unknown_field_without_value]
              ++ realpower_field
                 :: [element "field" [("key", "Amps-A"); ("value", "0.5")] []; one_outlet])
    by reflexivity.
  assert (Hbefore : Forall (well_formed_child float) [volts_field; unknown_field_without_value]).
  { repeat apply Forall_cons_2; [..|apply Forall_nil_2];
      apply (process_child_passes_iff fzero float _ "1" "pdu" init eq_refl);
      vm_compute; reflexivity. }
  assert (Htag : tag realpower_field = "field") by reflexivity.
  assert (Hkey : attrib realpower_field !! "key" = Some "RealPower-A")
    by (vm_compute; reflexivity).
  assert (Hvalue : attrib realpower_field !! "value" = Some "123.4")
    by (vm_compute; reflexivity).
  assert (Hafter : Forall (λ c, tag c = "field" → attrib c !! "key" ≠ Some "RealPower-A")
            [element "field" [("key", "Amps-A"); ("value", "0.5")] []; one_outlet]).
  { repeat apply Forall_cons_2; [| |apply Forall_nil_2]; intros Hfield.
    - vm_compute. discriminate.
    - discriminate Hfield. }
  destruct (float "123.4") as [v|] eqn:Hv; [|vm_compute in Hv; discriminate Hv].
  split_and!; [apply three_devices_parse|done..|vm_compute; reflexivity|].
  exists v.
  destruct (realpower_is_published fzero float fromstring
              three_devices _ _ _ _ _ _ _ _ _ v init
              eq_refl three_devices_parse Hdevices Hdevs
              (proj2 (Forall_singleton _ _) Hearlier)
              (proj2 (Forall_singleton _ _) Hlater)
              Hid Htype Houtlets Hnonempty Hchildren
              Hbefore Htag Hkey Hvalue Hafter Hv) as (g & Hg).
  by exists g.
Defined.


End Polled.
